(** * Approval-and-release workflow of the GSO inventory system

    A shallow embedding of the request handlers of [server/routes.ts]
    (inventory create/update, inventory-request review, released-order
    request, review and generate) over an explicit model of the data store,
    followed by the properties of the workflow stated against it.

    Conventions.
    - Table keys ([varchar] ids) are strings; a table with lookups by id is
      a [gmap string _], an append-only table is a list of rows in
      insertion order.
    - [integer] columns and integer JSON numbers are [Z].
    - Text is a [string]; the texts of a request body are taken to be free
      of the NUL character, which a text column refuses.
    - Money is counted in hundredths, as a [Z].  A [numeric(12,2)] column
      holds such a value of at most twelve digits.  The [unitCost] and
      [amount] numbers of a request body are taken to be whole hundredths
      too: for those [toFixed(2)], [toString] and the rounding of the
      column are the identity.  A body with a third decimal is not a value
      of these types, and no statement below speaks of one.
    - A statement the database refuses (a value outside the range of its
      column, a foreign key without its row, a second row with a unique
      value) throws; the exception ends the handler in its [catch]
      clause, which answers 500.
    - A handler is a function from the store to the store it leaves behind
      and either the response it has already sent (an early [return
      res...], or the [catch] clause) or the value it continues with. *)

From stdpp Require Import gmap strings list fin_maps pretty sorting.

Open Scope string_scope.
Open Scope Z_scope.

(** ** shared/schema.ts: enumerations and rows *)

Inductive Role := admin | employee.

(** [status] column of both request tables. *)
Inductive Status := pending | approved | denied | partial.

(** [z.enum(["approved", "denied"])] of a per-item decision. *)
Inductive ItemOutcome := item_approved | item_denied.

Inductive NotificationType := success | alert | info.

Inductive ChangeKind := ev_create | ev_update | ev_delete.

Global Instance Role_eq_dec : EqDecision Role.
Proof. solve_decision. Defined.
Global Instance Status_eq_dec : EqDecision Status.
Proof. solve_decision. Defined.
Global Instance ItemOutcome_eq_dec : EqDecision ItemOutcome.
Proof. solve_decision. Defined.
Global Instance NotificationType_eq_dec : EqDecision NotificationType.
Proof. solve_decision. Defined.

Definition denialReasons : list string :=
  [ "wrong_item_name"; "wrong_location"; "wrong_quantity";
    "wrong_unit_of_measure"; "wrong_unit_cost"; "wrong_amount"; "other" ].

(** The columns of [users] the handlers read. *)
Record User := mkUser {
  user_name : string;
  user_email : string;
  user_role : Role;
  user_isApproved : bool;
  user_createdAt : Z;
}.

Record Category := mkCategory {
  cat_id : string;
  cat_name : string;
}.

(** A row of [inventory_items], without its key and without [createdAt]
    and [updatedAt], which the handlers modelled here do not read. *)
Record InventoryItem := mkInventoryItem {
  inv_supplier : string;
  inv_dateReceived : Z;
  inv_quantity : Z;
  inv_unitOfMeasure : string;
  inv_itemName : string;
  inv_categoryId : option string;
  inv_location : string;
  inv_unitCost : Z;
  inv_amount : Z;
  inv_remarks : option string;
}.

(** [Partial<InsertInventoryItem>]: the fields an update sets.  The
    numeric columns travel as decimal strings, here the hundredths they
    denote.  [upd_dateReceived] is what a body carries under
    [dateReceived], if anything. *)
Record InventoryUpdate := mkInventoryUpdate {
  upd_supplier : option string;
  upd_dateReceived : option Z;
  upd_quantity : option Z;
  upd_unitOfMeasure : option string;
  upd_itemName : option string;
  upd_categoryId : option (option string);
  upd_location : option string;
  upd_unitCost : option Z;
  upd_amount : option Z;
  upd_remarks : option (option string);
}.

(** [itemPayloadSchema]. *)
Record ItemPayload := mkItemPayload {
  pay_supplier : string;
  pay_quantity : Z;
  pay_unitOfMeasure : string;
  pay_itemName : string;
  pay_location : string;
  pay_unitCost : Z;
  pay_amount : Z;
  pay_remarks : option string;
  pay_categoryId : option string;
  pay_categoryName : option string;
}.

(** [releasedItemPayloadSchema]. *)
Record ReleasedItemPayload := mkReleasedItemPayload {
  rel_inventoryItemId : string;
  rel_quantity : Z;
  rel_unit : string;
  rel_particulars : string;
  rel_unitCost : Z;
  rel_amount : Z;
  rel_remarks : option string;
}.

(** One value of the [itemStatuses] object. *)
Record ItemStatus := mkItemStatus {
  ist_status : ItemOutcome;
  ist_reason : option string;
}.

Record InventoryRequest := mkInventoryRequest {
  ireq_employeeId : string;
  ireq_bulk : bool;                       (* requestType = "bulk" *)
  ireq_items : list ItemPayload;
  ireq_itemStatuses : option (gmap string ItemStatus);
  ireq_status : Status;
  ireq_reviewedBy : option string;
  ireq_reviewedAt : option Z;
}.

Record ReleasedOrderRequest := mkReleasedOrderRequest {
  rreq_employeeId : string;
  rreq_departmentOffice : string;
  rreq_rsNo : option string;
  rreq_isPartial : bool;
  rreq_items : list ReleasedItemPayload;
  rreq_itemStatuses : option (gmap string ItemStatus);
  rreq_status : Status;
  rreq_reviewedBy : option string;
  rreq_reviewedAt : option Z;
}.

Record ReleasedOrderReport := mkReleasedOrderReport {
  rep_sroNo : string;
  rep_rsNo : option string;
  rep_departmentOffice : string;
  rep_isPartial : bool;
  rep_items : list ReleasedItemPayload;
  rep_totalAmount : Z;
  rep_releasedBy : string;
  rep_receivedBy : option string;
}.

Record Notification := mkNotification {
  ntf_userId : string;
  ntf_type : NotificationType;
  ntf_title : string;
  ntf_message : string;
  ntf_targetRoute : string;
}.

(** A row of [category_history]; the handlers modelled here only ever write
    [changeType = "item_added"] or one of the three change kinds of an
    update, with a snapshot of the item before and after. *)
Record CategoryHistory := mkCategoryHistory {
  ch_categoryId : string;
  ch_itemId : string;
  ch_changeType : string;
  ch_previousValue : option InventoryItem;
  ch_newValue : option InventoryItem;
  ch_changedBy : string;
}.

Record AuditEvent := mkAuditEvent {
  au_entityId : string;
  au_action : string;
  au_actorId : string;
  au_actorSnapshot : string * string;
  au_before : option InventoryItem;
  au_after : option InventoryItem;
}.

(** What the handlers push over the socket. *)
Inductive SocketEvent :=
  | NotificationEvent (userId : string) (tag : string)
  | InventoryChange (kind : ChangeKind) (id : string) (item : option InventoryItem)
  | RequestChange (kind : ChangeKind) (id : string) (status : Status).

(** ** The data store *)

Record Store := mkStore {
  users : gmap string User;
  categories : list Category;
  inventoryItems : gmap string InventoryItem;
  categoryHistory : list CategoryHistory;
  inventoryRequests : gmap string InventoryRequest;
  releasedOrderRequests : gmap string ReleasedOrderRequest;
  releasedOrderReports : list ReleasedOrderReport;
  notifications : list Notification;
  auditEvents : list AuditEvent;
  emitted : list SocketEvent;
}.

(** The clock and the random source a call reads. *)
Record Env := mkEnv {
  env_now : Z;       (* new Date() *)
  env_year : N;      (* new Date().getFullYear() *)
  env_rand : N;      (* Math.floor(Math.random() * 10000) *)
}.

Record Session := mkSession {
  sess_userId : option string;
  sess_role : option Role;
}.

(** ** Responses *)

Inductive Body :=
  | Message (msg : string)
  | ValidationErrors
  | ItemBody (id : string) (item : InventoryItem)
  | MaybeItemBody (item : option InventoryItem)
  | ReviewBody (approvedCount deniedCount : Z) (createdItems : list (string * InventoryItem))
  | InventoryRequestBody (id : string)
  | ReleasedRequestBody (id : string) (req : ReleasedOrderRequest)
  | ReportBody (report : ReleasedOrderReport).

Record Response := mkResponse {
  code : Z;
  body : Body;
}.

Definition json (c : Z) (b : Body) : Response := mkResponse c b.

(** ** Handlers: state passing with early return *)

Definition Handler (A : Type) : Type := Store → Store * (Response + A).

Global Instance Handler_ret : MRet Handler := λ A a s, (s, inr a).

Global Instance Handler_bind : MBind Handler := λ A B f m s,
  match m s with
  | (s', inl r) => (s', inl r)
  | (s', inr a) => f a s'
  end.

(** [return res.status(c).json(b)]. *)
Definition reply {A} (r : Response) : Handler A := λ s, (s, inl r).

(** An exception reaching the handler's [catch] clause. *)
Definition internalError {A} : Handler A :=
  reply (json 500 (Message "Internal server error")).

Definition gets {A} (f : Store → A) : Handler A := λ s, (s, inr (f s)).

Definition modify (f : Store → Store) : Handler unit := λ s, (f s, inr tt).

(** Run a handler to the response it sends. *)
Definition respond (h : Handler Response) (s : Store) : Store * Response :=
  match h s with
  | (s', inl r) => (s', r)
  | (s', inr r) => (s', r)
  end.

(** [for (const x of xs) { body }]. *)
Fixpoint forEach {A} (xs : list A) (body : A → Handler unit) : Handler unit :=
  match xs with
  | [] => mret tt
  | x :: xs' => body x ≫= λ _, forEach xs' body
  end.

(** A loop that updates local variables [B] as it goes. *)
Fixpoint foldM {A B} (body : B → A → Handler B) (acc : B) (xs : list A) : Handler B :=
  match xs with
  | [] => mret acc
  | x :: xs' => body acc x ≫= λ acc', foldM body acc' xs'
  end.

(** [Array.prototype.push], and a row appended to a table. *)
Definition push {A} (x : A) (xs : list A) : list A := (xs ++ [x])%list.

(** ** [class DbStorage] (server/routes.ts, lines 1639 to 2012; imported
    by the handlers as [./storage]), over the tables of shared/schema.ts

    Each method is one statement of the query builder.  A row that is
    looked up by id gets a key that is not in use ([gen_random_uuid()]). *)

Definition set_categories (f : list Category → list Category) (s : Store) : Store :=
  mkStore (users s) (f (categories s)) (inventoryItems s) (categoryHistory s)
    (inventoryRequests s) (releasedOrderRequests s) (releasedOrderReports s)
    (notifications s) (auditEvents s) (emitted s).

Definition set_inventoryItems
    (f : gmap string InventoryItem → gmap string InventoryItem) (s : Store) : Store :=
  mkStore (users s) (categories s) (f (inventoryItems s)) (categoryHistory s)
    (inventoryRequests s) (releasedOrderRequests s) (releasedOrderReports s)
    (notifications s) (auditEvents s) (emitted s).

Definition set_categoryHistory
    (f : list CategoryHistory → list CategoryHistory) (s : Store) : Store :=
  mkStore (users s) (categories s) (inventoryItems s) (f (categoryHistory s))
    (inventoryRequests s) (releasedOrderRequests s) (releasedOrderReports s)
    (notifications s) (auditEvents s) (emitted s).

Definition set_inventoryRequests
    (f : gmap string InventoryRequest → gmap string InventoryRequest) (s : Store) : Store :=
  mkStore (users s) (categories s) (inventoryItems s) (categoryHistory s)
    (f (inventoryRequests s)) (releasedOrderRequests s) (releasedOrderReports s)
    (notifications s) (auditEvents s) (emitted s).

Definition set_releasedOrderRequests
    (f : gmap string ReleasedOrderRequest → gmap string ReleasedOrderRequest)
    (s : Store) : Store :=
  mkStore (users s) (categories s) (inventoryItems s) (categoryHistory s)
    (inventoryRequests s) (f (releasedOrderRequests s)) (releasedOrderReports s)
    (notifications s) (auditEvents s) (emitted s).

Definition set_releasedOrderReports
    (f : list ReleasedOrderReport → list ReleasedOrderReport) (s : Store) : Store :=
  mkStore (users s) (categories s) (inventoryItems s) (categoryHistory s)
    (inventoryRequests s) (releasedOrderRequests s) (f (releasedOrderReports s))
    (notifications s) (auditEvents s) (emitted s).

Definition set_notifications
    (f : list Notification → list Notification) (s : Store) : Store :=
  mkStore (users s) (categories s) (inventoryItems s) (categoryHistory s)
    (inventoryRequests s) (releasedOrderRequests s) (releasedOrderReports s)
    (f (notifications s)) (auditEvents s) (emitted s).

Definition set_auditEvents (f : list AuditEvent → list AuditEvent) (s : Store) : Store :=
  mkStore (users s) (categories s) (inventoryItems s) (categoryHistory s)
    (inventoryRequests s) (releasedOrderRequests s) (releasedOrderReports s)
    (notifications s) (f (auditEvents s)) (emitted s).

Definition set_emitted (f : list SocketEvent → list SocketEvent) (s : Store) : Store :=
  mkStore (users s) (categories s) (inventoryItems s) (categoryHistory s)
    (inventoryRequests s) (releasedOrderRequests s) (releasedOrderReports s)
    (notifications s) (auditEvents s) (f (emitted s)).

(** What the database refuses.  [integer] is a 32-bit column,
    [numeric(12,2)] holds at most ten digits before the point, and a
    [references] column holds the key of a row of the table it names. *)
Definition int4 (n : Z) : bool :=
  bool_decide (-2147483648 ≤ n ≤ 2147483647).

Definition numeric12_2 (hundredths : Z) : bool :=
  bool_decide (-1000000000000 < hundredths < 1000000000000).

Definition hasUser (id : string) (s : Store) : bool :=
  bool_decide (is_Some (users s !! id)).

Definition hasCategory (id : string) (s : Store) : bool :=
  bool_decide (id ∈ cat_id <$> categories s).

Definition hasInventoryItem (id : string) (s : Store) : bool :=
  bool_decide (is_Some (inventoryItems s !! id)).

(** A nullable [references] column. *)
Definition refersTo (has : string → Store → bool) (id : option string) (s : Store) : bool :=
  match id with
  | Some id => has id s
  | None => true
  end.

(** The statement throws. *)
Definition dbError {A} : Handler A := internalError.

(** [DbStorage.getUserById]. *)
Definition getUserById (id : string) : Handler (option User) :=
  gets (λ s, users s !! id).

(** [orderBy(desc(users.createdAt))]. *)
Definition newerFirst (a b : string * User) : Prop :=
  user_createdAt b.2 ≤ user_createdAt a.2.

Global Instance newerFirst_dec a b : Decision (newerFirst a b).
Proof. unfold newerFirst. apply _. Defined.

(** [DbStorage.getAllUsers]: the approved users, the most recently
    created first.  Among users created at the same instant the order is
    the database's; here it is the one the sort leaves. *)
Definition approvedUsers (s : Store) : list (string * User) :=
  merge_sort newerFirst
    (filter (λ u, user_isApproved u.2 = true) (map_to_list (users s))).

Definition getAllUsers : Handler (list (string * User)) := gets approvedUsers.

(** [DbStorage.getCategoryByName]; [name] is a unique column, so the
    select has one row at most. *)
Definition getCategoryByName (name : string) : Handler (option Category) :=
  gets (λ s, snd <$> list_find (λ c, cat_name c = name) (categories s)).

(** [DbStorage.createCategory]; the insert throws when the name is
    taken. *)
Definition createCategory (name : string) : Handler Category :=
  λ s, if bool_decide (name ∈ cat_name <$> categories s) then dbError s else
       let c := mkCategory (fresh (cat_id <$> categories s)) name in
       (set_categories (push c) s, inr c).

(** [DbStorage.getInventoryItemById]. *)
Definition getInventoryItemById (id : string) : Handler (option InventoryItem) :=
  gets (λ s, inventoryItems s !! id).

(** [DbStorage.createInventoryItem]; the insert throws when the quantity,
    the unit cost or the amount does not fit its column, and when the
    category is not there. *)
Definition createInventoryItem (item : InventoryItem) : Handler (string * InventoryItem) :=
  λ s, if negb (int4 (inv_quantity item) && numeric12_2 (inv_unitCost item)
                && numeric12_2 (inv_amount item)
                && refersTo hasCategory (inv_categoryId item) s)
       then dbError s else
       let id := fresh (dom (inventoryItems s)) in
       (set_inventoryItems (insert id item) s, inr (id, item)).

(** [.set({ ...item, updatedAt: new Date() })]: the fields of the update
    overwrite those of the row, the others keep their value ([updatedAt]
    is not a field of the rows here). *)
Definition applyUpdate (u : InventoryUpdate) (it : InventoryItem) : InventoryItem :=
  mkInventoryItem
    (default (inv_supplier it) (upd_supplier u))
    (default (inv_dateReceived it) (upd_dateReceived u))
    (default (inv_quantity it) (upd_quantity u))
    (default (inv_unitOfMeasure it) (upd_unitOfMeasure u))
    (default (inv_itemName it) (upd_itemName u))
    (default (inv_categoryId it) (upd_categoryId u))
    (default (inv_location it) (upd_location u))
    (default (inv_unitCost it) (upd_unitCost u))
    (default (inv_amount it) (upd_amount u))
    (default (inv_remarks it) (upd_remarks u)).

(** The values an update sets fit their columns. *)
Definition updateFits (u : InventoryUpdate) : bool :=
  from_option int4 true (upd_quantity u)
  && from_option numeric12_2 true (upd_unitCost u)
  && from_option numeric12_2 true (upd_amount u).

(** [DbStorage.updateInventoryItem]: the row as updated, or nothing when
    there is no such row.  The update throws when a value it sets does
    not fit its column, and when it sets a category that is not there. *)
Definition updateInventoryItem (id : string) (u : InventoryUpdate)
    : Handler (option InventoryItem) :=
  λ s, if negb (updateFits u) then dbError s else
       match inventoryItems s !! id with
       | Some it =>
           if negb (from_option (λ c, refersTo hasCategory c s) true (upd_categoryId u))
           then dbError s else
           let it' := applyUpdate u it in
           (set_inventoryItems (insert id it') s, inr (Some it'))
       | None => (s, inr None)
       end.

(** [DbStorage.addCategoryHistory]; the insert throws when the category,
    the item or the user it names is not there. *)
Definition addCategoryHistory (h : CategoryHistory) : Handler unit :=
  λ s, if negb (hasCategory (ch_categoryId h) s && hasInventoryItem (ch_itemId h) s
                && hasUser (ch_changedBy h) s)
       then dbError s else modify (set_categoryHistory (push h)) s.

(** [DbStorage.logAuditEvent]; the insert throws when the actor is not
    there. *)
Definition logAuditEvent (e : AuditEvent) : Handler unit :=
  λ s, if negb (hasUser (au_actorId e) s) then dbError s
       else modify (set_auditEvents (push e)) s.

(** [DbStorage.createNotification]; the insert throws when the user is
    not there. *)
Definition createNotification (n : Notification) : Handler Notification :=
  λ s, if negb (hasUser (ntf_userId n) s) then dbError s
       else (set_notifications (push n) s, inr n).

(** [DbStorage.getInventoryRequestById]. *)
Definition getInventoryRequestById (id : string) : Handler (option InventoryRequest) :=
  gets (λ s, inventoryRequests s !! id).

(** [DbStorage.updateInventoryRequestStatus]: status, reviewer, review
    time and itemStatuses of the row [id], if there is one ([itemStatuses]
    is an object at every call, hence set).  The update throws when it
    reaches a row and the reviewer is not there. *)
Definition updateInventoryRequestStatus (now : Z) (id : string) (st : Status)
    (reviewer : string) (statuses : gmap string ItemStatus) : Handler unit :=
  λ s, if bool_decide (is_Some (inventoryRequests s !! id)) && negb (hasUser reviewer s)
       then dbError s else
       modify (set_inventoryRequests (alter (λ r,
         mkInventoryRequest (ireq_employeeId r) (ireq_bulk r) (ireq_items r)
           (Some statuses) st (Some reviewer) (Some now)) id)) s.

(** [DbStorage.getReleasedOrderRequestById]. *)
Definition getReleasedOrderRequestById (id : string)
    : Handler (option ReleasedOrderRequest) :=
  gets (λ s, releasedOrderRequests s !! id).

(** [DbStorage.createReleasedOrderRequest]: the new row, pending by the
    default of its column.  The insert throws when the employee is not
    there. *)
Definition createReleasedOrderRequest (employeeId departmentOffice : string)
    (rsNo : option string) (isPartial : bool) (items : list ReleasedItemPayload)
    : Handler (string * ReleasedOrderRequest) :=
  λ s, if negb (hasUser employeeId s) then dbError s else
       let id := fresh (dom (releasedOrderRequests s)) in
       let r := mkReleasedOrderRequest employeeId departmentOffice rsNo isPartial
                  items None pending None None in
       (set_releasedOrderRequests (insert id r) s, inr (id, r)).

(** [DbStorage.updateReleasedOrderRequestStatus], the counterpart of
    [updateInventoryRequestStatus] for release requests. *)
Definition updateReleasedOrderRequestStatus (now : Z) (id : string) (st : Status)
    (reviewer : string) (statuses : gmap string ItemStatus) : Handler unit :=
  λ s, if bool_decide (is_Some (releasedOrderRequests s !! id)) && negb (hasUser reviewer s)
       then dbError s else
       modify (set_releasedOrderRequests (alter (λ r,
         mkReleasedOrderRequest (rreq_employeeId r) (rreq_departmentOffice r)
           (rreq_rsNo r) (rreq_isPartial r) (rreq_items r)
           (Some statuses) st (Some reviewer) (Some now)) id)) s.

(** [DbStorage.createReleasedOrderReport]; the insert throws when the
    total does not fit its column, and when the releasing user is not
    there. *)
Definition createReleasedOrderReport (r : ReleasedOrderReport)
    : Handler ReleasedOrderReport :=
  λ s, if negb (numeric12_2 (rep_totalAmount r) && hasUser (rep_releasedBy r) s)
       then dbError s else (set_releasedOrderReports (push r) s, inr r).

(** ** server/routes.ts: helpers *)

(** [io.to(`user:${userId}`).emit("notification", ...)]. *)
Definition emitNotification (userId tag : string) : Handler unit :=
  modify (set_emitted (push (NotificationEvent userId tag))).

Definition emitInventoryChange (kind : ChangeKind) (id : string)
    (item : option InventoryItem) : Handler unit :=
  modify (set_emitted (push (InventoryChange kind id item))).

Definition emitRequestChange (kind : ChangeKind) (id : string) (st : Status)
    : Handler unit :=
  modify (set_emitted (push (RequestChange kind id st))).

(** ** server/middleware/auth.ts *)

Definition requireAuth (sess : Session) : Handler string :=
  match sess_userId sess with
  | None => reply (json 401 (Message "Authentication required"))
  | Some uid => mret uid
  end.

Definition requireRole (roles : list Role) (sess : Session) : Handler string :=
  match sess_userId sess with
  | None => reply (json 401 (Message "Authentication required"))
  | Some uid =>
      match sess_role sess with
      | Some r =>
          if bool_decide (r ∈ roles) then mret uid
          else reply (json 403 (Message "Insufficient permissions"))
      | None => reply (json 403 (Message "Insufficient permissions"))
      end
  end.

(** JavaScript truthiness of an optional string: [undefined], [null] and
    the empty string are falsy. *)
Definition truthy (o : option string) : option string :=
  match o with
  | Some EmptyString => None
  | _ => o
  end.

(** [z.string().min(1)]. *)
Definition nonEmpty (x : string) : bool :=
  match x with EmptyString => false | _ => true end.

(** The block every item-creating handler repeats: get or create the
    category named by the payload. *)
Definition resolveCategory (categoryName : option string) : Handler (option string) :=
  match truthy categoryName with
  | Some name =>
      existing ← getCategoryByName name;
      match existing with
      | Some c => mret (Some (cat_id c))
      | None => newCat ← createCategory name; mret (Some (cat_id newCat))
      end
  | None => mret None
  end.

(** [itemPayloadSchema.parse]: true when the payload satisfies the schema. *)
Definition itemPayloadValid (p : ItemPayload) : bool :=
  nonEmpty (pay_supplier p) && bool_decide (0 < pay_quantity p)
  && nonEmpty (pay_unitOfMeasure p) && nonEmpty (pay_itemName p)
  && nonEmpty (pay_location p) && bool_decide (0 ≤ pay_unitCost p)
  && bool_decide (0 ≤ pay_amount p).

Definition validationError {A} : Handler A := reply (json 400 ValidationErrors).

(** ** POST /api/inventory: admin direct add *)

Definition postInventory (env : Env) (sess : Session) (validated : ItemPayload)
    : Handler Response :=
  userId ← requireRole [admin] sess;
  if negb (itemPayloadValid validated) then validationError else
  (* Get or create category from categoryName *)
  resolved ← resolveCategory (pay_categoryName validated);
  let categoryId :=
    match truthy (pay_categoryName validated) with
    | Some _ => resolved
    | None => truthy (pay_categoryId validated)
    end in
  (* Calculate amount: validated.amount || (validated.quantity * validated.unitCost) *)
  let amount :=
    if bool_decide (pay_amount validated = 0)
    then pay_quantity validated * pay_unitCost validated
    else pay_amount validated in
  created ← createInventoryItem
    (mkInventoryItem (pay_supplier validated) (env_now env) (pay_quantity validated)
       (pay_unitOfMeasure validated) (pay_itemName validated) categoryId
       (pay_location validated) (pay_unitCost validated) amount
       (truthy (pay_remarks validated)));
  let '(id, item) := created in
  (* Log to category history if category exists *)
  match truthy (inv_categoryId item) with
  | Some cid =>
      addCategoryHistory (mkCategoryHistory cid id "item_added" None (Some item) userId)
  | None => mret tt
  end;;
  (* Log audit event *)
  actor ← getUserById userId;
  match actor with
  | Some a =>
      logAuditEvent (mkAuditEvent id "create" userId (user_name a, user_email a)
                       None (Some item))
  | None => mret tt
  end;;
  emitInventoryChange ev_create id (Some item);;
  mret (json 200 (ItemBody id item)).

(** ** PATCH /api/inventory/:id: admin update *)

(** [insertInventoryItemSchema.partial().parse]: every field is optional
    and typed after its column (text for the text columns and for the
    numeric ones, an integer for [quantity]), which is what the fields of
    [InventoryUpdate] hold.  [dateReceived] is a timestamp column, so the
    schema wants a [Date] there; the body is parsed JSON, which holds
    none, so a body that carries the field is refused. *)
Definition inventoryUpdateValid (data : InventoryUpdate) : bool :=
  bool_decide (upd_dateReceived data = None).

Definition patchInventory (sess : Session) (id : string) (data : InventoryUpdate)
    : Handler Response :=
  userId ← requireRole [admin] sess;
  if negb (inventoryUpdateValid data) then validationError else
  before ← getInventoryItemById id;
  match before with
  | None => reply (json 404 (Message "Item not found"))
  | Some before =>
      (* Recalculate amount if quantity or unitCost changed *)
      let updateData :=
        if bool_decide (upd_quantity data ≠ None ∨ upd_unitCost data ≠ None) then
          let newQty := default (inv_quantity before) (upd_quantity data) in
          let newCost := default (inv_unitCost before) (upd_unitCost data) in
          mkInventoryUpdate (upd_supplier data) (upd_dateReceived data)
            (upd_quantity data) (upd_unitOfMeasure data) (upd_itemName data)
            (upd_categoryId data) (upd_location data) (upd_unitCost data)
            (Some (newQty * newCost)) (upd_remarks data)
        else data in
      updated ← updateInventoryItem id updateData;
      (* Log to category history if relevant fields changed *)
      match truthy (inv_categoryId before) with
      | Some cid =>
          if bool_decide (upd_quantity data ≠ None ∨ upd_location data ≠ None
                          ∨ upd_unitCost data ≠ None) then
            let changeType :=
              if bool_decide (upd_quantity data ≠ None) then "quantity_change"
              else if bool_decide (upd_location data ≠ None) then "location_change"
              else "cost_change" in
            addCategoryHistory
              (mkCategoryHistory cid id changeType (Some before) updated userId)
          else mret tt
      | None => mret tt
      end;;
      (* Log audit event *)
      actor ← getUserById userId;
      match actor, updated with
      | Some a, Some u =>
          logAuditEvent (mkAuditEvent id "update" userId (user_name a, user_email a)
                           (Some before) (Some u))
      | _, _ => mret tt
      end;;
      emitInventoryChange ev_update id updated;;
      mret (json 200 (MaybeItemBody updated))
  end.

(** ** PATCH /api/requests/:id: admin review of an inventory request *)

(** One element of [itemDecisions]. *)
Record ItemDecision := mkDecision {
  dec_index : Z;
  dec_status : ItemOutcome;
  dec_reason : option string;
}.

(** The body of a review call, before the schema is applied. *)
Record ReviewInput := mkReviewInput {
  rv_status : Status;
  rv_itemDecisions : option (list ItemDecision);
}.

(** [reviewRequestSchema.parse]: the blanket status is one of approved,
    denied, partial, and every reason is a member of [denialReasons]. *)
Definition reviewRequestValid (b : ReviewInput) : bool :=
  bool_decide (rv_status b ≠ pending)
  && forallb (λ d, match dec_reason d with
                   | Some r => bool_decide (r ∈ denialReasons)
                   | None => true
                   end)
       (default [] (rv_itemDecisions b)).

(** [items[index]] of a JavaScript array at an integer index. *)
Definition itemAt {A} (items : list A) (index : Z) : option A :=
  if bool_decide (0 ≤ index) then items !! Z.to_nat index else None.

(** The local variables of the review handler. *)
Record ReviewLocals := mkReviewLocals {
  createdItems : list (string * InventoryItem);
  approvedCount : Z;
  deniedCount : Z;
  itemStatuses : gmap string ItemStatus;
}.

(** The block both branches of the review repeat for an approved item:
    resolve its category, create the InventoryItem with
    [amount = quantity * unitCost], log to the category history, broadcast. *)
Definition createApprovedItem (env : Env) (adminId : string) (itemData : ItemPayload)
    : Handler (string * InventoryItem) :=
  categoryId ← resolveCategory (pay_categoryName itemData);
  let amount := pay_quantity itemData * pay_unitCost itemData in
  created ← createInventoryItem
    (mkInventoryItem (pay_supplier itemData) (env_now env) (pay_quantity itemData)
       (pay_unitOfMeasure itemData) (pay_itemName itemData) categoryId
       (pay_location itemData) (pay_unitCost itemData) amount
       (truthy (pay_remarks itemData)));
  let '(id, newItem) := created in
  match truthy categoryId with
  | Some cid =>
      addCategoryHistory (mkCategoryHistory cid id "item_added" None (Some newItem) adminId)
  | None => mret tt
  end;;
  emitInventoryChange ev_create id (Some newItem);;
  mret (id, newItem).

(** Body of [for (const decision of itemDecisions)]. *)
Definition processDecision (env : Env) (adminId : string) (items : list ItemPayload)
    (l : ReviewLocals) (decision : ItemDecision) : Handler ReviewLocals :=
  let statuses :=
    <[pretty (dec_index decision) :=
        mkItemStatus (dec_status decision) (dec_reason decision)]> (itemStatuses l) in
  match dec_status decision with
  | item_approved =>
      match itemAt items (dec_index decision) with
      | None => internalError       (* itemData is undefined: TypeError *)
      | Some itemData =>
          newItem ← createApprovedItem env adminId itemData;
          mret (mkReviewLocals (push newItem (createdItems l)) (approvedCount l + 1)
                  (deniedCount l) statuses)
      end
  | item_denied =>
      mret (mkReviewLocals (createdItems l) (approvedCount l) (deniedCount l + 1) statuses)
  end.

(** Body of [for (let i = 0; i < items.length; i++)] of a blanket approval;
    [approvedCount] is not touched. *)
Definition approveAt (env : Env) (adminId : string)
    (l : ReviewLocals) (entry : nat * ItemPayload) : Handler ReviewLocals :=
  newItem ← createApprovedItem env adminId (snd entry);
  mret (mkReviewLocals (push newItem (createdItems l)) (approvedCount l) (deniedCount l)
          (<[pretty (Z.of_nat (fst entry)) := mkItemStatus item_approved None]>
             (itemStatuses l))).

(** Body of the all-denied loop. *)
Definition denyAt (l : ReviewLocals) (entry : nat * ItemPayload) : ReviewLocals :=
  mkReviewLocals (createdItems l) (approvedCount l) (deniedCount l)
    (<[pretty (Z.of_nat (fst entry)) := mkItemStatus item_denied None]> (itemStatuses l)).

Definition dquote : string := String (Ascii.ascii_of_nat 34%nat) EmptyString.

Definition reviewNotificationMessage (status : Status) (nitems : Z) (l : ReviewLocals)
    : string :=
  if bool_decide (status = approved ∨ approvedCount l = nitems) then
    match createdItems l with
    | [(_, it)] =>
        "Your item " +:+ dquote +:+ inv_itemName it +:+ dquote
        +:+ " has been approved and added to inventory!"
    | created =>
        "All " +:+ pretty (Z.of_nat (length created))
        +:+ " items have been approved and added to inventory!"
    end
  else if bool_decide (status = denied ∨ deniedCount l = nitems) then
    "Your request has been denied."
  else
    pretty (approvedCount l) +:+ " items approved, " +:+ pretty (deniedCount l)
    +:+ " items denied. Check the request for details.".

(** [approvedCount === items.length ? "approved" :
     deniedCount === items.length ? "denied" : "partial"]. *)
Definition finalStatusOf (approvedCount deniedCount nitems : Z) : Status :=
  if bool_decide (approvedCount = nitems) then approved
  else if bool_decide (deniedCount = nitems) then denied
  else partial.

Definition reviewInventoryRequest (env : Env) (sess : Session) (id : string)
    (input : ReviewInput) : Handler Response :=
  adminId ← requireRole [admin] sess;
  if negb (reviewRequestValid input) then validationError else
  let status := rv_status input in
  request ← getInventoryRequestById id;
  match request with
  | None => reply (json 404 (Message "Request not found"))
  | Some request =>
      let items := ireq_items request in
      let nitems := Z.of_nat (length items) in
      let locals0 := mkReviewLocals [] 0 0 ∅ in
      l ← match ireq_bulk request, rv_itemDecisions input with
          | true, Some itemDecisions =>
              (* Process per-item decisions *)
              l ← foldM (processDecision env adminId items) locals0 itemDecisions;
              (* Determine final status *)
              let finalStatus := finalStatusOf (approvedCount l) (deniedCount l) nitems in
              updateInventoryRequestStatus (env_now env) id finalStatus adminId
                (itemStatuses l);;
              mret l
          | _, _ =>
              (* Single item or approve/deny all *)
              l ← (if bool_decide (status = approved)
                   then foldM (approveAt env adminId) locals0 (imap pair items)
                   else mret (foldl denyAt locals0 (imap pair items)));
              updateInventoryRequestStatus (env_now env) id status adminId
                (itemStatuses l);;
              mret l
          end;
      (* Notify employee *)
      getUserById (ireq_employeeId request);;
      let notificationMessage := reviewNotificationMessage status nitems l in
      notification ← createNotification
        (mkNotification (ireq_employeeId request)
           (if bool_decide (0 < approvedCount l) then success else alert)
           (if bool_decide (0 < approvedCount l) then "Items Approved" else "Request Denied")
           notificationMessage
           (if bool_decide (0 < approvedCount l) then "/inventory" else "/requests"));
      emitNotification (ireq_employeeId request) (ntf_title notification);;
      emitRequestChange ev_update id status;;
      mret (json 200 (ReviewBody (approvedCount l) (deniedCount l) (createdItems l)))
  end.

(** ** Released-order routes: schemas *)

(** First issue [releasedItemPayloadSchema] raises on an item, if any. *)
Definition releasedItemIssue (item : ReleasedItemPayload) : option string :=
  if negb (bool_decide (0 < rel_quantity item)) then Some "Quantity must be positive"
  else if negb (nonEmpty (rel_unit item)) then Some "Unit is required"
  else if negb (nonEmpty (rel_particulars item))
       then Some "Particulars (item name) is required"
  else if negb (bool_decide (0 ≤ rel_unitCost item))
       then Some "Unit cost must be non-negative"
  else if negb (bool_decide (0 ≤ rel_amount item))
       then Some "Amount must be non-negative"
  else None.

Fixpoint releasedItemsIssue (items : list ReleasedItemPayload) : option string :=
  match items with
  | [] => None
  | item :: rest =>
      match releasedItemIssue item with
      | Some msg => Some msg
      | None => releasedItemsIssue rest
      end
  end.

(** Body of POST /api/released-orders/request. *)
Record CreateReleasedOrderInput := mkCreateReleasedOrderInput {
  cr_departmentOffice : string;
  cr_rsNo : option string;
  cr_isPartial : option bool;
  cr_items : list ReleasedItemPayload;
}.

(** [error.errors[0].message] of [createReleasedOrderRequestSchema.parse]. *)
Definition createReleasedOrderRequestIssue (data : CreateReleasedOrderInput)
    : option string :=
  if negb (nonEmpty (cr_departmentOffice data)) then Some "Department/Office is required"
  else match cr_items data with
       | [] => Some "At least one item is required"
       | items => releasedItemsIssue items
       end.

(** Body of POST /api/released-orders/generate. *)
Record GenerateInput := mkGenerateInput {
  gen_requestId : option string;
  gen_items : option (list ReleasedItemPayload);
  gen_departmentOffice : string;
  gen_rsNo : option string;
  gen_isPartial : option bool;
  gen_receivedBy : option string;
}.

(** [error.errors[0].message] of [generateReleasedOrderSchema.parse]. *)
Definition generateReleasedOrderIssue (data : GenerateInput) : option string :=
  match releasedItemsIssue (default [] (gen_items data)) with
  | Some msg => Some msg
  | None =>
      if negb (nonEmpty (gen_departmentOffice data))
      then Some "String must contain at least 1 character(s)"
      else None
  end.

(** [reviewReleasedOrderSchema.parse]. *)
Definition reviewReleasedOrderIssue (data : ReviewInput) : option string :=
  if bool_decide (rv_status data = pending) then Some "Invalid enum value" else None.

(** ** POST /api/released-orders/request *)

(** Body of the loop that checks the requested items against live stock. *)
Definition checkRequestedItem (item : ReleasedItemPayload) : Handler unit :=
  inventoryItem ← getInventoryItemById (rel_inventoryItemId item);
  match inventoryItem with
  | None => reply (json 400 (Message ("Item not found: " +:+ rel_particulars item)))
  | Some inventoryItem =>
      if bool_decide (inv_quantity inventoryItem < rel_quantity item) then
        reply (json 400 (Message
          ("Insufficient quantity for " +:+ rel_particulars item
           +:+ ". Available: " +:+ pretty (inv_quantity inventoryItem)
           +:+ ", Requested: " +:+ pretty (rel_quantity item))))
      else mret tt
  end.

Definition admins (allUsers : list (string * User)) : list (string * User) :=
  filter (λ u, user_role (snd u) = admin) allUsers.

Definition submitReleaseRequest (sess : Session) (data : CreateReleasedOrderInput)
    : Handler Response :=
  userId ← requireAuth sess;
  match createReleasedOrderRequestIssue data with
  | Some msg => reply (json 400 (Message msg))
  | None =>
      (* If admin, they don't need to create a request *)
      if bool_decide (sess_role sess = Some admin) then
        reply (json 400 (Message
          "Admins can directly generate released orders without approval"))
      else
        (* Validate all items exist and have sufficient quantity *)
        forEach (cr_items data) checkRequestedItem;;
        created ← createReleasedOrderRequest userId (cr_departmentOffice data)
                    (cr_rsNo data) (default false (cr_isPartial data)) (cr_items data);
        (* Notify all admins about the new request *)
        allUsers ← getAllUsers;
        forEach (admins allUsers) (λ a,
          createNotification
            (mkNotification (fst a) alert "New Released Order Request"
               ("Employee has submitted a released order request for "
                +:+ pretty (Z.of_nat (length (cr_items data))) +:+ " item(s)")
               "/process-released-orders");;
          emitNotification (fst a) "released_order_request");;
        emitRequestChange ev_create (fst created) pending;;
        mret (json 201 (ReleasedRequestBody (fst created) (snd created)))
  end.

(** ** POST /api/released-orders/requests/:id/review *)

(** The itemStatuses object the release review builds. *)
Definition releaseItemStatuses (data : ReviewInput) (items : list ReleasedItemPayload)
    : gmap string ItemStatus :=
  match rv_itemDecisions data with
  | Some itemDecisions =>
      foldl (λ statuses decision,
               <[pretty (dec_index decision) :=
                   mkItemStatus (dec_status decision) (dec_reason decision)]> statuses)
        ∅ itemDecisions
  | None =>
      (* All items get the same status *)
      foldl (λ statuses entry,
               <[pretty (Z.of_nat (fst entry)) :=
                   mkItemStatus (if bool_decide (rv_status data = denied)
                                 then item_denied else item_approved) None]> statuses)
        ∅ (imap pair items)
  end.

Definition statusText (st : Status) : string :=
  if bool_decide (st = approved) then "approved"
  else if bool_decide (st = partial) then "partially approved"
  else "denied".

(** [s.charAt(0).toUpperCase() + s.slice(1)] on the three status texts. *)
Definition capitalizedStatusText (st : Status) : string :=
  if bool_decide (st = approved) then "Approved"
  else if bool_decide (st = partial) then "Partially approved"
  else "Denied".

Definition reviewReleaseRequest (env : Env) (sess : Session) (id : string)
    (data : ReviewInput) : Handler Response :=
  adminId ← requireRole [admin] sess;
  match reviewReleasedOrderIssue data with
  | Some msg => reply (json 400 (Message msg))
  | None =>
      request ← getReleasedOrderRequestById id;
      match request with
      | None => reply (json 404 (Message "Request not found"))
      | Some request =>
          if bool_decide (rreq_status request ≠ pending) then
            reply (json 400 (Message "Request already processed"))
          else
            (* Build item statuses *)
            let statuses := releaseItemStatuses data (rreq_items request) in
            updateReleasedOrderRequestStatus (env_now env) id (rv_status data) adminId
              statuses;;
            (* Notify employee *)
            createNotification
              (mkNotification (rreq_employeeId request)
                 (if bool_decide (rv_status data = denied) then alert else success)
                 ("Released Order Request " +:+ capitalizedStatusText (rv_status data))
                 ("Your released order request has been " +:+ statusText (rv_status data)
                  +:+ ". " +:+
                  (if bool_decide (rv_status data ≠ denied)
                   then "You can now generate the report." else EmptyString))
                 "/released-orders");;
            emitNotification (rreq_employeeId request) "released_order_reviewed";;
            emitRequestChange ev_update id (rv_status data);;
            mret (json 200 (Message ("Request " +:+ statusText (rv_status data))))
      end
  end.

(** ** POST /api/released-orders/generate *)

(** What the first part of the handler settles: the items to release and
    the department, requisition slip and release-type flag of the report. *)
Record Resolved := mkResolved {
  itemsToRelease : list ReleasedItemPayload;
  res_departmentOffice : string;
  res_rsNo : option string;
  res_isPartial : bool;
}.

(** [allItems.filter((_, idx) => itemStatuses[idx.toString()]?.status === "approved")]. *)
Definition approvedItems (allItems : list ReleasedItemPayload)
    (statuses : gmap string ItemStatus) : list ReleasedItemPayload :=
  snd <$> filter (λ entry : nat * ReleasedItemPayload,
                    ist_status <$> statuses !! pretty (Z.of_nat (fst entry))
                    = Some item_approved)
            (imap pair allItems).

Definition resolveItems (userId : string) (role : option Role) (data : GenerateInput)
    : Handler Resolved :=
  if bool_decide (role = Some employee) then
    (* If employee, must have an approved request *)
    match truthy (gen_requestId data) with
    | None => reply (json 400 (Message "Request ID is required for employees"))
    | Some requestId =>
        request ← getReleasedOrderRequestById requestId;
        match request with
        | None => reply (json 404 (Message "Request not found"))
        | Some request =>
            if bool_decide (rreq_employeeId request ≠ userId) then
              reply (json 403 (Message "Not authorized to access this request"))
            else if bool_decide (rreq_status request ≠ approved
                                 ∧ rreq_status request ≠ partial) then
              reply (json 400 (Message
                "Request must be approved before generating report"))
            else
              (* Get approved items only *)
              mret (mkResolved
                      (approvedItems (rreq_items request)
                         (default ∅ (rreq_itemStatuses request)))
                      (rreq_departmentOffice request)
                      (truthy (rreq_rsNo request))
                      (rreq_isPartial request))
        end
    end
  else
    (* Admin can generate directly *)
    match gen_items data with
    | None | Some [] => reply (json 400 (Message "Items are required"))
    | Some items =>
        mret (mkResolved items (gen_departmentOffice data) (gen_rsNo data)
                (default false (gen_isPartial data)))
    end.

(** Body of the first loop: validate. *)
Definition validateItem (item : ReleasedItemPayload) : Handler unit :=
  inventoryItem ← getInventoryItemById (rel_inventoryItemId item);
  match inventoryItem with
  | None => reply (json 400 (Message ("Item not found: " +:+ rel_particulars item)))
  | Some inventoryItem =>
      if bool_decide (inv_quantity inventoryItem < rel_quantity item) then
        reply (json 400 (Message
          ("Insufficient quantity for " +:+ rel_particulars item
           +:+ ". Available: " +:+ pretty (inv_quantity inventoryItem))))
      else mret tt
  end.

(** Body of the second loop: deduct. *)
Definition deductItem (item : ReleasedItemPayload) : Handler unit :=
  inventoryItem ← getInventoryItemById (rel_inventoryItemId item);
  match inventoryItem with
  | Some inventoryItem =>
      let newQuantity := inv_quantity inventoryItem - rel_quantity item in
      let newAmount := newQuantity * inv_unitCost inventoryItem in
      updateInventoryItem (rel_inventoryItemId item)
        (mkInventoryUpdate None None (Some newQuantity) None None None None None
           (Some newAmount) None);;
      (* Emit inventory change for real-time updates *)
      updated ← getInventoryItemById (rel_inventoryItemId item);
      emitInventoryChange ev_update (rel_inventoryItemId item) updated
  | None => mret tt
  end.

(** [String(n).padStart(4, '0')]. *)
Definition padStart4 (digits : string) : string :=
  String.concat EmptyString (replicate (4 - String.length digits)%nat "0") +:+ digits.

Definition makeSroNo (env : Env) : string :=
  "SRO-" +:+ pretty (env_year env) +:+ "-" +:+ padStart4 (pretty (env_rand env)).

(** [itemsToRelease.reduce((sum, item) => sum + Number(item.amount), 0)]. *)
Definition totalAmountOf (items : list ReleasedItemPayload) : Z :=
  foldl (λ sum item, sum + rel_amount item) 0 items.

Definition generateReleasedOrder (env : Env) (sess : Session) (data : GenerateInput)
    : Handler Response :=
  userId ← requireAuth sess;
  match generateReleasedOrderIssue data with
  | Some msg => reply (json 400 (Message msg))
  | None =>
      resolved ← resolveItems userId (sess_role sess) data;
      (* Validate and deduct inventory *)
      forEach (itemsToRelease resolved) validateItem;;
      (* Deduct from inventory *)
      forEach (itemsToRelease resolved) deductItem;;
      (* Generate SRO number *)
      let sroNo := makeSroNo env in
      (* Calculate total amount *)
      let totalAmount := totalAmountOf (itemsToRelease resolved) in
      (* Create report *)
      report ← createReleasedOrderReport
        (mkReleasedOrderReport sroNo (res_rsNo resolved) (res_departmentOffice resolved)
           (res_isPartial resolved) (itemsToRelease resolved) totalAmount userId
           (gen_receivedBy data));
      mret (json 201 (ReportBody report))
  end.

(** * Vocabulary of the properties *)

(** The validation of [item] fails on store [s]: the referenced
    InventoryItem is not found, or its live quantity is less than the
    requested one. *)
Definition validationFails (s : Store) (item : ReleasedItemPayload) : Prop :=
  inventoryItems s !! rel_inventoryItemId item = None
  ∨ ∃ inv, inventoryItems s !! rel_inventoryItemId item = Some inv
           ∧ inv_quantity inv < rel_quantity item.

(** The live stock of [s] covers [item]. *)
Definition inStock (s : Store) (item : ReleasedItemPayload) : Prop :=
  ∃ inv, inventoryItems s !! rel_inventoryItemId item = Some inv
         ∧ rel_quantity item ≤ inv_quantity inv.

(** What one round of the deduct loop does to the store. *)
Definition deductStore (item : ReleasedItemPayload) (s : Store) : Store :=
  match inventoryItems s !! rel_inventoryItemId item with
  | Some inv =>
      let inv' := applyUpdate
        (mkInventoryUpdate None None (Some (inv_quantity inv - rel_quantity item))
           None None None None None
           (Some ((inv_quantity inv - rel_quantity item) * inv_unitCost inv)) None) inv in
      set_emitted (push (InventoryChange ev_update (rel_inventoryItemId item) (Some inv')))
        (set_inventoryItems (insert (rel_inventoryItemId item) inv') s)
  | None => s
  end.

Definition deductAll (items : list ReleasedItemPayload) (s : Store) : Store :=
  foldl (λ s item, deductStore item s) s items.

(** The row a round of the deduct loop writes for [item] fits its
    columns. *)
Definition deductFits (s : Store) (item : ReleasedItemPayload) : bool :=
  match inventoryItems s !! rel_inventoryItemId item with
  | Some inv =>
      int4 (inv_quantity inv - rel_quantity item)
      && numeric12_2 ((inv_quantity inv - rel_quantity item) * inv_unitCost inv)
  | None => true
  end.

(** So does every row the deduct loop writes for [items], one round after
    the other. *)
Fixpoint deductsFit (items : list ReleasedItemPayload) (s : Store) : bool :=
  match items with
  | [] => true
  | item :: rest => deductFits s item && deductsFit rest (deductStore item s)
  end.

(** The values a row takes from the payload, and the amount computed from
    them, fit their columns. *)
Definition payloadFits (itemData : ItemPayload) : bool :=
  int4 (pay_quantity itemData) && numeric12_2 (pay_unitCost itemData)
  && numeric12_2 (pay_quantity itemData * pay_unitCost itemData).

(** The report a successful Generate persists. *)
Definition reportOf (env : Env) (userId : string) (data : GenerateInput)
    (resolved : Resolved) : ReleasedOrderReport :=
  mkReleasedOrderReport (makeSroNo env) (res_rsNo resolved)
    (res_departmentOffice resolved) (res_isPartial resolved) (itemsToRelease resolved)
    (totalAmountOf (itemsToRelease resolved)) userId (gen_receivedBy data).


(** Total quantity [items] request of the InventoryItem [id]. *)
Definition requested (id : string) (items : list ReleasedItemPayload) : Z :=
  foldr (λ item acc, if decide (rel_inventoryItemId item = id)
                     then rel_quantity item + acc else acc) 0 items.

(** The derived-amount invariant of an InventoryItem. *)
Definition amountConsistent (inv : InventoryItem) : Prop :=
  inv_amount inv = inv_quantity inv * inv_unitCost inv.

(** * Sample data

    A store with one admin, one employee and one InventoryItem of ten
    pieces at 2.00 each, used by the concrete runs below. *)

Definition paper : InventoryItem :=
  mkInventoryItem "ACME" 0 10 "pcs" "Bond paper" None "Room 1" 200 2000 None.

Definition sampleUsers : gmap string User :=
  <["u1" := mkUser "Ann" "ann@gso" admin true 100]>
    (<["u2" := mkUser "Bob" "bob@gso" employee true 200]> ∅).

Definition sampleStore : Store :=
  mkStore sampleUsers [] (<["i1" := paper]> ∅) [] ∅ ∅ [] [] [] [].

Definition sampleEnv : Env := mkEnv 1000 2025 42.

Definition adminSession : Session := mkSession (Some "u1") (Some admin).
Definition employeeSession : Session := mkSession (Some "u2") (Some employee).

(** A release line for [n] pieces of the paper item. *)
Definition paperLine (n : Z) : ReleasedItemPayload :=
  mkReleasedItemPayload "i1" n "pcs" "Bond paper" 200 (n * 200) None.

(** Admin-direct Generate naming the same InventoryItem twice, six pieces
    each time. *)
Definition twiceSix : GenerateInput :=
  mkGenerateInput None (Some [paperLine 6; paperLine 6]) "GSO" None None None.

(** Admin-direct Generate of four pieces and then twenty. *)
Definition fourThenTwenty : GenerateInput :=
  mkGenerateInput None (Some [paperLine 4; paperLine 20]) "GSO" None None None.

(** A release request of the employee for four pieces, approved. *)
Definition approvedRelease : ReleasedOrderRequest :=
  mkReleasedOrderRequest "u2" "Registrar" (Some "RS-7") true [paperLine 4]
    (Some (<["0" := mkItemStatus item_approved None]> ∅)) approved (Some "u1") (Some 900).

Definition storeWithApprovedRelease : Store :=
  set_releasedOrderRequests (insert "q1" approvedRelease) sampleStore.

(** The employee's Generate call for that request; the department, slip
    number and release type it carries differ from the stored ones. *)
Definition generateForRequest : GenerateInput :=
  mkGenerateInput (Some "q1") None "Somewhere else" (Some "RS-999") (Some false) None.

(** The store the employee's first Generate call for the request leaves,
    and the one a second, identical call leaves after it. *)
Definition afterFirstGenerate : Store * Response :=
  respond (generateReleasedOrder sampleEnv employeeSession generateForRequest)
    storeWithApprovedRelease.

Definition afterSecondGenerate : Store * Response :=
  respond (generateReleasedOrder sampleEnv employeeSession generateForRequest)
    afterFirstGenerate.1.

(** Five pens at 10.00 each, sent with an amount of 999.00. *)
Definition pens : ItemPayload :=
  mkItemPayload "ACME" 5 "pcs" "Pen" "Room 2" 1000 99900 None None None.

(** The row the admin direct add persists for that payload. *)
Definition persistedPens : InventoryItem :=
  mkInventoryItem "ACME" 1000 5 "pcs" "Pen" None "Room 2" 1000 99900 None.

(** The row the approval of a request for that payload persists. *)
Definition approvedPens : InventoryItem :=
  mkInventoryItem "ACME" 1000 5 "pcs" "Pen" None "Room 2" 1000 5000 None.

(** A single-item request of the employee for the pens, still pending. *)
Definition pensRequest : InventoryRequest :=
  mkInventoryRequest "u2" false [pens] None pending None None.

Definition storeWithPensRequest : Store :=
  set_inventoryRequests (insert "r1" pensRequest) sampleStore.

Definition approveAll : ReviewInput := mkReviewInput approved None.

Definition afterFirstReview : Store * Response :=
  respond (reviewInventoryRequest sampleEnv adminSession "r1" approveAll)
    storeWithPensRequest.

Definition afterSecondReview : Store * Response :=
  respond (reviewInventoryRequest sampleEnv adminSession "r1" approveAll)
    afterFirstReview.1.

(** A pending release request of the employee with two lines. *)
Definition pendingRelease : ReleasedOrderRequest :=
  mkReleasedOrderRequest "u2" "Registrar" None false [paperLine 4; paperLine 3]
    None pending None None.

Definition storeWithPendingRelease : Store :=
  set_releasedOrderRequests (insert "q2" pendingRelease) sampleStore.

(** A review that denies both lines and yet carries the blanket status
    approved. *)
Definition denyBothSayApproved : ReviewInput :=
  mkReviewInput approved
    (Some [mkDecision 0 item_denied None; mkDecision 1 item_denied None]).

(** A review that decides the first line only. *)
Definition decideFirstOnly : ReviewInput :=
  mkReviewInput partial (Some [mkDecision 0 item_approved None]).

(** A bulk request of three items, pending. *)
Definition bulkRequest : InventoryRequest :=
  mkInventoryRequest "u2" true [pens; pens; pens] None pending None None.

Definition storeWithBulkRequest : Store :=
  set_inventoryRequests (insert "r2" bulkRequest) sampleStore.

(** The requested quantity of [item] exceeds the live quantity on [s]. *)
Definition shortOf (s : Store) (item : ReleasedItemPayload) : Prop :=
  ∃ inv, inventoryItems s !! rel_inventoryItemId item = Some inv
         ∧ inv_quantity inv < rel_quantity item.

(** The two refusals of the submission pre-check, as the handler words
    them. *)
Definition insufficientStock (item : ReleasedItemPayload) (available : Z) : Response :=
  json 400 (Message
    ("Insufficient quantity for " +:+ rel_particulars item
     +:+ ". Available: " +:+ pretty available
     +:+ ", Requested: " +:+ pretty (rel_quantity item))).

Definition itemNotFound (item : ReleasedItemPayload) : Response :=
  json 400 (Message ("Item not found: " +:+ rel_particulars item)).

(** A line for an InventoryItem that does not exist. *)
Definition ghostLine : ReleasedItemPayload :=
  mkReleasedItemPayload "nope" 1 "pcs" "Ghost" 100 100 None.

(** A submission whose first line names a missing item and whose second
    line asks for twenty pieces of the paper, of which there are ten. *)
Definition ghostThenTwenty : CreateReleasedOrderInput :=
  mkCreateReleasedOrderInput "Registrar" None None [ghostLine; paperLine 20].

(** A submission of five and then twenty pieces of the paper. *)
Definition fiveThenTwenty : CreateReleasedOrderInput :=
  mkCreateReleasedOrderInput "Registrar" None None [paperLine 5; paperLine 20].

(** The keys of the itemStatuses object: the decided indices of a per-item
    review, and the indices of all [n] items. *)
Definition decidedKeys (decisions : list ItemDecision) : gset string :=
  list_to_set ((λ d, pretty (dec_index d)) <$> decisions).

Definition allKeys (n : nat) : gset string :=
  list_to_set ((λ i : nat, pretty (Z.of_nat i)) <$> seq 0 n).

(** The keys a review of a request with [n] items writes, given the
    decisions it goes by ([None]: the blanket status). *)
Definition reviewedKeys (decisions : option (list ItemDecision)) (n : nat) : gset string :=
  match decisions with
  | Some ds => decidedKeys ds
  | None => allKeys n
  end.

(** The decisions the inventory review goes by: those of the call when the
    request is a bulk request, none otherwise. *)
Definition decisionsUsed (request : InventoryRequest) (input : ReviewInput)
    : option (list ItemDecision) :=
  if ireq_bulk request then rv_itemDecisions input else None.

(** The admin's review of the bulk request that decides its first item
    only. *)
Definition afterFirstOnlyReview : Store * Response :=
  respond (reviewInventoryRequest sampleEnv adminSession "r2" decideFirstOnly)
    storeWithBulkRequest.

(** How many of the decisions have the outcome [o]. *)
Definition countOutcome (o : ItemOutcome) (decisions : list ItemDecision) : Z :=
  Z.of_nat (length (filter (λ d, dec_status d = o) decisions)).

(** The status a completed inventory review persists: derived from the
    tally of the decisions it goes by, or the blanket status of the call. *)
Definition persistedStatus (request : InventoryRequest) (input : ReviewInput) : Status :=
  match decisionsUsed request input with
  | Some ds =>
      finalStatusOf (countOutcome item_approved ds) (countOutcome item_denied ds)
        (Z.of_nat (length (ireq_items request)))
  | None => rv_status input
  end.

(** The type of the notification a completed inventory review sends. *)
Definition notifiedType (request : InventoryRequest) (input : ReviewInput)
    : NotificationType :=
  match decisionsUsed request input with
  | Some ds => if bool_decide (0 < countOutcome item_approved ds) then success else alert
  | None => alert
  end.

(** What the per-item loop leaves in the local variables when it has run
    from [l] through [decisions]: an entry per decision, and the tallies. *)
Definition tallied (l : ReviewLocals) (decisions : list ItemDecision) (l' : ReviewLocals)
    : Prop :=
  itemStatuses l'
  = foldl (λ statuses decision,
             <[pretty (dec_index decision) :=
                 mkItemStatus (dec_status decision) (dec_reason decision)]> statuses)
      (itemStatuses l) decisions
  ∧ approvedCount l' = approvedCount l + countOutcome item_approved decisions
  ∧ deniedCount l' = deniedCount l + countOutcome item_denied decisions.

(** An update of the paper item that sets the amount alone. *)
Definition amountOnly : InventoryUpdate :=
  mkInventoryUpdate None None None None None None None None (Some 12300) None.

(** * The other routes of server/routes.ts

    The handlers below answer a successful call with [res.json(value)];
    the value is what the handler continues with, and an early
    [return res.status(..)] is a reply, as before. *)

(** ** [class DbStorage]: the operations these routes add *)

(** [DbStorage.createInventoryRequest]: the insert into
    [inventory_requests]; the columns the call leaves out take their
    defaults (status pending, no itemStatuses, no reviewer).  The insert
    throws when the employee is not there. *)
Definition createInventoryRequest (employeeId : string) (bulk : bool)
    (items : list ItemPayload) : Handler (string * InventoryRequest) :=
  λ s, if negb (hasUser employeeId s) then dbError s else
       let id := fresh (dom (inventoryRequests s)) in
       let r := mkInventoryRequest employeeId bulk items None pending None None in
       (set_inventoryRequests (insert id r) s, inr (id, r)).

(** [DbStorage.getAllInventoryItems]: every row of [inventory_items].
    The source orders the rows by creation time; the rows here come in
    the order of the map, and the caller below only counts and sums
    them. *)
Definition getAllInventoryItems : Handler (list (string * InventoryItem)) :=
  gets (λ s, map_to_list (inventoryItems s)).

(** [DbStorage.getAllCategories]: every row of [categories] (sorted by
    name in the source; the caller below only counts them). *)
Definition getAllCategories : Handler (list Category) := gets categories.

(** [DbStorage.getPendingInventoryRequests]: the rows of
    [inventory_requests] whose status is pending (by creation time in the
    source; the caller below only counts them). *)
Definition getPendingInventoryRequests : Handler (list (string * InventoryRequest)) :=
  gets (λ s, filter (λ r, ireq_status r.2 = pending) (map_to_list (inventoryRequests s))).

(** ** POST /api/categories *)

(** [name] is the name of a body that passes [insertCategorySchema]; a
    body without one is answered 400 before the role is looked at. *)
Definition postCategory (sess : Session) (name : string) : Handler Category :=
  requireAuth sess;;
  (* Admins can create immediately, employees need approval *)
  if bool_decide (sess_role sess ≠ Some admin) then
    reply (json 403 (Message "Only admins can create categories directly"))
  else
    existing ← getCategoryByName name;
    match existing with
    | Some _ => reply (json 400 (Message "Category already exists"))
    | None => createCategory name
    end.

(** ** POST /api/inventory/bulk: admin bulk add *)

(** Body of [for (const itemData of items)]; [createdItems] is the local
    array the loop pushes to. *)
Definition addBulkItem (env : Env) (userId : string) (actor : option User)
    (createdItems : list (string * InventoryItem)) (itemData : ItemPayload)
    : Handler (list (string * InventoryItem)) :=
  if negb (itemPayloadValid itemData) then validationError else
  (* Get or create category *)
  categoryId ← resolveCategory (pay_categoryName itemData);
  let amount := pay_quantity itemData * pay_unitCost itemData in
  created ← createInventoryItem
    (mkInventoryItem (pay_supplier itemData) (env_now env) (pay_quantity itemData)
       (pay_unitOfMeasure itemData) (pay_itemName itemData) categoryId
       (pay_location itemData) (pay_unitCost itemData) amount
       (truthy (pay_remarks itemData)));
  let '(id, item) := created in
  (* Log to category history *)
  match truthy categoryId with
  | Some cid =>
      addCategoryHistory (mkCategoryHistory cid id "item_added" None (Some item) userId)
  | None => mret tt
  end;;
  (* Log audit event *)
  match actor with
  | Some a =>
      logAuditEvent (mkAuditEvent id "create" userId (user_name a, user_email a)
                       None (Some item))
  | None => mret tt
  end;;
  emitInventoryChange ev_create id (Some item);;
  mret (push (id, item) createdItems).

(** [items] is [None] when the body carries no array. *)
Definition postInventoryBulk (env : Env) (sess : Session)
    (items : option (list ItemPayload))
    : Handler (list (string * InventoryItem) * Z) :=
  userId ← requireRole [admin] sess;
  match items with
  | None | Some [] => reply (json 400 (Message "Items array is required"))
  | Some items =>
      actor ← getUserById userId;
      createdItems ← foldM (addBulkItem env userId actor) [] items;
      mret (createdItems, Z.of_nat (length createdItems))
  end.

(** ** POST /api/requests/single and /api/requests/bulk: employee submissions *)

(** [employee?.name || 'An employee']. *)
Definition employeeLabel (employee : option User) : string :=
  match employee with
  | Some u => if nonEmpty (user_name u) then user_name u else "An employee"
  | None => "An employee"
  end.

Definition postRequestSingle (sess : Session) (itemData : ItemPayload)
    : Handler (string * InventoryRequest) :=
  userId ← requireAuth sess;
  if negb (itemPayloadValid itemData) then validationError else
  request ← createInventoryRequest userId false [itemData];
  (* Notify all admins *)
  allUsers ← getAllUsers;
  employee ← getUserById userId;
  forEach (admins allUsers) (λ a,
    notification ← createNotification
      (mkNotification a.1 alert "New Item Request"
         (employeeLabel employee +:+ " submitted a new item: " +:+ pay_itemName itemData)
         "/requests");
    emitNotification a.1 (ntf_title notification));;
  emitRequestChange ev_create request.1 pending;;
  mret request.

(** [{ ...item, supplier: item.supplier || supplier }]; an absent supplier
    and an empty one are both the empty string here, and both fail the
    schema. *)
Definition withSharedSupplier (supplier : option string) (item : ItemPayload)
    : ItemPayload :=
  mkItemPayload
    (if nonEmpty (pay_supplier item) then pay_supplier item
     else default EmptyString supplier)
    (pay_quantity item) (pay_unitOfMeasure item) (pay_itemName item)
    (pay_location item) (pay_unitCost item) (pay_amount item) (pay_remarks item)
    (pay_categoryId item) (pay_categoryName item).

Definition postRequestBulk (sess : Session) (items : option (list ItemPayload))
    (supplier : option string) : Handler (string * InventoryRequest) :=
  userId ← requireAuth sess;
  match items with
  | None | Some [] => reply (json 400 (Message "Items array is required"))
  | Some items =>
      (* Validate each item and apply shared supplier if provided *)
      let validatedItems := withSharedSupplier supplier <$> items in
      if negb (forallb itemPayloadValid validatedItems) then validationError else
      request ← createInventoryRequest userId true validatedItems;
      (* Notify all admins *)
      allUsers ← getAllUsers;
      employee ← getUserById userId;
      forEach (admins allUsers) (λ a,
        notification ← createNotification
          (mkNotification a.1 alert "New Bulk Item Request"
             (employeeLabel employee +:+ " submitted "
              +:+ pretty (Z.of_nat (length validatedItems)) +:+ " items for approval")
             "/requests");
        emitNotification a.1 (ntf_title notification));;
      emitRequestChange ev_create request.1 pending;;
      mret request
  end.

(** ** POST /api/released-orders/notify-insufficient *)

(** The two quantities are read from the body unchecked; they are taken
    to be the integers the client sends, which the template literal
    prints in decimal. *)
Definition notifyInsufficient (sess : Session) (itemName : string)
    (requestedQty availableQty : Z) : Handler Response :=
  userId ← requireAuth sess;
  user ← getUserById userId;
  match user with
  | None => reply (json 404 (Message "User not found"))
  | Some user =>
      (* Notify all admins *)
      allUsers ← getAllUsers;
      forEach (admins allUsers) (λ a,
        createNotification
          (mkNotification a.1 alert "Insufficient Stock Alert"
             (user_name user +:+ " requested " +:+ pretty requestedQty +:+ " of "
              +:+ dquote +:+ itemName +:+ dquote +:+ " but only "
              +:+ pretty availableQty +:+ " available.")
             "/manage-inventory");;
        emitNotification a.1 "insufficient_stock");;
      mret (json 200 (Message "Admin notified about insufficient stock"))
  end.

(** ** GET /api/stats/dashboard *)

Record DashboardStats := mkDashboardStats {
  totalItems : Z;
  totalQuantity : Z;
  totalValue : Z;
  totalCategories : Z;
  totalUsers : Z;
  pendingRequests : Z;
}.

Definition getDashboardStats (sess : Session) : Handler DashboardStats :=
  requireAuth sess;;
  allItems ← getAllInventoryItems;
  allCategories ← getAllCategories;
  allUsers ← getAllUsers;
  pendingRequests ← getPendingInventoryRequests;
  mret (mkDashboardStats
          (Z.of_nat (length allItems))
          (foldl (λ sum item, sum + inv_quantity item.2) 0 allItems)
          (foldl (λ sum item, sum + inv_amount item.2) 0 allItems)
          (Z.of_nat (length allCategories))
          (Z.of_nat (length allUsers))
          (Z.of_nat (length pendingRequests))).

(** * Vocabulary of the further properties *)

(** [m] keeps the property [P] of the store, however it ends. *)
Definition preserves {A} (P : Store → Prop) (m : Handler A) : Prop :=
  ∀ s s' x, P s → m s = (s', x) → P s'.

(** Whenever [m] ends in a reply, the reply satisfies [P]. *)
Definition repliesWith {A} (P : Response → Prop) (m : Handler A) : Prop :=
  ∀ s s' r, m s = (s', inl r) → P r.

(** Whenever [m] ends in a reply, the reply is a refusal or a failure. *)
Definition neverRepliesOk {A} (m : Handler A) : Prop :=
  repliesWith (λ r, code r ≠ 200 ∧ code r ≠ 201) m.

(** The tables a review of an inventory request reads but never writes. *)
Definition sameUsersAndRequests (s0 s : Store) : Prop :=
  users s = users s0
  ∧ inventoryRequests s = inventoryRequests s0
  ∧ notifications s = notifications s0.

(** Category names are unique (the [unique()] constraint of the column). *)
Definition uniqueCategoryNames (s : Store) : Prop :=
  NoDup (cat_name <$> categories s).



(** The dashboard figures of a store. *)
Definition dashboardOf (s : Store) : DashboardStats :=
  mkDashboardStats
    (Z.of_nat (length (map_to_list (inventoryItems s))))
    (foldl (λ sum item, sum + inv_quantity item.2) 0 (map_to_list (inventoryItems s)))
    (foldl (λ sum item, sum + inv_amount item.2) 0 (map_to_list (inventoryItems s)))
    (Z.of_nat (length (categories s)))
    (Z.of_nat (length (approvedUsers s)))
    (Z.of_nat (length (filter (λ r, ireq_status r.2 = pending)
                         (map_to_list (inventoryRequests s))))).

(** Total quantity of the lines [items]. *)
Definition totalRequested (items : list ReleasedItemPayload) : Z :=
  foldr (λ item acc, rel_quantity item + acc) 0 items.

(** The ledger of [s] is [ledger]. *)
Definition ledgerIs (ledger : gmap string InventoryItem) (s : Store) : Prop :=
  inventoryItems s = ledger.

(** ** The routes as calls

    [registerRoutes] binds each handler to its route; a call names the
    route and carries what the handler reads from the request, the session
    and the clock. *)
Inductive Route :=
  | PostCategories (sess : Session) (name : string)
  | PostInventory (env : Env) (sess : Session) (validated : ItemPayload)
  | PostInventoryBulk (env : Env) (sess : Session) (items : option (list ItemPayload))
  | PatchInventory (sess : Session) (id : string) (data : InventoryUpdate)
  | PostRequestsSingle (sess : Session) (itemData : ItemPayload)
  | PostRequestsBulk (sess : Session) (items : option (list ItemPayload))
      (supplier : option string)
  | PatchRequests (env : Env) (sess : Session) (id : string) (input : ReviewInput)
  | PostReleasedOrdersRequest (sess : Session) (data : CreateReleasedOrderInput)
  | PostReleasedOrdersReview (env : Env) (sess : Session) (id : string)
      (data : ReviewInput)
  | PostReleasedOrdersGenerate (env : Env) (sess : Session) (data : GenerateInput)
  | PostNotifyInsufficient (sess : Session) (itemName : string)
      (requestedQty availableQty : Z)
  | GetStatsDashboard (sess : Session).

(** The store a call leaves behind. *)
Definition storeAfter (call : Route) (s : Store) : Store :=
  match call with
  | PostCategories sess name => (postCategory sess name s).1
  | PostInventory env sess validated => (postInventory env sess validated s).1
  | PostInventoryBulk env sess items => (postInventoryBulk env sess items s).1
  | PatchInventory sess id data => (patchInventory sess id data s).1
  | PostRequestsSingle sess itemData => (postRequestSingle sess itemData s).1
  | PostRequestsBulk sess items supplier => (postRequestBulk sess items supplier s).1
  | PatchRequests env sess id input => (reviewInventoryRequest env sess id input s).1
  | PostReleasedOrdersRequest sess data => (submitReleaseRequest sess data s).1
  | PostReleasedOrdersReview env sess id data =>
      (reviewReleaseRequest env sess id data s).1
  | PostReleasedOrdersGenerate env sess data => (generateReleasedOrder env sess data s).1
  | PostNotifyInsufficient sess itemName requestedQty availableQty =>
      (notifyInsufficient sess itemName requestedQty availableQty s).1
  | GetStatsDashboard sess => (getDashboardStats sess s).1
  end.

(** The store after a sequence of calls, the first call first. *)
Definition storeAfterAll (calls : list Route) (s : Store) : Store :=
  foldl (λ s call, storeAfter call s) s calls.

(** The calls that cannot write the ledger. *)
Definition readsLedgerOnly (call : Route) : bool :=
  match call with
  | PostCategories _ _ | PostRequestsSingle _ _ | PostRequestsBulk _ _ _
  | PostReleasedOrdersRequest _ _ | PostReleasedOrdersReview _ _ _ _
  | PostNotifyInsufficient _ _ _ _ | GetStatsDashboard _ => true
  | _ => false
  end.

(** The four calls that write the unit cost or the amount of an
    InventoryItem from what a request body carries: the admin's add, bulk
    add and update, and the inventory review, which creates the items of
    the request it approves. *)
Definition takesMoneyFromClient (call : Route) : bool :=
  match call with
  | PostInventory _ _ _ | PostInventoryBulk _ _ _ | PatchInventory _ _ _
  | PatchRequests _ _ _ _ => true
  | _ => false
  end.

(** Every row of the ledger has [amount = quantity * unitCost]. *)
Definition amountsConsistent (s : Store) : Prop :=
  map_Forall (λ _, amountConsistent) (inventoryItems s).

(** The release request [id] of [s] is the row [r]. *)
Definition releaseRequestIs (id : string) (r : ReleasedOrderRequest) (s : Store) : Prop :=
  releasedOrderRequests s !! id = Some r.

(** The inventory request [id] of [s] has been reviewed. *)
Definition inventoryRequestReviewed (id : string) (s : Store) : Prop :=
  ∃ r, inventoryRequests s !! id = Some r ∧ ireq_status r ≠ pending.

(** The four logs of [s] extend those of [s0]. *)
Definition logsExtend (s0 s : Store) : Prop :=
  releasedOrderReports s0 `prefix_of` releasedOrderReports s
  ∧ notifications s0 `prefix_of` notifications s
  ∧ auditEvents s0 `prefix_of` auditEvents s
  ∧ categoryHistory s0 `prefix_of` categoryHistory s.

(** The session a call is made with. *)
Definition sessionOf (call : Route) : Session :=
  match call with
  | PostCategories sess _ | PostInventory _ sess _ | PostInventoryBulk _ sess _
  | PatchInventory sess _ _ | PostRequestsSingle sess _ | PostRequestsBulk sess _ _
  | PatchRequests _ sess _ _ | PostReleasedOrdersRequest sess _
  | PostReleasedOrdersReview _ sess _ _ | PostReleasedOrdersGenerate _ sess _
  | PostNotifyInsufficient sess _ _ _ | GetStatsDashboard sess => sess
  end.

(** The status a handler answers with: that of its early reply, or the
    200 of the [res.json] it ends with. *)
Definition statusOf {A} (x : Response + A) : Z :=
  match x with
  | inl r => code r
  | inr _ => 200
  end.

(** The status code a call is answered with. *)
Definition statusCode (call : Route) (s : Store) : Z :=
  match call with
  | PostCategories sess name => statusOf (postCategory sess name s).2
  | PostInventory env sess validated =>
      code (respond (postInventory env sess validated) s).2
  | PostInventoryBulk env sess items => statusOf (postInventoryBulk env sess items s).2
  | PatchInventory sess id data => code (respond (patchInventory sess id data) s).2
  | PostRequestsSingle sess itemData => statusOf (postRequestSingle sess itemData s).2
  | PostRequestsBulk sess items supplier =>
      statusOf (postRequestBulk sess items supplier s).2
  | PatchRequests env sess id input =>
      code (respond (reviewInventoryRequest env sess id input) s).2
  | PostReleasedOrdersRequest sess data => code (respond (submitReleaseRequest sess data) s).2
  | PostReleasedOrdersReview env sess id data =>
      code (respond (reviewReleaseRequest env sess id data) s).2
  | PostReleasedOrdersGenerate env sess data =>
      code (respond (generateReleasedOrder env sess data) s).2
  | PostNotifyInsufficient sess itemName requestedQty availableQty =>
      code (respond (notifyInsufficient sess itemName requestedQty availableQty) s).2
  | GetStatsDashboard sess => statusOf (getDashboardStats sess s).2
  end.

(** The routes registered with [requireRole(["admin"])], and the category
    route, which tests the role of the session itself. *)
Definition adminOnly (call : Route) : bool :=
  match call with
  | PostCategories _ _ | PostInventory _ _ _ | PostInventoryBulk _ _ _
  | PatchInventory _ _ _ | PatchRequests _ _ _ _ | PostReleasedOrdersReview _ _ _ _ => true
  | _ => false
  end.

(** [row] is a row created from the payload [itemData]: it has the
    supplier, the quantity, the unit of measure, the name and the
    location of the payload. *)
Definition addedFrom (itemData : ItemPayload) (row : string * InventoryItem) : Prop :=
  inv_supplier row.2 = pay_supplier itemData
  ∧ inv_quantity row.2 = pay_quantity itemData
  ∧ inv_unitOfMeasure row.2 = pay_unitOfMeasure itemData
  ∧ inv_itemName row.2 = pay_itemName itemData
  ∧ inv_location row.2 = pay_location itemData.

(** The ledger of [s'] is that of [s] with the rows [created] added, each
    under an id of its own that was not in use. *)
Definition ledgerGrewBy (s s' : Store) (created : list (string * InventoryItem)) : Prop :=
  NoDup created.*1
  ∧ Forall (λ row, inventoryItems s !! row.1 = None
                   ∧ inventoryItems s' !! row.1 = Some row.2) created
  ∧ ∀ id, id ∉ created.*1 → inventoryItems s' !! id = inventoryItems s !! id.



(** The payloads a list of per-item decisions approves, in the order of
    the decisions. *)
Definition approvedBy (items : list ItemPayload) (decisions : list ItemDecision)
    : list ItemPayload :=
  omap (λ d, if bool_decide (dec_status d = item_approved)
             then itemAt items (dec_index d) else None) decisions.

(** The payloads a review approves: those its decisions approve when it
    goes by decisions, all of them under the blanket status approved, none
    under another blanket status. *)
Definition approvedPayloads (request : InventoryRequest) (input : ReviewInput)
    : list ItemPayload :=
  match decisionsUsed request input with
  | Some decisions => approvedBy (ireq_items request) decisions
  | None => if bool_decide (rv_status input = approved) then ireq_items request else []
  end.

(** The loop of the review handler, whichever branch it takes: the
    per-item loop over the decisions of the call for a bulk request, and
    otherwise the blanket loop over the items of the request. *)
Definition reviewLoop (env : Env) (adminId : string) (request : InventoryRequest)
    (input : ReviewInput) : Handler ReviewLocals :=
  match decisionsUsed request input with
  | Some itemDecisions =>
      foldM (processDecision env adminId (ireq_items request)) (mkReviewLocals [] 0 0 ∅)
        itemDecisions
  | None =>
      if bool_decide (rv_status input = approved)
      then foldM (approveAt env adminId) (mkReviewLocals [] 0 0 ∅)
             (imap pair (ireq_items request))
      else mret (foldl denyAt (mkReviewLocals [] 0 0 ∅) (imap pair (ireq_items request)))
  end.

(** The status the handler persists after its loop. *)
Definition reviewStatus (request : InventoryRequest) (input : ReviewInput)
    (l : ReviewLocals) : Status :=
  match decisionsUsed request input with
  | Some _ =>
      finalStatusOf (approvedCount l) (deniedCount l)
        (Z.of_nat (length (ireq_items request)))
  | None => rv_status input
  end.

(** ** Sample calls *)

(** Notebooks with a category, as the admin adds them. *)
Definition notebooks : ItemPayload :=
  mkItemPayload "ACME" 3 "pcs" "Notebook" "Room 2" 2500 0 None None (Some "Paper goods").


(** A payload the schema refuses: no pieces at all. *)
Definition noPieces : ItemPayload :=
  mkItemPayload "ACME" 0 "pcs" "Stapler" "Room 2" 9000 0 None None None.


(** A review of the bulk request that approves its first item and then an
    item the request does not have. *)
Definition approveFirstAndTenth : ReviewInput :=
  mkReviewInput partial
    (Some [mkDecision 0 item_approved None; mkDecision 9 item_approved None]).



(** Admin-direct Generate of four pieces of the paper. *)
Definition fourPieces : GenerateInput :=
  mkGenerateInput None (Some [paperLine 4]) "GSO" None None None.

(** Admin-direct Generate of six and then three pieces of the paper. *)
Definition sixAndThree : GenerateInput :=
  mkGenerateInput None (Some [paperLine 6; paperLine 3]) "GSO" None None None.

(** One round of calls: the admin names a category and adds stock under
    it, the employee asks for pens and for paper, the admin reviews and
    releases. *)
Definition sampleCalls : list Route :=
  [ PostCategories adminSession "Paper goods";
    PostInventoryBulk sampleEnv adminSession (Some [notebooks; notebooks]);
    PostRequestsSingle employeeSession pens;
    PostRequestsBulk employeeSession (Some [notebooks; pens]) (Some "ACME");
    PatchRequests sampleEnv adminSession "0" approveAll;
    PostReleasedOrdersRequest employeeSession
      (mkCreateReleasedOrderInput "Registrar" None None [paperLine 4]);
    PostReleasedOrdersReview sampleEnv adminSession "q1"
      (mkReviewInput denied None);
    PostReleasedOrdersGenerate sampleEnv adminSession fourPieces;
    PostNotifyInsufficient employeeSession "Bond paper" 20 10;
    GetStatsDashboard employeeSession ].

(** The calls of the round that cannot write the ledger. *)
Definition sampleReads : list Route := filter (λ call, readsLedgerOnly call = true) sampleCalls.

(** The calls of the round that take no unit cost or amount from the
    client. *)
Definition sampleOthers : list Route :=
  filter (λ call, takesMoneyFromClient call = false) sampleCalls.
(** * Properties *)

(** ** Running handlers *)

Lemma bind_continue {A B} (m : Handler A) (f : A → Handler B) s s' a :
  m s = (s', inr a) → (m ≫= f) s = f a s'.
Proof. intros H. unfold mbind, Handler_bind. by rewrite H. Qed.

Lemma bind_replied {A B} (m : Handler A) (f : A → Handler B) s s' r :
  m s = (s', inl r) → (m ≫= f) s = (s', inl r).
Proof. intros H. unfold mbind, Handler_bind. by rewrite H. Qed.

Lemma respond_continue (h : Handler Response) s s' r :
  h s = (s', inr r) → respond h s = (s', r).
Proof. intros H. unfold respond. by rewrite H. Qed.

Lemma respond_replied (h : Handler Response) s s' r :
  h s = (s', inl r) → respond h s = (s', r).
Proof. intros H. unfold respond. by rewrite H. Qed.

(** ** Properties a handler keeps: composition *)

Lemma preserves_bind {A B} P (m : Handler A) (f : A → Handler B) :
  preserves P m → (∀ a, preserves P (f a)) → preserves P (m ≫= f).
Proof.
  intros Hm Hf s s' x HP. unfold mbind, Handler_bind.
  destruct (m s) as [s1 [r|a]] eqn:Hrun.
  - intros [= <- <-]. by eapply Hm.
  - intros Hrest. eapply Hf; [|exact Hrest]. by eapply Hm.
Qed.

Lemma preserves_ret {A} P (a : A) : preserves P (mret a).
Proof. by intros s s' x HP [= <- <-]. Qed.

Lemma preserves_reply {A} P r : preserves P (@reply A r).
Proof. by intros s s' x HP [= <- <-]. Qed.

Lemma preserves_gets {A} P (f : Store → A) : preserves P (gets f).
Proof. by intros s s' x HP [= <- <-]. Qed.

Lemma preserves_modify P (f : Store → Store) :
  (∀ s, P s → P (f s)) → preserves P (modify f).
Proof. intros Hf s s' x HP [= <- <-]. by apply Hf. Qed.

Lemma preserves_foldM {A B} P (body : B → A → Handler B) acc xs :
  (∀ acc x, preserves P (body acc x)) → preserves P (foldM body acc xs).
Proof.
  intros Hbody. revert acc. induction xs as [|x xs IH]; intros acc; cbn [foldM].
  - apply preserves_ret.
  - apply preserves_bind; [apply Hbody | intros acc'; apply IH].
Qed.

Lemma preserves_forEach {A} P (body : A → Handler unit) xs :
  (∀ x, preserves P (body x)) → preserves P (forEach xs body).
Proof.
  intros Hbody. induction xs as [|x xs IH]; cbn [forEach].
  - apply preserves_ret.
  - apply preserves_bind; [apply Hbody | intros _; apply IH].
Qed.

(** Takes a goal [preserves P m] apart along the structure of [m]; what is
    left are the store updates, as goals [∀ s, P s → P (f s)]. *)
Ltac preserves_step :=
  lazymatch goal with
  | |- preserves _ (_ ≫= _) => apply preserves_bind; [|intros ?]
  | |- preserves _ (mret _) => apply preserves_ret
  | |- preserves _ (reply _) => apply preserves_reply
  | |- preserves _ internalError => apply preserves_reply
  | |- preserves _ dbError => apply preserves_reply
  | |- preserves _ validationError => apply preserves_reply
  | |- preserves _ (gets _) => apply preserves_gets
  | |- preserves _ (modify _) => apply preserves_modify
  | |- preserves _ (foldM _ _ _) => apply preserves_foldM; intros ? ?
  | |- preserves _ (forEach _ _) => apply preserves_forEach; intros ?
  | |- preserves _ (if ?b then _ else _) => destruct b
  | |- preserves _ (match ?x with _ => _ end) => destruct x
  | |- preserves _ (let '(_, _) := ?x in _) => destruct x
  end.

Lemma preserves_direct {A} P (h : Handler A) :
  (∀ s, P s → P (h s).1) → preserves P h.
Proof. intros Hh s s' x HP Hrun. specialize (Hh s HP). by rewrite Hrun in Hh. Qed.

(** Opens the handlers and helpers that are built from others. *)
Ltac open_handler :=
  unfold requireAuth, requireRole, getUserById, getAllUsers, getCategoryByName,
    getInventoryItemById, getInventoryRequestById, getReleasedOrderRequestById,
    emitNotification, emitInventoryChange,
    emitRequestChange, getAllInventoryItems, getAllCategories,
    getPendingInventoryRequests, validateItem, checkRequestedItem, deductItem,
    processDecision, approveAt, createApprovedItem, resolveItems, addBulkItem,
    internalError, validationError.

(** The statements that write, as functions of the store. *)
Ltac open_storage :=
  unfold createCategory, createInventoryItem, updateInventoryItem, createNotification,
    createReleasedOrderRequest, createReleasedOrderReport, createInventoryRequest,
    addCategoryHistory, logAuditEvent, updateInventoryRequestStatus,
    updateReleasedOrderRequestStatus, dbError, internalError, reply, modify.

Ltac preserves_all :=
  repeat (preserves_step || (progress open_handler) || (progress unfold resolveCategory));
  try (apply preserves_direct; intros ? ?; open_storage; repeat case_match; cbn).

(** Closes the goals left for a frame property. *)
Ltac same_tables := intros; unfold sameUsersAndRequests in *; cbn; done.

Lemma preserves_fst {A} P (h : Handler A) s : preserves P h → P s → P (h s).1.
Proof. intros Hh HP. destruct (h s) as [s' x] eqn:Hrun. by eapply Hh. Qed.

(** ** What a handler may reply *)

Lemma repliesWith_bind {A B} P (m : Handler A) (f : A → Handler B) :
  repliesWith P m → (∀ a, repliesWith P (f a)) → repliesWith P (m ≫= f).
Proof.
  intros Hm Hf s s' r. unfold mbind, Handler_bind.
  destruct (m s) as [s1 [r1|a]] eqn:Hrun.
  - intros [= <- <-]. by eapply Hm.
  - apply Hf.
Qed.

Lemma repliesWith_ret {A} P (a : A) : repliesWith P (mret a).
Proof. by intros s s' r. Qed.

Lemma repliesWith_gets {A} P (f : Store → A) : repliesWith P (gets f).
Proof. by intros s s' r. Qed.

Lemma repliesWith_modify P (f : Store → Store) : repliesWith P (modify f).
Proof. by intros s s' r. Qed.

Lemma repliesWith_reply {A} (P : Response → Prop) r : P r → repliesWith P (@reply A r).
Proof. by intros Hr s s' r' [= <- <-]. Qed.

Lemma repliesWith_foldM {A B} P (body : B → A → Handler B) acc xs :
  (∀ acc x, repliesWith P (body acc x)) → repliesWith P (foldM body acc xs).
Proof.
  intros Hbody. revert acc. induction xs as [|x xs IH]; intros acc; cbn [foldM].
  - apply repliesWith_ret.
  - apply repliesWith_bind; [apply Hbody | intros acc'; apply IH].
Qed.

Lemma repliesWith_forEach {A} P (body : A → Handler unit) xs :
  (∀ x, repliesWith P (body x)) → repliesWith P (forEach xs body).
Proof.
  intros Hbody. induction xs as [|x xs IH]; cbn [forEach].
  - apply repliesWith_ret.
  - apply repliesWith_bind; [apply Hbody | intros _; apply IH].
Qed.

Lemma repliesWith_direct {A} (P : Response → Prop) (h : Handler A) :
  (∀ s, match (h s).2 with
        | inl r => P r
        | inr _ => True
        end) → repliesWith P h.
Proof. intros Hh s s' r Hrun. specialize (Hh s). by rewrite Hrun in Hh. Qed.

Lemma repliesWith_weaken {A} (P Q : Response → Prop) (m : Handler A) :
  (∀ r, P r → Q r) → repliesWith P m → repliesWith Q m.
Proof. intros HPQ Hm s s' r Hrun. apply HPQ. by eapply Hm. Qed.

(** Takes a goal [repliesWith P m] apart along the structure of [m]; what
    is left are the replies, as goals [P r]. *)
Ltac replies_step :=
  lazymatch goal with
  | |- repliesWith _ (_ ≫= _) => apply repliesWith_bind; [|intros ?]
  | |- repliesWith _ (mret _) => apply repliesWith_ret
  | |- repliesWith _ (reply _) => apply repliesWith_reply
  | |- repliesWith _ internalError => apply repliesWith_reply
  | |- repliesWith _ dbError => apply repliesWith_reply
  | |- repliesWith _ validationError => apply repliesWith_reply
  | |- repliesWith _ (gets _) => apply repliesWith_gets
  | |- repliesWith _ (modify _) => apply repliesWith_modify
  | |- repliesWith _ (foldM _ _ _) => apply repliesWith_foldM; intros ? ?
  | |- repliesWith _ (forEach _ _) => apply repliesWith_forEach; intros ?
  | |- repliesWith _ (if ?b then _ else _) => destruct b
  | |- repliesWith _ (match ?x with _ => _ end) => destruct x
  | |- repliesWith _ (let '(_, _) := ?x in _) => destruct x
  end.

Ltac replies_all :=
  unfold neverRepliesOk;
  repeat (replies_step || (progress open_handler) || (progress unfold resolveCategory));
  try (apply repliesWith_direct; intros ?; open_storage;
       repeat match goal with
              | |- context [if ?b then _ else _] => destruct b
              | |- context [match ?x with Some _ => _ | None => _ end] => destruct x
              end;
       by cbn);
  try done.

(** ** Runs that come to their end *)

Lemma bind_inr {A B} (m : Handler A) (f : A → Handler B) s s' b :
  (m ≫= f) s = (s', inr b) → ∃ s1 a, m s = (s1, inr a) ∧ f a s1 = (s', inr b).
Proof.
  unfold mbind, Handler_bind. destruct (m s) as [s1 [r|a]]; [done|]. by exists s1, a.
Qed.

Lemma respond_inr (h : Handler Response) s s' r :
  neverRepliesOk h → respond h s = (s', r) → code r = 200 ∨ code r = 201 →
  h s = (s', inr r).
Proof.
  intros Hh. unfold respond. destruct (h s) as [s1 [r1|r1]] eqn:Hrun; intros [= <- <-] Hcode.
  - destruct (Hh _ _ _ Hrun). by destruct Hcode.
  - done.
Qed.

(** ** The validation phase of Generate *)

Lemma inStock_or_fails s item : inStock s item ∨ validationFails s item.
Proof.
  unfold inStock, validationFails.
  destruct (inventoryItems s !! rel_inventoryItemId item) as [inv|] eqn:E; [|by right; left].
  destruct (decide (inv_quantity inv < rel_quantity item)).
  - right; right; eauto.
  - left; exists inv; split; [done|lia].
Qed.

Lemma inStock_not_fails s item : inStock s item → validationFails s item → False.
Proof.
  intros (inv & E & Hle) [E' | (inv' & E' & Hlt)]; [congruence|].
  rewrite E in E'. injection E' as ->. lia.
Qed.

Lemma validateItem_inStock s item :
  inStock s item → validateItem item s = (s, inr tt).
Proof.
  intros (inv & E & Hle). unfold validateItem.
  erewrite bind_continue by (unfold getInventoryItemById, gets; by rewrite E).
  cbv beta iota. rewrite bool_decide_eq_false_2 by lia. done.
Qed.

Lemma validateItem_fails s item :
  validationFails s item → ∃ msg, validateItem item s = (s, inl (json 400 (Message msg))).
Proof.
  intros [E | (inv & E & Hlt)]; unfold validateItem.
  - erewrite bind_continue by (unfold getInventoryItemById, gets; by rewrite E).
    eexists; reflexivity.
  - erewrite bind_continue by (unfold getInventoryItemById, gets; by rewrite E).
    cbv beta iota. rewrite bool_decide_eq_true_2 by lia. eexists; reflexivity.
Qed.

Lemma validate_all_inStock s items :
  Forall (inStock s) items → forEach items validateItem s = (s, inr tt).
Proof.
  induction 1 as [|item items Hitem _ IH]; [done|].
  cbn [forEach]. erewrite bind_continue by by apply validateItem_inStock. apply IH.
Qed.

Lemma validate_some_fails s items :
  Exists (validationFails s) items →
  ∃ msg, forEach items validateItem s = (s, inl (json 400 (Message msg))).
Proof.
  induction items as [|item items IH]; intros Hex; [by apply Exists_nil in Hex|].
  cbn [forEach].
  destruct (inStock_or_fails s item) as [Hok | Hbad].
  - erewrite bind_continue by by apply validateItem_inStock.
    apply IH. apply Exists_cons in Hex as [Hbad | Hrest]; [|done].
    by destruct (inStock_not_fails s item).
  - destruct (validateItem_fails s item Hbad) as [msg Hmsg].
    exists msg. by erewrite bind_replied.
Qed.

(** ** The deduct phase of Generate *)

Lemma updateFits_deduct q a :
  updateFits (mkInventoryUpdate None None (Some q) None None None None None (Some a) None)
  = int4 q && numeric12_2 a.
Proof. unfold updateFits. cbn. by rewrite andb_true_r. Qed.

Lemma deductItem_spec item s :
  deductItem item s
  = if deductFits s item then (deductStore item s, inr tt)
    else (s, inl (json 500 (Message "Internal server error"))).
Proof.
  unfold deductItem, deductStore, deductFits.
  destruct (inventoryItems s !! rel_inventoryItemId item) as [inv|] eqn:E.
  - erewrite bind_continue by (unfold getInventoryItemById, gets; by rewrite E).
    cbv beta iota zeta.
    destruct (int4 _ && numeric12_2 _) eqn:Hfits.
    + erewrite bind_continue.
      2:{ unfold updateInventoryItem. rewrite updateFits_deduct, Hfits, E. cbn.
          reflexivity. }
      erewrite bind_continue.
      2:{ unfold getInventoryItemById, gets. cbn. by rewrite lookup_insert_eq. }
      done.
    + erewrite bind_replied; [done|].
      unfold updateInventoryItem. by rewrite updateFits_deduct, Hfits.
  - erewrite bind_continue by (unfold getInventoryItemById, gets; by rewrite E).
    done.
Qed.

(** The deduct loop runs through when every row it writes fits. *)
Lemma deduct_loop items s :
  deductsFit items s = true → forEach items deductItem s = (deductAll items s, inr tt).
Proof.
  revert s. induction items as [|item items IH]; intros s Hfit; [done|].
  cbn in Hfit. apply andb_prop in Hfit as [Hitem Hitems].
  cbn [forEach]. erewrite bind_continue by by rewrite deductItem_spec, Hitem.
  by apply IH.
Qed.

(** However it ends, the deduct loop has deducted the lines before the
    one it stopped at, and stops with the answer 500 only. *)
Lemma deduct_loop_cases items s :
  ∃ deducted x,
    forEach items deductItem s = (deductAll deducted s, x)
    ∧ deducted `prefix_of` items
    ∧ (x = inr tt ∧ deducted = items ∧ deductsFit items s = true
       ∨ x = inl (json 500 (Message "Internal server error"))
         ∧ deductsFit items s = false).
Proof.
  revert s. induction items as [|item items IH]; intros s.
  - exists [], (inr tt). split; [done|]. split; [done|]. by left.
  - cbn [forEach deductsFit]. destruct (deductFits s item) eqn:Hitem.
    + destruct (IH (deductStore item s)) as (deducted & x & Hloop & Hprefix & Hcase).
      exists (item :: deducted), x.
      erewrite bind_continue by by rewrite deductItem_spec, Hitem.
      split; [exact Hloop|]. split; [by apply prefix_cons|].
      destruct Hcase as [(-> & -> & Hfit) | (-> & Hfit)]; [left | right]; by rewrite Hfit.
    + exists [], (inl (json 500 (Message "Internal server error"))).
      erewrite bind_replied by by rewrite deductItem_spec, Hitem.
      split; [done|]. split; [apply prefix_nil|]. by right.
Qed.

(** ** Generate as a whole *)

(** Resolving the item set only reads the store. *)
Lemma resolveItems_reads userId role data s s' x :
  resolveItems userId role data s = (s', x) → s' = s.
Proof.
  unfold resolveItems. case_bool_decide.
  - destruct (truthy (gen_requestId data)) as [requestId|]; [|by inversion 1].
    unfold mbind, Handler_bind, getReleasedOrderRequestById, gets.
    destruct (releasedOrderRequests s !! requestId) as [request|]; [|by inversion 1].
    repeat case_bool_decide; by inversion 1.
  - destruct (gen_items data) as [[|item items]|]; by inversion 1.
Qed.

Lemma all_inStock_or_some_fails s items :
  Forall (inStock s) items ∨ Exists (validationFails s) items.
Proof.
  induction items as [|item items [IH | IH]].
  - by left.
  - destruct (inStock_or_fails s item); [left | right]; by constructor.
  - right. by apply Exists_cons_tl.
Qed.

Lemma deductAll_users items s : users (deductAll items s) = users s.
Proof.
  revert s. induction items as [|item items IH]; intros s; [done|].
  change (deductAll (item :: items) s) with (deductAll items (deductStore item s)).
  rewrite IH. unfold deductStore. by destruct (inventoryItems s !! rel_inventoryItemId item).
Qed.

Section Generate.
Variables (env : Env) (sess : Session) (data : GenerateInput).
Variables (s : Store) (userId : string) (resolved : Resolved).
Hypothesis Hauth : sess_userId sess = Some userId.
Hypothesis Hschema : generateReleasedOrderIssue data = None.
Hypothesis Hresolved : resolveItems userId (sess_role sess) data s = (s, inr resolved).

Lemma generate_fails_validation :
  Exists (validationFails s) (itemsToRelease resolved) →
  ∃ msg, respond (generateReleasedOrder env sess data) s
         = (s, json 400 (Message msg)).
Proof using Hauth Hschema Hresolved.
  intros Hex. destruct (validate_some_fails _ _ Hex) as [msg Hmsg].
  exists msg. apply respond_replied. unfold generateReleasedOrder.
  erewrite bind_continue by (unfold requireAuth; by rewrite Hauth).
  rewrite Hschema. erewrite bind_continue by exact Hresolved.
  by erewrite bind_replied.
Qed.

Lemma generate_succeeds :
  Forall (inStock s) (itemsToRelease resolved) →
  deductsFit (itemsToRelease resolved) s = true →
  numeric12_2 (totalAmountOf (itemsToRelease resolved)) = true →
  hasUser userId s = true →
  respond (generateReleasedOrder env sess data) s
  = (set_releasedOrderReports (push (reportOf env userId data resolved))
       (deductAll (itemsToRelease resolved) s),
     json 201 (ReportBody (reportOf env userId data resolved))).
Proof using Hauth Hschema Hresolved.
  intros Hall Hfit Htotal Huser. apply respond_continue. unfold generateReleasedOrder.
  erewrite bind_continue by (unfold requireAuth; by rewrite Hauth).
  rewrite Hschema. erewrite bind_continue by exact Hresolved.
  erewrite bind_continue by by apply validate_all_inStock.
  erewrite bind_continue by by apply deduct_loop.
  cbv zeta. erewrite bind_continue; [reflexivity|].
  unfold createReleasedOrderReport. cbn [rep_totalAmount rep_releasedBy].
  rewrite Htotal. unfold hasUser in *. rewrite deductAll_users, Huser. done.
Qed.

(** Once the items are resolved, the ledger a Generate call leaves is the
    one its deduct loop left: nothing is deducted when the validation
    fails, and when a write of the deduct loop or the insert of the report
    throws, the lines deducted so far stay deducted. *)
Lemma generate_ledger :
  ∃ deducted,
    inventoryItems (respond (generateReleasedOrder env sess data) s).1
    = inventoryItems (deductAll deducted s)
    ∧ (deducted = []
       ∨ Forall (inStock s) (itemsToRelease resolved)
         ∧ deducted `prefix_of` itemsToRelease resolved).
Proof using Hauth Hschema Hresolved.
  destruct (all_inStock_or_some_fails s (itemsToRelease resolved)) as [Hall | Hex].
  2:{ exists []. destruct (generate_fails_validation Hex) as [msg ->]. by split; [|left]. }
  destruct (deduct_loop_cases (itemsToRelease resolved) s)
    as (deducted & x & Hloop & Hprefix & Hcase).
  exists deducted. split; [|by right].
  unfold respond, generateReleasedOrder.
  erewrite bind_continue by (unfold requireAuth; by rewrite Hauth).
  rewrite Hschema. erewrite bind_continue by exact Hresolved.
  erewrite bind_continue by by apply validate_all_inStock.
  destruct Hcase as [(-> & -> & _) | (-> & _)].
  - erewrite bind_continue by exact Hloop. cbv zeta.
    unfold mbind, Handler_bind, createReleasedOrderReport.
    by destruct (negb _).
  - by erewrite bind_replied by exact Hloop.
Qed.
End Generate.

(** Every way Generate can end: with another answer than 201, or with a
    report, after every check has passed and every write has gone
    through. *)
Lemma generate_cases env sess data s :
  (∃ s' r, respond (generateReleasedOrder env sess data) s = (s', r) ∧ code r ≠ 201)
  ∨ ∃ userId resolved,
      sess_userId sess = Some userId
      ∧ generateReleasedOrderIssue data = None
      ∧ resolveItems userId (sess_role sess) data s = (s, inr resolved)
      ∧ Forall (inStock s) (itemsToRelease resolved)
      ∧ deductsFit (itemsToRelease resolved) s = true
      ∧ numeric12_2 (totalAmountOf (itemsToRelease resolved)) = true
      ∧ hasUser userId s = true.
Proof.
  destruct (sess_userId sess) as [userId|] eqn:Hauth.
  2:{ left. eexists _, _. split; [apply respond_replied|]; unfold generateReleasedOrder.
      - erewrite bind_replied; [done|]. unfold requireAuth. by rewrite Hauth.
      - done. }
  destruct (generateReleasedOrderIssue data) as [msg|] eqn:Hschema.
  { left. eexists _, _. split; [apply respond_replied|]; unfold generateReleasedOrder.
    - erewrite bind_continue by (unfold requireAuth; by rewrite Hauth).
      by rewrite Hschema.
    - done. }
  destruct (resolveItems userId (sess_role sess) data s) as [s' [r|resolved]] eqn:Hres;
    pose proof (resolveItems_reads _ _ _ _ _ _ Hres) as ->.
  { left. exists s, r. split.
    - apply respond_replied. unfold generateReleasedOrder.
      erewrite bind_continue by (unfold requireAuth; by rewrite Hauth).
      rewrite Hschema. by erewrite bind_replied.
    - revert Hres. unfold resolveItems. case_bool_decide.
      + destruct (truthy (gen_requestId data)) as [requestId|];
          [|by inversion 1; subst].
        unfold mbind, Handler_bind, getReleasedOrderRequestById, gets.
        destruct (releasedOrderRequests s !! requestId) as [request|];
          [|by inversion 1; subst].
        repeat case_bool_decide; by inversion 1; subst.
      + destruct (gen_items data) as [[|item items]|]; by inversion 1; subst. }
  destruct (all_inStock_or_some_fails s (itemsToRelease resolved)) as [Hall | Hex].
  2:{ left. destruct (generate_fails_validation env sess data s userId resolved
                        Hauth Hschema Hres Hex) as [msg Hmsg].
      eexists _, _. split; [exact Hmsg|done]. }
  destruct (deductsFit (itemsToRelease resolved) s) eqn:Hfit.
  2:{ left. destruct (deduct_loop_cases (itemsToRelease resolved) s)
        as (deducted & x & Hloop & _ & [(_ & _ & Hfit') | (-> & _)]); [congruence|].
      eexists _, _. split; [apply respond_replied|]; unfold generateReleasedOrder.
      - erewrite bind_continue by (unfold requireAuth; by rewrite Hauth).
        rewrite Hschema. erewrite bind_continue by exact Hres.
        erewrite bind_continue by by apply validate_all_inStock.
        by erewrite bind_replied by exact Hloop.
      - done. }
  destruct (numeric12_2 (totalAmountOf (itemsToRelease resolved))
            && hasUser userId s) eqn:Hreport.
  { apply andb_prop in Hreport as [Htotal Huser]. right. by exists userId, resolved. }
  left. eexists _, _. split; [apply respond_replied|]; unfold generateReleasedOrder.
  - erewrite bind_continue by (unfold requireAuth; by rewrite Hauth).
    rewrite Hschema. erewrite bind_continue by exact Hres.
    erewrite bind_continue by by apply validate_all_inStock.
    erewrite bind_continue by by apply deduct_loop.
    cbv zeta. erewrite bind_replied; [reflexivity|].
    unfold createReleasedOrderReport. cbn [rep_totalAmount rep_releasedBy].
    unfold hasUser in *. rewrite deductAll_users, Hreport. done.
  - done.
Qed.

(** ** What the deduct loop does to quantities and amounts *)

Lemma deductStore_quantity item s id :
  inv_quantity <$> inventoryItems (deductStore item s) !! id
  = (λ q, if decide (rel_inventoryItemId item = id) then q - rel_quantity item else q)
      <$> (inv_quantity <$> inventoryItems s !! id).
Proof.
  unfold deductStore.
  destruct (inventoryItems s !! rel_inventoryItemId item) as [inv|] eqn:E.
  - cbn. destruct (decide (rel_inventoryItemId item = id)) as [<-|Hne].
    + by rewrite lookup_insert_eq, E.
    + rewrite lookup_insert_ne by done. by destruct (inventoryItems s !! id).
  - destruct (decide (rel_inventoryItemId item = id)) as [<-|Hne].
    + by rewrite E.
    + by destruct (inventoryItems s !! id).
Qed.

Lemma deductAll_quantity items s id :
  inv_quantity <$> inventoryItems (deductAll items s) !! id
  = (λ q, q - requested id items) <$> (inv_quantity <$> inventoryItems s !! id).
Proof.
  revert s. induction items as [|item items IH]; intros s.
  - cbn. destruct (inventoryItems s !! id); cbn; [f_equal; lia | done].
  - change (deductAll (item :: items) s) with (deductAll items (deductStore item s)).
    rewrite IH, deductStore_quantity. cbn [requested foldr].
    destruct (inventoryItems s !! id) as [inv|]; cbn; [|done].
    f_equal. fold (requested id items). case_decide; lia.
Qed.

Lemma deductStore_amount item s :
  map_Forall (λ _, amountConsistent) (inventoryItems s) →
  map_Forall (λ _, amountConsistent) (inventoryItems (deductStore item s)).
Proof.
  intros Hinv. unfold deductStore.
  destruct (inventoryItems s !! rel_inventoryItemId item) as [inv|] eqn:E; [|done].
  cbn. apply map_Forall_insert_2; [|done]. unfold amountConsistent. by cbn.
Qed.

Lemma deductAll_amount items s :
  map_Forall (λ _, amountConsistent) (inventoryItems s) →
  map_Forall (λ _, amountConsistent) (inventoryItems (deductAll items s)).
Proof.
  revert s. induction items as [|item items IH]; intros s Hinv; [done|].
  apply IH, deductStore_amount, Hinv.
Qed.

(** The deduct loop leaves the requests and the reports alone. *)
Lemma deductAll_frame items s :
  releasedOrderRequests (deductAll items s) = releasedOrderRequests s
  ∧ releasedOrderReports (deductAll items s) = releasedOrderReports s
  ∧ notifications (deductAll items s) = notifications s.
Proof.
  revert s. induction items as [|item items IH]; intros s; [done|].
  change (deductAll (item :: items) s) with (deductAll items (deductStore item s)).
  destruct (IH (deductStore item s)) as (-> & -> & ->).
  unfold deductStore. by destruct (inventoryItems s !! rel_inventoryItemId item).
Qed.

(** Resolving the item set depends on the store through the release
    requests only. *)
Lemma resolveItems_frame userId role data s s1 x :
  releasedOrderRequests s1 = releasedOrderRequests s →
  resolveItems userId role data s = (s, x) →
  resolveItems userId role data s1 = (s1, x).
Proof.
  intros Hreq. unfold resolveItems. case_bool_decide.
  - destruct (truthy (gen_requestId data)) as [requestId|]; [|by inversion 1].
    unfold mbind, Handler_bind, getReleasedOrderRequestById, gets. rewrite Hreq.
    destruct (releasedOrderRequests s !! requestId) as [request|]; [|by inversion 1].
    repeat case_bool_decide; by inversion 1.
  - destruct (gen_items data) as [[|item items]|]; by inversion 1.
Qed.

Lemma requested_absent id items :
  id ∉ rel_inventoryItemId <$> items → requested id items = 0.
Proof.
  induction items as [|item items IH]; [done|].
  rewrite fmap_cons, not_elem_of_cons. intros [Hne Hrest].
  cbn [requested foldr]. fold (requested id items).
  rewrite decide_False by done. by apply IH.
Qed.

Lemma requested_covered s items id inv :
  NoDup (rel_inventoryItemId <$> items) →
  Forall (inStock s) items →
  inventoryItems s !! id = Some inv →
  0 ≤ inv_quantity inv →
  requested id items ≤ inv_quantity inv.
Proof.
  intros Hnodup Hall Hinv Hpos.
  induction Hall as [|item items Hitem _ IH]; [done|].
  rewrite fmap_cons in Hnodup. apply NoDup_cons in Hnodup as [Hfresh Hnodup].
  cbn [requested foldr]. fold (requested id items). case_decide as Hid.
  - subst id. rewrite requested_absent by done.
    destruct Hitem as (inv' & E & Hle). rewrite Hinv in E. injection E as <-. lia.
  - by apply IH.
Qed.

(** When no InventoryItem is named twice, a Generate call keeps every
    quantity non-negative. *)
Lemma generate_distinct_items_nonneg env sess data s userId resolved :
  sess_userId sess = Some userId →
  generateReleasedOrderIssue data = None →
  resolveItems userId (sess_role sess) data s = (s, inr resolved) →
  NoDup (rel_inventoryItemId <$> itemsToRelease resolved) →
  map_Forall (λ _ inv, 0 ≤ inv_quantity inv) (inventoryItems s) →
  map_Forall (λ _ inv, 0 ≤ inv_quantity inv)
    (inventoryItems (respond (generateReleasedOrder env sess data) s).1).
Proof.
  intros Hauth Hschema Hres Hnodup Hpos.
  destruct (generate_ledger env sess data s userId resolved Hauth Hschema Hres)
    as (deducted & Hledger & Hcase).
  rewrite Hledger. destruct Hcase as [-> | [Hall [rest Hitems]]]; [done|].
  rewrite Hitems in Hnodup, Hall. rewrite fmap_app in Hnodup.
  apply NoDup_app in Hnodup as (Hnodup & _ & _). apply Forall_app in Hall as [Hall _].
  intros id inv' Hinv'.
  pose proof (deductAll_quantity deducted s id) as Hq.
  rewrite Hinv' in Hq. cbn in Hq.
  destruct (inventoryItems s !! id) as [inv|] eqn:Hinv; [|done].
  cbn in Hq. injection Hq as ->.
  pose proof (Hpos id inv Hinv). cbn in *.
  pose proof (requested_covered s _ id inv Hnodup Hall Hinv). lia.
Qed.

(** What resolving yields on the employee path: the fields of the stored
    request. *)
Lemma resolveItems_employee userId data s resolved :
  resolveItems userId (Some employee) data s = (s, inr resolved) →
  ∃ requestId request,
    truthy (gen_requestId data) = Some requestId
    ∧ releasedOrderRequests s !! requestId = Some request
    ∧ res_departmentOffice resolved = rreq_departmentOffice request
    ∧ res_rsNo resolved = truthy (rreq_rsNo request)
    ∧ res_isPartial resolved = rreq_isPartial request.
Proof.
  unfold resolveItems. rewrite bool_decide_eq_true_2 by done.
  destruct (truthy (gen_requestId data)) as [requestId|]; [|by inversion 1].
  unfold mbind, Handler_bind, getReleasedOrderRequestById, gets.
  destruct (releasedOrderRequests s !! requestId) as [request|] eqn:E; [|by inversion 1].
  repeat case_bool_decide; inversion 1; subst.
  by exists requestId, request.
Qed.

Lemma generateReleasedOrderIssue_department data :
  generateReleasedOrderIssue data = None → nonEmpty (gen_departmentOffice data) = true.
Proof.
  unfold generateReleasedOrderIssue.
  destruct (releasedItemsIssue _); [done|].
  by destruct (nonEmpty (gen_departmentOffice data)).
Qed.

(** ** The guard of the release review *)

(** The release review does have the guard: a request that is not pending
    is answered 400 and nothing is written. *)
Lemma reviewReleaseRequest_terminal env sess id data s adminId request :
  sess_userId sess = Some adminId →
  sess_role sess = Some admin →
  reviewReleasedOrderIssue data = None →
  releasedOrderRequests s !! id = Some request →
  rreq_status request ≠ pending →
  respond (reviewReleaseRequest env sess id data) s
  = (s, json 400 (Message "Request already processed")).
Proof.
  intros Hauth Hrole Hschema Hreq Hstatus.
  apply respond_replied. unfold reviewReleaseRequest.
  erewrite bind_continue
    by (unfold requireRole; rewrite Hauth, Hrole; by rewrite bool_decide_eq_true_2
          by set_solver).
  rewrite Hschema.
  erewrite bind_continue by (unfold getReleasedOrderRequestById, gets; by rewrite Hreq).
  cbv beta iota. by rewrite bool_decide_eq_true_2.
Qed.

(** ** The pre-check of a release-request submission *)

Lemma checkRequestedItem_inStock s item :
  inStock s item → checkRequestedItem item s = (s, inr tt).
Proof.
  intros (inv & E & Hle). unfold checkRequestedItem.
  erewrite bind_continue by (unfold getInventoryItemById, gets; by rewrite E).
  cbv beta iota. by rewrite bool_decide_eq_false_2 by lia.
Qed.

Lemma checkRequestedItem_short s item inv :
  inventoryItems s !! rel_inventoryItemId item = Some inv →
  inv_quantity inv < rel_quantity item →
  checkRequestedItem item s = (s, inl (insufficientStock item (inv_quantity inv))).
Proof.
  intros E Hlt. unfold checkRequestedItem.
  erewrite bind_continue by (unfold getInventoryItemById, gets; by rewrite E).
  cbv beta iota. by rewrite bool_decide_eq_true_2 by lia.
Qed.

Lemma checkRequestedItem_missing s item :
  inventoryItems s !! rel_inventoryItemId item = None →
  checkRequestedItem item s = (s, inl (itemNotFound item)).
Proof.
  intros E. unfold checkRequestedItem.
  by erewrite bind_continue by (unfold getInventoryItemById, gets; by rewrite E).
Qed.

(** The outcome of the pre-check loop when some line is short: it stops at
    the first line that is not covered by the stock. *)
Lemma check_loop_short s items :
  Exists (shortOf s) items →
  ∃ before item after,
    items = (before ++ item :: after)%list
    ∧ Forall (inStock s) before
    ∧ ((∃ inv, inventoryItems s !! rel_inventoryItemId item = Some inv
               ∧ inv_quantity inv < rel_quantity item
               ∧ forEach items checkRequestedItem s
                 = (s, inl (insufficientStock item (inv_quantity inv))))
       ∨ (inventoryItems s !! rel_inventoryItemId item = None
          ∧ forEach items checkRequestedItem s = (s, inl (itemNotFound item)))).
Proof.
  induction items as [|item items IH]; intros Hex; [by apply Exists_nil in Hex|].
  destruct (inStock_or_fails s item) as [Hok | [Hnone | (inv & E & Hlt)]].
  - apply Exists_cons in Hex as [(inv & E & Hlt) | Hrest].
    { destruct (inStock_not_fails s item Hok). right. eauto. }
    destruct (IH Hrest) as (before & item' & after & -> & Hbefore & Hcase).
    exists (item :: before), item', after. split; [done|]. split; [by constructor|].
    cbn [forEach]. erewrite bind_continue by by apply checkRequestedItem_inStock.
    exact Hcase.
  - exists [], item, items. split; [done|]. split; [constructor|]. right.
    split; [done|]. cbn [forEach].
    by erewrite bind_replied by by apply checkRequestedItem_missing.
  - exists [], item, items. split; [done|]. split; [constructor|]. left.
    exists inv. split; [done|]. split; [done|]. cbn [forEach].
    by erewrite bind_replied by by apply checkRequestedItem_short.
Qed.

(** ** The itemStatuses object a review persists *)

Lemma dom_foldl_insert {A V} (key : A → string) (val : A → V) xs (m : gmap string V) :
  dom (foldl (λ m x, <[key x := val x]> m) m xs) = list_to_set (key <$> xs) ∪ dom m.
Proof.
  revert m. induction xs as [|x xs IH]; intros m; cbn [foldl].
  - set_solver.
  - rewrite IH, dom_insert_L, fmap_cons, list_to_set_cons. set_solver.
Qed.

Lemma imap_pair_fst {A} (l : list A) (f : nat → nat) :
  fst <$> imap (λ i x, (f i, x)) l = f <$> seq 0 (length l).
Proof.
  revert f. induction l as [|x l IH]; intros f; [done|].
  cbn [imap length seq fmap list_fmap]. f_equal.
  rewrite <- fmap_S_seq, <- list_fmap_compose. apply (IH (f ∘ S)).
Qed.

Lemma entries_keys {A} (l : list A) :
  list_to_set ((λ entry : nat * A, pretty (Z.of_nat entry.1)) <$> imap pair l)
  = allKeys (length l).
Proof.
  unfold allKeys. f_equal.
  rewrite <- (list_fmap_id (seq 0 (length l))).
  change (imap pair l) with (imap (λ i x, (id i, x)) l).
  rewrite <- imap_pair_fst, <- !list_fmap_compose. done.
Qed.


(** ** Rows added to the ledger *)

Lemma ledgerGrewBy_nil s s' :
  inventoryItems s' = inventoryItems s → ledgerGrewBy s s' [].
Proof.
  intros Hsame. split; [apply NoDup_nil_2|]. split; [apply Forall_nil_2|].
  intros id _. by rewrite Hsame.
Qed.

Lemma ledgerGrewBy_app s s1 s2 xs ys :
  ledgerGrewBy s s1 xs → ledgerGrewBy s1 s2 ys → ledgerGrewBy s s2 (xs ++ ys)%list.
Proof.
  intros (Hnd1 & Hxs & Hrest1) (Hnd2 & Hys & Hrest2).
  rewrite Forall_forall in Hxs, Hys.
  assert (Hdisj : ∀ id, id ∈ xs.*1 → id ∈ ys.*1 → False).
  { intros id ((id1 & row1) & -> & Hin1)%list_elem_of_fmap
              ((id2 & row2) & Heq & Hin2)%list_elem_of_fmap.
    cbn in Heq. subst id2.
    destruct (Hxs _ Hin1) as [_ Hsome]. destruct (Hys _ Hin2) as [Hnone _].
    cbn in Hsome, Hnone. congruence. }
  split; [|split].
  - rewrite fmap_app. apply NoDup_app. by repeat split.
  - apply Forall_app. split; apply Forall_forall; intros [id row] Hin; cbn.
    + destruct (Hxs _ Hin) as [Hnone Hsome]. split; [done|].
      rewrite Hrest2; [done|]. intros Hin'. eapply (Hdisj id); [|done].
      apply list_elem_of_fmap. by exists (id, row).
    + destruct (Hys _ Hin) as [Hnone Hsome]. split; [|done].
      rewrite <- Hrest1; [done|]. intros Hin'. eapply (Hdisj id); [done|].
      apply list_elem_of_fmap. by exists (id, row).
  - intros id Hid. rewrite fmap_app in Hid. apply not_elem_of_app in Hid as [Hx Hy].
    by rewrite Hrest2, Hrest1.
Qed.

Lemma ledgerGrewBy_insert s s1 s' item :
  inventoryItems s1 = inventoryItems s →
  inventoryItems s' = <[fresh (dom (inventoryItems s1)) := item]> (inventoryItems s1) →
  ledgerGrewBy s s' [(fresh (dom (inventoryItems s1)), item)].
Proof.
  intros Hs1 Hs'. rewrite Hs1 in Hs'. rewrite Hs1.
  assert (Hfresh : inventoryItems s !! fresh (dom (inventoryItems s)) = None).
  { apply not_elem_of_dom, is_fresh. }
  split; [|split].
  - cbn. apply NoDup_singleton.
  - apply Forall_singleton. cbn. split; [done|]. by rewrite Hs', lookup_insert_eq.
  - intros id Hid. cbn in Hid. rewrite Hs', lookup_insert_ne; [done|].
    intros <-. apply Hid. by apply list_elem_of_singleton.
Qed.


Lemma ledgerGrewBy_to s s0 s' created :
  inventoryItems s' = inventoryItems s0 →
  ledgerGrewBy s s0 created → ledgerGrewBy s s' created.
Proof. unfold ledgerGrewBy. by intros ->. Qed.

(** ** Get or create a category *)

Lemma list_find_name_None name (cats : list Category) :
  list_find (λ c, cat_name c = name) cats = None → name ∉ cat_name <$> cats.
Proof.
  intros Hnone Hin. apply list_elem_of_fmap in Hin as (c & -> & Hc).
  apply list_find_None in Hnone. rewrite Forall_forall in Hnone. by apply (Hnone c).
Qed.

(** Resolving a category, run on its own, goes through, and does not
    fail on the unique name: it creates under a name it has just looked
    up in vain.  It touches the category table only. *)
Lemma resolveCategory_runs categoryName s :
  ∃ s' categoryId,
    resolveCategory categoryName s = (s', inr categoryId)
    ∧ inventoryRequests s' = inventoryRequests s
    ∧ notifications s' = notifications s
    ∧ inventoryItems s' = inventoryItems s.
Proof.
  unfold resolveCategory. destruct (truthy categoryName) as [name|].
  - unfold mbind, Handler_bind, getCategoryByName, gets.
    destruct (list_find _ (categories s)) as [[i c]|] eqn:Hfind; cbn;
      [by eexists _, _|].
    unfold createCategory.
    rewrite bool_decide_eq_false_2 by by apply list_find_name_None.
    by eexists _, _.
  - by eexists _, _.
Qed.

(** The category it answers with is there, and the users are as they
    were. *)
Lemma resolveCategory_refers categoryName s s' categoryId :
  resolveCategory categoryName s = (s', inr categoryId) →
  users s' = users s ∧ refersTo hasCategory categoryId s' = true.
Proof.
  unfold resolveCategory. destruct (truthy categoryName) as [name|];
    [|by intros [= <- <-]].
  unfold mbind, Handler_bind, getCategoryByName, gets.
  destruct (list_find _ (categories s)) as [[i c]|] eqn:Hfind; cbn.
  - intros [= <- <-]. split; [done|]. cbn. unfold hasCategory.
    apply bool_decide_eq_true_2, list_elem_of_fmap. exists c. split; [done|].
    apply list_find_Some in Hfind as (Hc & _). by eapply list_elem_of_lookup_2.
  - unfold createCategory. case_bool_decide; [done|].
    intros [= <- <-]. split; [done|]. cbn. unfold hasCategory, push. cbn.
    apply bool_decide_eq_true_2. rewrite fmap_app. cbn. set_solver.
Qed.

(** ** Creating the item of an approved payload *)

(** Creating an approved item goes through when the values of the payload
    fit their columns and the reviewing admin is there. *)
Lemma createApprovedItem_runs env adminId itemData s :
  payloadFits itemData = true →
  hasUser adminId s = true →
  ∃ s' created, createApprovedItem env adminId itemData s = (s', inr created).
Proof.
  intros Hfits Hadmin.
  destruct (resolveCategory_runs (pay_categoryName itemData) s)
    as (s1 & categoryId & Hrun & _ & _ & Hledger).
  destruct (resolveCategory_refers _ _ _ _ Hrun) as [Husers Hcat].
  unfold createApprovedItem.
  erewrite bind_continue by exact Hrun.
  erewrite bind_continue.
  2:{ unfold createInventoryItem. cbn [inv_quantity inv_unitCost inv_amount inv_categoryId].
      unfold payloadFits in Hfits. rewrite Hfits, Hcat. reflexivity. }
  cbv beta iota zeta.
  destruct (truthy categoryId) as [cid|] eqn:Hcid.
  - erewrite bind_continue.
    2:{ unfold addCategoryHistory. cbn [ch_categoryId ch_itemId ch_changedBy].
        assert (hasCategory cid s1 = true) as Hcid'.
        { destruct categoryId as [[|]|]; cbn in Hcid; simplify_eq; exact Hcat. }
        assert (hasInventoryItem (fresh (dom (inventoryItems s1)))
                  (set_inventoryItems (insert (fresh (dom (inventoryItems s1))) _) s1)
                = true) as ->.
        { unfold hasInventoryItem. cbn. rewrite lookup_insert_eq.
          by apply bool_decide_eq_true_2. }
        unfold hasCategory, hasUser in *. cbn. rewrite Hcid', Husers, Hadmin. reflexivity. }
    erewrite bind_continue by (unfold emitInventoryChange, modify; reflexivity).
    by eexists _, _.
  - erewrite bind_continue by reflexivity.
    erewrite bind_continue by (unfold emitInventoryChange, modify; reflexivity).
    by eexists _, _.
Qed.

(** When it goes through, the item has been added to the ledger under a
    new id, with the fields of the payload and the amount computed from
    its quantity and unit cost. *)
Lemma createApprovedItem_created env adminId itemData s s' created :
  createApprovedItem env adminId itemData s = (s', inr created) →
  addedFrom itemData created
  ∧ ledgerGrewBy s s' [created]
  ∧ amountConsistent created.2.
Proof.
  destruct (resolveCategory_runs (pay_categoryName itemData) s)
    as (s1 & categoryId & Hrun & _ & _ & Hledger).
  unfold createApprovedItem.
  erewrite bind_continue by exact Hrun.
  unfold createInventoryItem at 1. unfold mbind at 1, Handler_bind at 1.
  destruct (negb _); [done|]. cbv beta iota zeta.
  destruct (truthy categoryId) as [cid|].
  - unfold addCategoryHistory, mbind, Handler_bind. destruct (negb _); [done|].
    cbn. intros [= <- <-]. split; [by repeat split|]. split; [|done].
    by apply ledgerGrewBy_insert.
  - cbn. intros [= <- <-]. split; [by repeat split|]. split; [|done].
    by apply ledgerGrewBy_insert.
Qed.

Lemma countOutcome_cons o decision decisions :
  countOutcome o (decision :: decisions)
  = (if decide (dec_status decision = o) then 1 else 0) + countOutcome o decisions.
Proof.
  unfold countOutcome. rewrite filter_cons.
  destruct (decide (dec_status decision = o)); cbn [length]; lia.
Qed.

(** ** The loops of the inventory review *)

Lemma sameUsersAndRequests_hasUser s0 s id :
  sameUsersAndRequests s0 s → hasUser id s = hasUser id s0.
Proof. intros (Husers & _). unfold hasUser. by rewrite Husers. Qed.

Lemma approvedBy_cons items decision decisions :
  approvedBy items (decision :: decisions)
  = match dec_status decision, itemAt items (dec_index decision) with
    | item_approved, Some itemData => itemData :: approvedBy items decisions
    | _, _ => approvedBy items decisions
    end.
Proof.
  unfold approvedBy. cbn [omap list_omap].
  destruct (dec_status decision); [|done].
  rewrite bool_decide_eq_true_2 by done. by destruct (itemAt items (dec_index decision)).
Qed.

Lemma processDecision_frame env adminId items l decision s0 :
  preserves (sameUsersAndRequests s0) (processDecision env adminId items l decision).
Proof. preserves_all; same_tables. Qed.

(** One round of the per-item loop that goes through has recorded the
    decision under its index and counted it, and has created the row of
    the payload it approves. *)
Lemma processDecision_done env adminId items l decision s s' l' :
  processDecision env adminId items l decision s = (s', inr l') →
  tallied l [decision] l'
  ∧ ∃ created,
      createdItems l' = (createdItems l ++ created)%list
      ∧ Z.of_nat (length created) = countOutcome item_approved [decision]
      ∧ Forall2 addedFrom (approvedBy items [decision]) created
      ∧ ledgerGrewBy s s' created.
Proof.
  unfold processDecision, tallied. rewrite !countOutcome_cons, approvedBy_cons.
  unfold countOutcome, approvedBy. cbn [filter list_filter omap list_omap length foldl].
  destruct (dec_status decision) eqn:Hstatus.
  - destruct (itemAt items (dec_index decision)) as [itemData|]; [|done].
    destruct (createApprovedItem env adminId itemData s) as [s1 [r|row]] eqn:Hrun.
    { by erewrite bind_replied by exact Hrun. }
    erewrite bind_continue by exact Hrun. intros [= <- <-].
    destruct (createApprovedItem_created _ _ _ _ _ _ Hrun) as (Hrow & Hgrew & _).
    cbn. rewrite decide_True, decide_False by done.
    split; [repeat split; lia|]. exists [row]. split; [done|]. split; [done|].
    split; [by constructor | done].
  - intros [= <- <-]. cbn. rewrite decide_False, decide_True by done.
    split; [repeat split; lia|]. exists []. rewrite app_nil_r. split; [done|].
    split; [done|]. split; [constructor|]. by apply ledgerGrewBy_nil.
Qed.

Lemma tallied_cons l l1 l' decision decisions :
  tallied l [decision] l1 → tallied l1 decisions l' → tallied l (decision :: decisions) l'.
Proof.
  unfold tallied. rewrite !(countOutcome_cons _ decision decisions), !countOutcome_cons.
  unfold countOutcome. cbn [filter list_filter length foldl].
  intros (Hst1 & Happ1 & Hden1) (Hst & Happ & Hden). rewrite Hst, Hst1.
  split; [done|]. cbn in Happ1, Hden1. split; lia.
Qed.

Lemma processDecisions_done env adminId items decisions l s s' l' :
  foldM (processDecision env adminId items) l decisions s = (s', inr l') →
  tallied l decisions l'
  ∧ ∃ created,
      createdItems l' = (createdItems l ++ created)%list
      ∧ Z.of_nat (length created) = countOutcome item_approved decisions
      ∧ Forall2 addedFrom (approvedBy items decisions) created
      ∧ ledgerGrewBy s s' created.
Proof.
  revert l s. induction decisions as [|decision decisions IH]; intros l s.
  - intros [= <- <-]. split.
    + unfold tallied, countOutcome. cbn. repeat split; lia.
    + exists []. rewrite app_nil_r. split; [done|]. split; [done|].
      split; [constructor|]. by apply ledgerGrewBy_nil.
  - cbn [foldM]. intros (s1 & l1 & Hstep & Hrest)%bind_inr.
    destruct (processDecision_done _ _ _ _ _ _ _ _ Hstep)
      as (Htally1 & created1 & Hcreated1 & Hcount1 & Hall1 & Hgrew1).
    destruct (IH _ _ Hrest) as (Htally & created & Hcreated & Hcount & Hall & Hgrew).
    split; [by eapply tallied_cons|].
    exists (created1 ++ created)%list.
    split; [by rewrite Hcreated, Hcreated1, app_assoc|].
    split.
    { rewrite length_app, (countOutcome_cons _ decision decisions).
      rewrite countOutcome_cons in Hcount1. unfold countOutcome in Hcount1 at 1.
      cbn in Hcount1. lia. }
    split; [|by eapply ledgerGrewBy_app].
    rewrite approvedBy_cons. rewrite approvedBy_cons in Hall1.
    destruct (dec_status decision), (itemAt items (dec_index decision));
      cbn in Hall1; inversion Hall1; subst; cbn; try done.
    match goal with H : Forall2 _ [] _ |- _ => inversion H; subst end.
    by constructor.
Qed.

(** The per-item loop runs to its end when every approved decision names
    an item of the request whose values fit their columns, and the
    reviewing admin is there. *)
Lemma processDecisions_run env adminId items decisions l s :
  Forall (λ d, dec_status d = item_approved → is_Some (itemAt items (dec_index d)))
    decisions →
  Forall (λ itemData, payloadFits itemData = true) (approvedBy items decisions) →
  hasUser adminId s = true →
  ∃ s' l', foldM (processDecision env adminId items) l decisions s = (s', inr l').
Proof.
  intros Hall. revert l s.
  induction Hall as [|decision decisions Hd _ IH]; intros l s Hfit Hadmin;
    [by eexists _, _|].
  cbn [foldM]. rewrite approvedBy_cons in Hfit.
  assert (∃ s1 l1, processDecision env adminId items l decision s = (s1, inr l1)
                   ∧ Forall (λ itemData, payloadFits itemData = true)
                       (approvedBy items decisions))
    as (s1 & l1 & Hstep & Hfit').
  { unfold processDecision. destruct (dec_status decision); [|by eexists _, _].
    destruct Hd as [itemData Hitem]; [done|]. rewrite Hitem in Hfit |-*.
    apply Forall_cons in Hfit as [Hfit Hfit'].
    destruct (createApprovedItem_runs env adminId itemData s Hfit Hadmin)
      as (s1 & created & Hrun).
    erewrite bind_continue by exact Hrun. by eexists _, _. }
  erewrite bind_continue by exact Hstep. apply IH; [done|].
  erewrite sameUsersAndRequests_hasUser; [exact Hadmin|].
  eapply processDecision_frame; [|exact Hstep]. done.
Qed.

Lemma approveAt_frame env adminId l entry s0 :
  preserves (sameUsersAndRequests s0) (approveAt env adminId l entry).
Proof. preserves_all; same_tables. Qed.

(** The blanket-approval loop that goes through has written an entry for
    every item and created a row for every item, and has counted
    nothing. *)
Lemma approveAll_done env adminId entries l s s' l' :
  foldM (approveAt env adminId) l entries s = (s', inr l') →
  itemStatuses l'
  = foldl (λ statuses entry,
             <[pretty (Z.of_nat entry.1) := mkItemStatus item_approved None]> statuses)
      (itemStatuses l) entries
  ∧ approvedCount l' = approvedCount l
  ∧ deniedCount l' = deniedCount l
  ∧ ∃ created,
      createdItems l' = (createdItems l ++ created)%list
      ∧ Forall2 addedFrom entries.*2 created
      ∧ ledgerGrewBy s s' created.
Proof.
  revert l s. induction entries as [|entry entries IH]; intros l s.
  - intros [= <- <-]. do 3 (split; [done|]). exists []. rewrite app_nil_r.
    split; [done|]. split; [constructor|]. by apply ledgerGrewBy_nil.
  - cbn [foldM foldl]. intros (s1 & l1 & Hstep & Hrest)%bind_inr.
    unfold approveAt in Hstep. apply bind_inr in Hstep as (s0 & row & Hrun & Hret).
    injection Hret as <- <-.
    destruct (createApprovedItem_created _ _ _ _ _ _ Hrun) as (Hrow & Hgrew & _).
    destruct (IH _ _ Hrest) as (Hst & Happ & Hden & created & Hcreated & Hall & Hgrew').
    cbn in Hst, Happ, Hden, Hcreated. do 3 (split; [done|]).
    exists (row :: created). split; [by rewrite Hcreated; unfold push; rewrite <- app_assoc|].
    split; [by constructor|]. by apply (ledgerGrewBy_app s s0 s' [row] created).
Qed.


Lemma denyAll_statuses entries l :
  itemStatuses (foldl denyAt l entries)
  = foldl (λ statuses entry,
             <[pretty (Z.of_nat entry.1) := mkItemStatus item_denied None]> statuses)
      (itemStatuses l) entries.
Proof.
  revert l. induction entries as [|entry entries IH]; intros l; [done|].
  cbn [foldl]. by rewrite IH.
Qed.

Lemma denyAll_locals (l : ReviewLocals) (entries : list (nat * ItemPayload)) :
  createdItems (foldl denyAt l entries) = createdItems l
  ∧ approvedCount (foldl denyAt l entries) = approvedCount l
  ∧ deniedCount (foldl denyAt l entries) = deniedCount l.
Proof.
  revert l. induction entries as [|entry entries IH]; intros l; [done|].
  cbn [foldl]. destruct (IH (denyAt l entry)) as (-> & -> & ->). done.
Qed.

Lemma imap_pair_snd {A} (items : list A) : (imap pair items).*2 = items.
Proof.
  rewrite fmap_imap. rewrite <- (list_fmap_id items) at 2. apply imap_const.
Qed.

Lemma reviewLoop_frame env adminId request input s0 :
  preserves (sameUsersAndRequests s0) (reviewLoop env adminId request input).
Proof.
  unfold reviewLoop. destruct (decisionsUsed request input); [|case_bool_decide].
  - apply preserves_foldM. intros. apply processDecision_frame.
  - apply preserves_foldM. intros. apply approveAt_frame.
  - apply preserves_ret.
Qed.

(** What the loop leaves when it has run to its end. *)
Lemma reviewLoop_done env adminId request input s s1 l :
  reviewLoop env adminId request input s = (s1, inr l) →
  dom (itemStatuses l)
  = reviewedKeys (decisionsUsed request input) (length (ireq_items request))
  ∧ reviewStatus request input l = persistedStatus request input
  ∧ (if bool_decide (0 < approvedCount l) then success else alert)
    = notifiedType request input
  ∧ Forall2 addedFrom (approvedPayloads request input) (createdItems l)
  ∧ ledgerGrewBy s s1 (createdItems l)
  ∧ (is_Some (decisionsUsed request input)
     → approvedCount l = Z.of_nat (length (createdItems l)))
  ∧ (decisionsUsed request input = None → approvedCount l = 0 ∧ deniedCount l = 0).
Proof.
  unfold reviewLoop, reviewStatus, persistedStatus, notifiedType, approvedPayloads.
  destruct (decisionsUsed request input) as [decisions|]; [|case_bool_decide].
  - intros Hloop.
    destruct (processDecisions_done _ _ _ _ _ _ _ _ Hloop)
      as ((Hst & Happ & Hden) & created & Hcreated & Hcount & Hall & Hgrew).
    cbn in Hst, Happ, Hden, Hcreated. rewrite Happ, Hden, !Z.add_0_l, Hcreated.
    split.
    { rewrite Hst.
      rewrite (dom_foldl_insert (λ d, pretty (dec_index d))
                 (λ d, mkItemStatus (dec_status d) (dec_reason d))).
      unfold reviewedKeys, decidedKeys. set_solver. }
    do 4 (split; [done|]). split; [done | by intros [=]].
  - intros Hloop.
    destruct (approveAll_done _ _ _ _ _ _ _ Hloop)
      as (Hst & Happ & Hden & created & Hcreated & Hall & Hgrew).
    cbn in Hst, Happ, Hden, Hcreated. rewrite imap_pair_snd in Hall.
    rewrite Happ, Hden, Hcreated. split.
    { rewrite Hst.
      rewrite (dom_foldl_insert (λ entry : nat * ItemPayload, pretty (Z.of_nat entry.1))
                 (λ _, mkItemStatus item_approved None)).
      rewrite entries_keys. cbn. set_solver. }
    do 4 (split; [done|]). split; [by intros [? [=]] | done].
  - intros [= <- <-].
    destruct (denyAll_locals (mkReviewLocals [] 0 0 ∅) (imap pair (ireq_items request)))
      as (-> & -> & ->).
    split.
    { rewrite denyAll_statuses.
      rewrite (dom_foldl_insert (λ entry : nat * ItemPayload, pretty (Z.of_nat entry.1))
                 (λ _, mkItemStatus item_denied None)).
      rewrite entries_keys. cbn. set_solver. }
    do 2 (split; [done|]). split; [constructor|]. split; [by apply ledgerGrewBy_nil|].
    split; [by intros [? [=]] | done].
Qed.


(** ** The inventory review as a whole *)

(** What the role gate lets through. *)
Lemma requireRole_inr roles sess s s' userId :
  requireRole roles sess s = (s', inr userId) →
  s' = s ∧ sess_userId sess = Some userId
  ∧ ∃ role, sess_role sess = Some role ∧ role ∈ roles.
Proof.
  unfold requireRole. destruct (sess_userId sess) as [uid|]; [|done].
  destruct (sess_role sess) as [role|]; [|done].
  case_bool_decide; [|done]. intros [= <- <-]. eauto.
Qed.

Lemma requireRole_admin sess s userId :
  sess_userId sess = Some userId → sess_role sess = Some admin →
  requireRole [admin] sess s = (s, inr userId).
Proof.
  intros Hauth Hrole. unfold requireRole.
  rewrite Hauth, Hrole, bool_decide_eq_true_2 by set_solver. done.
Qed.

Lemma reviewInventoryRequest_refuses env sess id input :
  neverRepliesOk (reviewInventoryRequest env sess id input).
Proof. unfold reviewInventoryRequest. replies_all. Qed.

(** A review answered 200 has run its loop to the end, updated the
    request, notified the employee and answered with the tallies and the
    created rows. *)
Lemma reviewInventoryRequest_200 env sess id input s s' r request :
  inventoryRequests s !! id = Some request →
  respond (reviewInventoryRequest env sess id input) s = (s', r) →
  code r = 200 →
  ∃ adminId s1 l notification,
    sess_userId sess = Some adminId
    ∧ reviewLoop env adminId request input s = (s1, inr l)
    ∧ inventoryItems s' = inventoryItems s1
    ∧ inventoryRequests s'
      = alter (λ r, mkInventoryRequest (ireq_employeeId r) (ireq_bulk r) (ireq_items r)
                      (Some (itemStatuses l)) (reviewStatus request input l)
                      (Some adminId) (Some (env_now env)))
          id (inventoryRequests s)
    ∧ notifications s' = push notification (notifications s)
    ∧ ntf_userId notification = ireq_employeeId request
    ∧ ntf_type notification = (if bool_decide (0 < approvedCount l) then success else alert)
    ∧ r = json 200 (ReviewBody (approvedCount l) (deniedCount l) (createdItems l)).
Proof.
  intros Hreq Hrun Hcode.
  apply respond_inr in Hrun; [|apply reviewInventoryRequest_refuses | by left].
  unfold reviewInventoryRequest in Hrun.
  apply bind_inr in Hrun as (s0 & adminId & Hgate & Hrun).
  apply requireRole_inr in Hgate as (-> & Hauth & _).
  destruct (reviewRequestValid input); cbn [negb] in Hrun; [|done].
  apply bind_inr in Hrun as (s0 & request' & Hget & Hrun).
  unfold getInventoryRequestById, gets in Hget. injection Hget as <- <-.
  rewrite Hreq in Hrun. cbv zeta in Hrun.
  apply bind_inr in Hrun as (s2 & l & Hcore & Hrun).
  assert (∃ s1, reviewLoop env adminId request input s = (s1, inr l)
                ∧ updateInventoryRequestStatus (env_now env) id
                    (reviewStatus request input l) adminId (itemStatuses l) s1
                  = (s2, inr tt)) as (s1 & Hloop & Hupd).
  { unfold reviewLoop, reviewStatus, decisionsUsed.
    destruct (ireq_bulk request), (rv_itemDecisions input);
      apply bind_inr in Hcore as (s1 & l1 & Hloop & Hcore);
      apply bind_inr in Hcore as (s3 & [] & Hupd & Hret); injection Hret as <- <-;
      by exists s1. }
  destruct (reviewLoop_frame env adminId request input s s s1 (inr l))
    as (Husers & Hreqs & Hntf); [done..|].
  unfold updateInventoryRequestStatus in Hupd. destruct (_ && _); [done|].
  injection Hupd as <-.
  apply bind_inr in Hrun as (s3 & employee & Hget & Hrun).
  unfold getUserById, gets in Hget. injection Hget as <- <-.
  apply bind_inr in Hrun as (s4 & notification & Hnotify & Hrun).
  unfold createNotification in Hnotify. destruct (negb _); [done|].
  injection Hnotify as <- <-.
  apply bind_inr in Hrun as (s5 & [] & Hemit & Hrun). injection Hemit as <-.
  apply bind_inr in Hrun as (s6 & [] & Hemit & Hrun). injection Hemit as <-.
  injection Hrun as <- <-.
  eexists adminId, s1, l, _. split; [done|]. split; [done|]. cbn.
  rewrite Hreqs, Hntf. by repeat split.
Qed.



(** What a completed inventory review leaves: the request with the
    itemStatuses of the decided indices, the persisted status, the
    reviewer and the time, and one more notification for the employee. *)
Lemma reviewInventoryRequest_outcome env sess id input s s' r request :
  inventoryRequests s !! id = Some request →
  respond (reviewInventoryRequest env sess id input) s = (s', r) →
  code r = 200 →
  ∃ adminId statuses notification,
    sess_userId sess = Some adminId
    ∧ inventoryRequests s' !! id
      = Some (mkInventoryRequest (ireq_employeeId request) (ireq_bulk request)
                (ireq_items request) (Some statuses) (persistedStatus request input)
                (Some adminId) (Some (env_now env)))
    ∧ dom statuses
      = reviewedKeys (decisionsUsed request input) (length (ireq_items request))
    ∧ notifications s' = push notification (notifications s)
    ∧ ntf_userId notification = ireq_employeeId request
    ∧ ntf_type notification = notifiedType request input.
Proof.
  intros Hreq Hrun Hcode.
  destruct (reviewInventoryRequest_200 env sess id input s s' r request)
    as (adminId & s1 & l & notification & Hauth & Hloop & _ & Hreqs & Hntf & Huser & Htype
        & _); [done..|].
  destruct (reviewLoop_done _ _ _ _ _ _ _ Hloop) as (Hdom & Hstatus & Htype' & _).
  exists adminId, (itemStatuses l), notification.
  split; [done|]. split; [|by rewrite <- Htype'].
  by rewrite Hreqs, lookup_alter_eq, Hreq, Hstatus.
Qed.


(** A completed per-item review persists the status derived from the
    tally of its decisions, and notifies the employee with type success
    exactly when it approved some item. *)
Lemma per_item_review_outcome env sess id input s s' r request decisions :
  inventoryRequests s !! id = Some request →
  decisionsUsed request input = Some decisions →
  respond (reviewInventoryRequest env sess id input) s = (s', r) →
  code r = 200 →
  ireq_status <$> inventoryRequests s' !! id
  = Some (finalStatusOf (countOutcome item_approved decisions)
            (countOutcome item_denied decisions)
            (Z.of_nat (length (ireq_items request))))
  ∧ ∃ notification,
      notifications s' = push notification (notifications s)
      ∧ ntf_type notification
        = if bool_decide (0 < countOutcome item_approved decisions)
          then success else alert.
Proof.
  intros Hreq Hdecisions Hrun Hcode.
  destruct (reviewInventoryRequest_outcome env sess id input s s' r request)
    as (adminId & statuses & notification & _ & Hlook & _ & Hntf & _ & Htype);
    [done..|].
  unfold persistedStatus in Hlook. unfold notifiedType in Htype.
  rewrite Hdecisions in Hlook, Htype. rewrite Hlook. split; [done|].
  by exists notification.
Qed.

Lemma countOutcome_bounds o decisions :
  0 ≤ countOutcome o decisions ≤ Z.of_nat (length decisions).
Proof.
  unfold countOutcome. pose proof (length_filter (λ d, dec_status d = o) decisions). lia.
Qed.

Lemma countOutcome_all o decisions :
  countOutcome o decisions = Z.of_nat (length decisions)
  ↔ Forall (λ d, dec_status d = o) decisions.
Proof.
  induction decisions as [|decision decisions IH].
  - split; [constructor | done].
  - rewrite countOutcome_cons, Forall_cons. cbn [length].
    pose proof (countOutcome_bounds o decisions).
    destruct (decide (dec_status decision = o)) as [Heq|Hne].
    + rewrite <- IH. split; [intros; split; [done|lia] | intros [_ ?]; lia].
    + split; [lia | by intros [? _]].
Qed.

Lemma countOutcome_total decisions :
  countOutcome item_approved decisions + countOutcome item_denied decisions
  = Z.of_nat (length decisions).
Proof.
  induction decisions as [|decision decisions IH]; [done|].
  rewrite !countOutcome_cons. cbn [length].
  repeat case_decide; destruct (dec_status decision); (done || lia).
Qed.

(** When the decisions are as many as the items, the status the per-item
    branch derives is approved exactly when every decision approves, and
    denied exactly when there is a decision and every decision denies. *)
Lemma finalStatusOf_covering decisions :
  let st := finalStatusOf (countOutcome item_approved decisions)
              (countOutcome item_denied decisions) (Z.of_nat (length decisions)) in
  (st = approved ↔ Forall (λ d, dec_status d = item_approved) decisions)
  ∧ (st = denied ↔ decisions ≠ []
                   ∧ Forall (λ d, dec_status d = item_denied) decisions).
Proof.
  cbn zeta. unfold finalStatusOf.
  pose proof (countOutcome_total decisions) as Htotal.
  pose proof (countOutcome_bounds item_approved decisions).
  pose proof (countOutcome_bounds item_denied decisions).
  rewrite <- !countOutcome_all.
  assert (decisions ≠ [] ↔ 0 < Z.of_nat (length decisions)) as ->.
  { destruct decisions; cbn [length]; split; (done || lia). }
  repeat case_bool_decide; split; split; (done || lia || intros []; lia).
Qed.



(** ** Admin create and update *)

(** An admin update that sets the amount alone persists it as it is. *)
Lemma patchInventory_amount_only :
  inventoryItems (respond (patchInventory adminSession "i1" amountOnly) sampleStore).1
    !! "i1"
  = Some (mkInventoryItem "ACME" 0 10 "pcs" "Bond paper" None "Room 1" 200 12300 None).
Proof. vm_compute. reflexivity. Qed.

(** * The claims *)

(** C1 (the code breaks it). Claim: after any Generate call every
    InventoryItem quantity is non-negative, also when the requested items
    name the same InventoryItem more than once.  The validate loop compares
    each line with the live quantity on its own, so two lines of six pieces
    against a stock of ten both pass, the call answers 201 and the deduct
    loop leaves the quantity at -2. *)
Theorem generate_same_item_twice_goes_negative :
  inv_quantity <$> inventoryItems sampleStore !! "i1" = Some 10
  ∧ code (respond (generateReleasedOrder sampleEnv adminSession twiceSix) sampleStore).2
    = 201
  ∧ inv_quantity <$>
      inventoryItems
        (respond (generateReleasedOrder sampleEnv adminSession twiceSix) sampleStore).1
      !! "i1" = Some (-2).
Proof. vm_compute. by repeat split. Qed.

(** C2. If the validation phase of a Generate call fails for some resolved
    item (the item is not found, or its live quantity is less than the
    requested one), the call answers 400 and leaves the whole store as it
    was: nothing is deducted and no report is created. *)
Theorem generate_validation_failure_aborts env sess data s userId resolved :
  sess_userId sess = Some userId →
  generateReleasedOrderIssue data = None →
  resolveItems userId (sess_role sess) data s = (s, inr resolved) →
  Exists (validationFails s) (itemsToRelease resolved) →
  ∃ msg, respond (generateReleasedOrder env sess data) s = (s, json 400 (Message msg)).
Proof. apply generate_fails_validation. Qed.

Lemma generate_validation_failure_aborts_witness :
  Exists (validationFails sampleStore) [paperLine 4; paperLine 20]
  ∧ ∃ msg, respond (generateReleasedOrder sampleEnv adminSession fourThenTwenty) sampleStore
           = (sampleStore, json 400 (Message msg)).
Proof.
  assert (Hex : Exists (validationFails sampleStore) [paperLine 4; paperLine 20]).
  { apply Exists_cons_tl, Exists_cons_hd. right. exists paper.
    split; [reflexivity | vm_compute; reflexivity]. }
  split; [exact Hex|].
  apply (generate_validation_failure_aborts sampleEnv adminSession fourThenTwenty
           sampleStore "u1" (mkResolved [paperLine 4; paperLine 20] "GSO" None false));
    [reflexivity | reflexivity | reflexivity | exact Hex].
Defined.

(** C3 (the code breaks it). Claim: the persisted aggregate status is a
    function of the per-item outcomes, whatever blanket status the caller
    supplied.  The release review persists the status of the call as it
    is: a review that denies both lines and carries status approved leaves
    the request approved with both lines denied. *)
Theorem review_release_persists_caller_status :
  (respond (reviewReleaseRequest sampleEnv adminSession "q2" denyBothSayApproved)
     storeWithPendingRelease).2 = json 200 (Message "Request approved")
  ∧ releasedOrderRequests
      (respond (reviewReleaseRequest sampleEnv adminSession "q2" denyBothSayApproved)
         storeWithPendingRelease).1 !! "q2"
    = Some (mkReleasedOrderRequest "u2" "Registrar" None false [paperLine 4; paperLine 3]
              (Some (<["0" := mkItemStatus item_denied None]>
                       (<["1" := mkItemStatus item_denied None]> ∅)))
              approved (Some "u1") (Some 1000)).
Proof. vm_compute. by repeat split. Qed.

(** C4 (the code breaks it). Claim: reviewing a request that is no longer
    pending fails with Conflict and has no side effects, for inventory
    requests as for release requests.  The inventory review never looks at
    the status of the request it loads: a second blanket approval of an
    already approved request answers 200 again, creates the item a second
    time and notifies the employee a second time. *)
Theorem review_inventory_request_twice :
  ireq_status <$> inventoryRequests afterFirstReview.1 !! "r1" = Some approved
  ∧ code afterFirstReview.2 = 200
  ∧ size (inventoryItems afterFirstReview.1) = 2%nat
  ∧ length (notifications afterFirstReview.1) = 1%nat
  ∧ code afterSecondReview.2 = 200
  ∧ size (inventoryItems afterSecondReview.1) = 3%nat
  ∧ length (notifications afterSecondReview.1) = 2%nat.
Proof. vm_compute. by repeat split. Qed.

(** C5 (the code breaks it). Claim: after every successful InventoryItem
    mutation the persisted amount equals quantity * unitCost.  The admin
    direct create keeps the amount of the payload whenever it is not zero:
    five pens at 10.00 sent with amount 999.00 are persisted with amount
    999.00, not 50.00. *)
Theorem postInventory_keeps_payload_amount :
  (respond (postInventory sampleEnv adminSession pens) sampleStore).2
  = json 200 (ItemBody "0" persistedPens)
  ∧ inventoryItems (respond (postInventory sampleEnv adminSession pens) sampleStore).1
    !! "0" = Some persistedPens
  ∧ inv_amount persistedPens = 99900
  ∧ inv_quantity persistedPens * inv_unitCost persistedPens = 5000.
Proof. vm_compute. by repeat split. Qed.

(** C6 (as amended). An employee's submission that passes the schema is
    pre-checked line by line, in order.  Whenever some line asks for more
    than the live quantity of its InventoryItem, the submission is refused
    and the store is left as it was (no request persisted, no
    notification): at the first line not covered by the stock, with the
    insufficient-quantity answer reporting the available and the requested
    quantity when that line's item exists, and with the item-not-found
    answer when it does not. *)
Theorem submit_short_of_stock_refused sess data s userId :
  sess_userId sess = Some userId →
  sess_role sess ≠ Some admin →
  createReleasedOrderRequestIssue data = None →
  Exists (shortOf s) (cr_items data) →
  ∃ before item after,
    cr_items data = (before ++ item :: after)%list
    ∧ Forall (inStock s) before
    ∧ ((∃ inv, inventoryItems s !! rel_inventoryItemId item = Some inv
               ∧ inv_quantity inv < rel_quantity item
               ∧ respond (submitReleaseRequest sess data) s
                 = (s, insufficientStock item (inv_quantity inv)))
       ∨ (inventoryItems s !! rel_inventoryItemId item = None
          ∧ respond (submitReleaseRequest sess data) s = (s, itemNotFound item))).
Proof.
  intros Hauth Hrole Hschema Hex.
  destruct (check_loop_short s _ Hex) as (before & item & after & Hsplit & Hbefore & Hcase).
  exists before, item, after. split; [done|]. split; [done|].
  assert (Hrun : ∀ r, forEach (cr_items data) checkRequestedItem s = (s, inl r) →
                      respond (submitReleaseRequest sess data) s = (s, r)).
  { intros r Hr. apply respond_replied. unfold submitReleaseRequest.
    erewrite bind_continue by (unfold requireAuth; by rewrite Hauth).
    rewrite Hschema. rewrite bool_decide_eq_false_2 by done.
    by erewrite bind_replied. }
  destruct Hcase as [(inv & E & Hlt & Hloop) | (E & Hloop)].
  - left. exists inv. auto.
  - right. auto.
Qed.

Lemma submit_short_of_stock_refused_witness :
  ∃ before item after,
    cr_items fiveThenTwenty = (before ++ item :: after)%list
    ∧ Forall (inStock sampleStore) before
    ∧ ((∃ inv, inventoryItems sampleStore !! rel_inventoryItemId item = Some inv
               ∧ inv_quantity inv < rel_quantity item
               ∧ respond (submitReleaseRequest employeeSession fiveThenTwenty) sampleStore
                 = (sampleStore, insufficientStock item (inv_quantity inv)))
       ∨ (inventoryItems sampleStore !! rel_inventoryItemId item = None
          ∧ respond (submitReleaseRequest employeeSession fiveThenTwenty) sampleStore
            = (sampleStore, itemNotFound item))).
Proof.
  apply (submit_short_of_stock_refused employeeSession fiveThenTwenty sampleStore "u2");
    [reflexivity | discriminate | reflexivity |].
  apply Exists_cons_tl, Exists_cons_hd. exists paper.
  split; [reflexivity | vm_compute; reflexivity].
Defined.

(** C6 (as the claim states it, refuted). The second line of the submission
    asks for twenty pieces of an item of which there are ten, but the
    first line names an item that does not exist: the answer is the
    item-not-found one, which reports no quantities. *)
Lemma submit_missing_item_answers_first :
  shortOf sampleStore (paperLine 20)
  ∧ respond (submitReleaseRequest employeeSession ghostThenTwenty) sampleStore
    = (sampleStore, json 400 (Message "Item not found: Ghost"))
  ∧ json 400 (Message "Item not found: Ghost") ≠ insufficientStock (paperLine 20) 10.
Proof.
  split; [|split].
  - exists paper. split; [reflexivity | vm_compute; reflexivity].
  - vm_compute. reflexivity.
  - vm_compute. discriminate.
Qed.




(** C8 (as amended). Generate keeps no trace on the release request, so a
    second call for the same request is treated exactly like the first: the
    request is unchanged by a successful call, the second call resolves the
    same items, and if the live stock still covers them (and the rows it
    writes still fit their columns) it deducts them again and persists a
    second report; it is refused (400, store unchanged) when the stock no
    longer covers some item. *)
Theorem generate_again_repeats env env' sess data s s1 r1 :
  respond (generateReleasedOrder env sess data) s = (s1, r1) →
  code r1 = 201 →
  ∃ userId resolved,
    resolveItems userId (sess_role sess) data s = (s, inr resolved)
    ∧ resolveItems userId (sess_role sess) data s1 = (s1, inr resolved)
    ∧ releasedOrderRequests s1 = releasedOrderRequests s
    ∧ releasedOrderReports s1
      = push (reportOf env userId data resolved) (releasedOrderReports s)
    ∧ (Forall (inStock s1) (itemsToRelease resolved) →
       deductsFit (itemsToRelease resolved) s1 = true →
       ∃ s2,
         respond (generateReleasedOrder env' sess data) s1
         = (s2, json 201 (ReportBody (reportOf env' userId data resolved)))
         ∧ releasedOrderReports s2
           = push (reportOf env' userId data resolved)
               (push (reportOf env userId data resolved) (releasedOrderReports s))
         ∧ ∀ id, inv_quantity <$> inventoryItems s2 !! id
                 = (λ q, q - requested id (itemsToRelease resolved))
                     <$> (inv_quantity <$> inventoryItems s1 !! id))
    ∧ (Exists (validationFails s1) (itemsToRelease resolved) →
       ∃ msg, respond (generateReleasedOrder env' sess data) s1
              = (s1, json 400 (Message msg))).
Proof.
  intros Hrun Hcode.
  destruct (generate_cases env sess data s)
    as [(s0 & r0 & Hr0 & Hne)
       | (userId & resolved & Hauth & Hschema & Hres & Hall & Hfit & Htotal & Huser)].
  { rewrite Hr0 in Hrun. injection Hrun as -> ->. done. }
  rewrite (generate_succeeds env sess data s userId resolved) in Hrun by done.
  injection Hrun as <- <-.
  destruct (deductAll_frame (itemsToRelease resolved) s) as (Hreqs & Hreps & _).
  set (s1 := set_releasedOrderReports _ _).
  assert (Hreqs1 : releasedOrderRequests s1 = releasedOrderRequests s) by exact Hreqs.
  assert (Hreps1 : releasedOrderReports s1
                   = push (reportOf env userId data resolved) (releasedOrderReports s))
    by (cbn; by rewrite Hreps).
  assert (Huser1 : hasUser userId s1 = true).
  { unfold hasUser in *. cbn. by rewrite deductAll_users. }
  pose proof (resolveItems_frame _ _ _ _ _ _ Hreqs1 Hres) as Hres1.
  exists userId, resolved. repeat split; try done.
  - intros Hall1 Hfit1. eexists. split; [by apply generate_succeeds|]. split.
    + cbn. destruct (deductAll_frame (itemsToRelease resolved) s1) as (_ & -> & _).
      by rewrite Hreps1.
    + intros id. apply deductAll_quantity.
  - intros Hex. by apply generate_fails_validation with (userId := userId)
                                                        (resolved := resolved).
Qed.

Lemma generate_again_repeats_witness :
  afterFirstGenerate.2.(code) = 201
  ∧ ∃ userId resolved,
      resolveItems userId (Some employee) generateForRequest storeWithApprovedRelease
      = (storeWithApprovedRelease, inr resolved)
      ∧ releasedOrderRequests afterFirstGenerate.1
        = releasedOrderRequests storeWithApprovedRelease.
Proof.
  split; [reflexivity|].
  destruct (generate_again_repeats sampleEnv sampleEnv employeeSession generateForRequest
              storeWithApprovedRelease afterFirstGenerate.1 afterFirstGenerate.2)
    as (userId & resolved & Hres & _ & Hreqs & _);
    [vm_compute; reflexivity | reflexivity |].
  exists userId, resolved. split; [exact Hres | exact Hreqs].
Defined.

(** C8 (as the claim states it, refuted). The employee generates the report
    of an approved request for four pieces out of ten, then calls Generate
    again for the same request: the second call is not refused, it answers
    201, deducts four more pieces and persists a second report. *)
Lemma second_generate_not_refused :
  code afterFirstGenerate.2 = 201
  ∧ inv_quantity <$> inventoryItems afterFirstGenerate.1 !! "i1" = Some 6
  ∧ length (releasedOrderReports afterFirstGenerate.1) = 1%nat
  ∧ code afterSecondGenerate.2 = 201
  ∧ inv_quantity <$> inventoryItems afterSecondGenerate.1 !! "i1" = Some 2
  ∧ length (releasedOrderReports afterSecondGenerate.1) = 2%nat.
Proof. vm_compute. by repeat split. Qed.

(** C9 (the code breaks it). Claim: the employee's notification has type
    success when at least one item was approved, for blanket approvals
    too.  The blanket branch creates the items without counting them, so
    the blanket approval of the pens request creates one item and sends a
    notification of type alert, titled as a denial. *)
Theorem blanket_approval_notifies_alert :
  afterFirstReview.2 = json 200 (ReviewBody 0 0 [("0", approvedPens)])
  ∧ inventoryItems afterFirstReview.1 !! "0" = Some approvedPens
  ∧ ireq_status <$> inventoryRequests afterFirstReview.1 !! "r1" = Some approved
  ∧ notifications afterFirstReview.1
    = [mkNotification "u2" alert "Request Denied"
         ("Your item " +:+ dquote +:+ "Pen" +:+ dquote
          +:+ " has been approved and added to inventory!")
         "/requests"].
Proof. vm_compute. by repeat split. Qed.

(** C10. When an employee's Generate call succeeds, the call named a stored
    release request, and the departmentOffice, rsNo and isPartial of the
    report it persists are those of that request (an absent or empty rsNo
    is recorded as absent), whatever the call itself carried in these
    fields; yet the call did carry a non-empty departmentOffice, without
    which the schema rejects it. *)
Theorem generate_employee_report_fields env sess data s s' r :
  sess_role sess = Some employee →
  respond (generateReleasedOrder env sess data) s = (s', r) →
  code r = 201 →
  nonEmpty (gen_departmentOffice data) = true
  ∧ ∃ requestId request report,
      truthy (gen_requestId data) = Some requestId
      ∧ releasedOrderRequests s !! requestId = Some request
      ∧ r = json 201 (ReportBody report)
      ∧ releasedOrderReports s' = push report (releasedOrderReports s)
      ∧ rep_departmentOffice report = rreq_departmentOffice request
      ∧ rep_rsNo report = truthy (rreq_rsNo request)
      ∧ rep_isPartial report = rreq_isPartial request.
Proof.
  intros Hrole Hrun Hcode.
  destruct (generate_cases env sess data s)
    as [(s0 & r0 & Hr0 & Hne)
       | (userId & resolved & Hauth & Hschema & Hres & Hall & Hfit & Htotal & Huser)].
  { rewrite Hr0 in Hrun. injection Hrun as -> ->. done. }
  rewrite (generate_succeeds env sess data s userId resolved) in Hrun by done.
  injection Hrun as <- <-.
  split; [by apply generateReleasedOrderIssue_department|].
  rewrite Hrole in Hres.
  destruct (resolveItems_employee _ _ _ _ Hres)
    as (requestId & request & Hid & Hreq & Hdept & Hrs & Hpartial).
  exists requestId, request, (reportOf env userId data resolved).
  repeat split; try done.
  cbn. by destruct (deductAll_frame (itemsToRelease resolved) s) as (_ & -> & _).
Qed.

Lemma generate_employee_report_fields_witness :
  ∃ report,
    (respond (generateReleasedOrder sampleEnv employeeSession generateForRequest)
       storeWithApprovedRelease).2 = json 201 (ReportBody report)
    ∧ rep_departmentOffice report = "Registrar"
    ∧ rep_rsNo report = Some "RS-7"
    ∧ rep_isPartial report = true.
Proof.
  destruct (generate_employee_report_fields sampleEnv employeeSession generateForRequest
              storeWithApprovedRelease
              (respond (generateReleasedOrder sampleEnv employeeSession generateForRequest)
                 storeWithApprovedRelease).1
              (respond (generateReleasedOrder sampleEnv employeeSession generateForRequest)
                 storeWithApprovedRelease).2)
    as (_ & requestId & request & report & Hid & Hreq & Hr & _ & Hdept & Hrs & Hpartial);
    [reflexivity | reflexivity | vm_compute; reflexivity |].
  exists report.
  injection Hid as <-.
  assert (E : releasedOrderRequests storeWithApprovedRelease !! "q1"
              = Some approvedRelease) by (vm_compute; reflexivity).
  rewrite E in Hreq. injection Hreq as <-.
  repeat split; assumption.
Defined.

(** * Further properties of the routes *)

(** ** Sequences of calls *)

(** An invariant of every call is an invariant of every sequence of calls. *)
Lemma storeAfterAll_invariant (P : Store → Prop) (allowed : Route → Prop) calls s :
  (∀ call s, allowed call → P s → P (storeAfter call s)) →
  Forall allowed calls → P s → P (storeAfterAll calls s).
Proof.
  intros Hstep Hall. revert s.
  induction Hall as [|call calls Hcall _ IH]; intros s HP; [done|].
  apply IH. by apply Hstep.
Qed.

(** ** What never writes the Ledger *)

Lemma ledger_kept ledger call s :
  readsLedgerOnly call = true → ledgerIs ledger s → ledgerIs ledger (storeAfter call s).
Proof.
  intros Hcall. destruct call; try discriminate Hcall; cbn [storeAfter];
    apply preserves_fst;
    unfold postCategory, postRequestSingle, postRequestBulk, submitReleaseRequest,
      reviewReleaseRequest, notifyInsufficient, getDashboardStats, resolveCategory;
    preserves_all; done.
Qed.

(** ** Category names stay unique *)

(** Get-or-create keeps the names unique: it creates a category only
    under a name it has just looked up in vain. *)
Lemma getOrCreate_unique {A} name (found : Category → Handler A)
    (created : Category → Handler A) :
  (∀ c, preserves uniqueCategoryNames (found c)) →
  (∀ c, preserves uniqueCategoryNames (created c)) →
  preserves uniqueCategoryNames
    (getCategoryByName name ≫= λ existing,
     match existing with
     | Some c => found c
     | None => createCategory name ≫= created
     end).
Proof.
  intros Hfound Hcreated s s' x Hunique.
  unfold mbind, Handler_bind, getCategoryByName, gets.
  destruct (list_find _ (categories s)) as [[i c]|] eqn:Hfind; cbn.
  - by apply Hfound.
  - assert (Hnew : uniqueCategoryNames
                     (set_categories
                        (push (mkCategory (fresh (cat_id <$> categories s)) name)) s)).
    { unfold uniqueCategoryNames, push. cbn. rewrite fmap_app. cbn.
      apply NoDup_app. split; [done|]. split; [|apply NoDup_singleton].
      intros n Hn Hn'. apply list_elem_of_singleton in Hn' as ->.
      by eapply list_find_name_None. }
    unfold createCategory.
    rewrite bool_decide_eq_false_2 by by apply list_find_name_None.
    destruct (created _ _) as [s1 [r|a]] eqn:Hrun; intros [= <- <-];
      by eapply Hcreated.
Qed.

Lemma resolveCategory_unique categoryName :
  preserves uniqueCategoryNames (resolveCategory categoryName).
Proof.
  unfold resolveCategory. destruct (truthy categoryName) as [name|].
  - apply getOrCreate_unique; intros c; apply preserves_ret.
  - apply preserves_ret.
Qed.

Lemma postCategory_unique sess name :
  preserves uniqueCategoryNames (postCategory sess name).
Proof.
  unfold postCategory. apply preserves_bind; [unfold requireAuth; preserves_all|].
  intros _. case_bool_decide; [apply preserves_reply|].
  intros s s' x Hunique Hrun.
  apply (getOrCreate_unique name
           (λ _, reply (json 400 (Message "Category already exists"))) mret
           (λ _, preserves_reply _ _) (λ _, preserves_ret _ _) s s' x Hunique).
  revert Hrun. unfold mbind, Handler_bind.
  destruct (getCategoryByName name s) as [s1 [r|[c|]]]; try done.
  by destruct (createCategory name s1) as [s2 [r|a]].
Qed.

Create HintDb preserves.
#[local] Hint Resolve resolveCategory_unique postCategory_unique : preserves.

Ltac preserves_with_hints :=
  repeat (preserves_step || solve [eauto with preserves] || (progress open_handler)
          || (progress unfold resolveCategory));
  try (apply preserves_direct; intros ? ?; open_storage; repeat case_match; cbn).

Lemma category_names_stay_unique call s :
  uniqueCategoryNames s → uniqueCategoryNames (storeAfter call s).
Proof.
  destruct call; cbn [storeAfter]; apply preserves_fst;
    unfold postInventory, postInventoryBulk, patchInventory, postRequestSingle,
      postRequestBulk, reviewInventoryRequest, submitReleaseRequest,
      reviewReleaseRequest, generateReleasedOrder, notifyInsufficient,
      getDashboardStats;
    preserves_with_hints; done.
Qed.

(** ** Amounts stay consistent *)

Lemma deductItem_amounts item : preserves amountsConsistent (deductItem item).
Proof.
  intros s s' x Hs. rewrite deductItem_spec.
  destruct (deductFits s item); intros [= <- <-]; [by apply deductStore_amount | done].
Qed.

#[local] Hint Resolve deductItem_amounts : preserves.

Lemma amounts_stay_consistent call s :
  takesMoneyFromClient call = false →
  amountsConsistent s → amountsConsistent (storeAfter call s).
Proof.
  intros Hcall. destruct call; try discriminate Hcall; cbn [storeAfter];
    apply preserves_fst;
    unfold postCategory, postRequestSingle, postRequestBulk, submitReleaseRequest,
      reviewReleaseRequest, generateReleasedOrder, notifyInsufficient,
      getDashboardStats;
    preserves_with_hints; done.
Qed.

(** ** A reviewed release request is never written again *)

Lemma lookup_insert_fresh {V} (m : gmap string V) id (v w : V) :
  m !! id = Some v → <[fresh (dom m) := w]> m !! id = Some v.
Proof.
  intros Hid. rewrite lookup_insert_ne; [done|].
  intros <-. by apply (is_fresh (dom m)), elem_of_dom.
Qed.

Lemma createReleasedOrderRequest_keeps id r employeeId departmentOffice rsNo isPartial items :
  preserves (releaseRequestIs id r)
    (createReleasedOrderRequest employeeId departmentOffice rsNo isPartial items).
Proof.
  apply preserves_direct. intros s Hs. unfold createReleasedOrderRequest.
  destruct (negb _); [done|]. cbn. by apply lookup_insert_fresh.
Qed.

Lemma reviewReleaseRequest_keeps env sess id' data id r :
  rreq_status r ≠ pending →
  preserves (releaseRequestIs id r) (reviewReleaseRequest env sess id' data).
Proof.
  intros Hreviewed s s' x Hs.
  unfold reviewReleaseRequest, requireRole, getReleasedOrderRequestById,
    updateReleasedOrderRequestStatus, createNotification, emitNotification,
    emitRequestChange, dbError, internalError, modify, gets, reply, mbind, Handler_bind,
    mret, Handler_ret.
  repeat case_match; simplify_eq; intros [= <- <-]; try done.
  all: unfold releaseRequestIs in *; cbn;
    (destruct (decide (id' = id)) as [->|Hne]; [|by rewrite lookup_alter_ne]);
    match goal with H : bool_decide (_ ≠ pending) = false |- _ =>
      apply bool_decide_eq_false in H; exfalso; apply H end;
    congruence.
Qed.

#[local] Hint Resolve createReleasedOrderRequest_keeps : preserves.
#[local] Hint Extern 1 (preserves (releaseRequestIs _ _) (reviewReleaseRequest _ _ _ _)) =>
  apply reviewReleaseRequest_keeps; assumption : preserves.

Lemma reviewed_release_request_kept call s id r :
  rreq_status r ≠ pending →
  releaseRequestIs id r s → releaseRequestIs id r (storeAfter call s).
Proof.
  intros Hreviewed. destruct call; cbn [storeAfter]; apply preserves_fst;
    unfold postCategory, postInventory, postInventoryBulk, patchInventory,
      postRequestSingle, postRequestBulk, reviewInventoryRequest, submitReleaseRequest,
      generateReleasedOrder, notifyInsufficient, getDashboardStats, resolveCategory;
    preserves_with_hints; done.
Qed.

(** ** A reviewed inventory request never goes back to pending *)

Lemma finalStatusOf_not_pending approvedCount deniedCount nitems :
  finalStatusOf approvedCount deniedCount nitems ≠ pending.
Proof. unfold finalStatusOf. by repeat case_bool_decide. Qed.

Lemma createInventoryRequest_reviewed id employeeId bulk items :
  preserves (inventoryRequestReviewed id) (createInventoryRequest employeeId bulk items).
Proof.
  apply preserves_direct. intros s (r & Hr & Hstatus). unfold createInventoryRequest.
  destruct (negb _); [by exists r|]. cbn.
  exists r. split; [by apply lookup_insert_fresh | done].
Qed.

Lemma updateInventoryRequestStatus_reviewed id now id' st reviewer statuses :
  st ≠ pending →
  preserves (inventoryRequestReviewed id)
    (updateInventoryRequestStatus now id' st reviewer statuses).
Proof.
  intros Hst. apply preserves_direct. intros s (r & Hr & Hstatus).
  unfold updateInventoryRequestStatus, modify, inventoryRequestReviewed.
  destruct (_ && _); [by exists r|]. cbn.
  destruct (decide (id' = id)) as [->|Hne].
  - rewrite lookup_alter_eq, Hr. cbn. eauto.
  - rewrite lookup_alter_ne by done. eauto.
Qed.

#[local] Hint Resolve createInventoryRequest_reviewed : preserves.
#[local] Hint Extern 1 (preserves (inventoryRequestReviewed _)
                          (updateInventoryRequestStatus _ _ _ _ _)) =>
  apply updateInventoryRequestStatus_reviewed;
  first [apply finalStatusOf_not_pending | assumption] : preserves.

Lemma reviewRequestValid_status input :
  reviewRequestValid input = true → rv_status input ≠ pending.
Proof.
  unfold reviewRequestValid. intros [Hstatus _]%andb_prop.
  by apply bool_decide_eq_true in Hstatus.
Qed.

Lemma reviewInventoryRequest_reviewed env sess id' input id :
  preserves (inventoryRequestReviewed id) (reviewInventoryRequest env sess id' input).
Proof.
  unfold reviewInventoryRequest. apply preserves_bind; [preserves_with_hints|].
  intros adminId. destruct (reviewRequestValid input) eqn:Hvalid; cbn [negb];
    [|apply preserves_reply].
  apply reviewRequestValid_status in Hvalid.
  unfold resolveCategory. preserves_with_hints; done.
Qed.

#[local] Hint Resolve reviewInventoryRequest_reviewed : preserves.

Lemma reviewed_inventory_request_kept call s id :
  inventoryRequestReviewed id s → inventoryRequestReviewed id (storeAfter call s).
Proof.
  destruct call; cbn [storeAfter]; apply preserves_fst;
    unfold postCategory, postInventory, postInventoryBulk, patchInventory,
      postRequestSingle, postRequestBulk, submitReleaseRequest, reviewReleaseRequest,
      generateReleasedOrder, notifyInsufficient, getDashboardStats, resolveCategory;
    preserves_with_hints; done.
Qed.

(** ** The logs only grow *)

Lemma logsExtend_refl s : logsExtend s s.
Proof. by repeat split. Qed.

Ltac logs_grow :=
  intros;
  match goal with
  | H : logsExtend _ _ |- logsExtend _ _ =>
      destruct H as (? & ? & ? & ?); unfold logsExtend, push; cbn;
      repeat split; first [done | by apply prefix_app_r]
  end.

Lemma logs_only_grow call s0 s :
  logsExtend s0 s → logsExtend s0 (storeAfter call s).
Proof.
  destruct call; cbn [storeAfter]; apply preserves_fst;
    unfold postCategory, postInventory, postInventoryBulk, patchInventory,
      postRequestSingle, postRequestBulk, reviewInventoryRequest, submitReleaseRequest,
      reviewReleaseRequest, generateReleasedOrder, notifyInsufficient,
      getDashboardStats, resolveCategory;
    preserves_with_hints; try done; logs_grow.
Qed.

(** * Further properties of the routes *)

(** ** Invariants of every sequence of calls *)

(** X1. Category names stay unique: whatever calls are made, in whatever
    order and with whatever outcome, no two categories of the store get
    the same name.  Every route that creates a category looks the name up
    first and creates only when the lookup finds nothing. *)
Theorem category_names_unique_always calls s :
  uniqueCategoryNames s → uniqueCategoryNames (storeAfterAll calls s).
Proof.
  apply (storeAfterAll_invariant uniqueCategoryNames (λ _, True)).
  - intros call s0 _. apply category_names_stay_unique.
  - by apply Forall_forall.
Qed.

Lemma category_names_unique_always_witness :
  uniqueCategoryNames (storeAfterAll sampleCalls sampleStore).
Proof.
  apply (category_names_unique_always sampleCalls sampleStore).
  unfold uniqueCategoryNames. cbn. apply NoDup_nil_2.
Defined.

(** X2. The ledger is written by the admin's add, bulk add and update, by
    the inventory review and by Generate only: any sequence of the other
    calls (category creation, the employee's submissions, the release
    review, the insufficient-stock notice, the dashboard) leaves every
    InventoryItem as it was. *)
Theorem ledger_untouched_by_other_calls calls s :
  Forall (λ call, readsLedgerOnly call = true) calls →
  inventoryItems (storeAfterAll calls s) = inventoryItems s.
Proof.
  intros Hcalls.
  apply (storeAfterAll_invariant (ledgerIs (inventoryItems s))
           (λ call, readsLedgerOnly call = true)); [|done..].
  intros call s0. apply ledger_kept.
Qed.

Lemma ledger_untouched_by_other_calls_witness :
  inventoryItems (storeAfterAll sampleReads sampleStore) = inventoryItems sampleStore.
Proof.
  apply (ledger_untouched_by_other_calls sampleReads sampleStore).
  unfold sampleReads. apply Forall_forall. intros call Hcall.
  by apply list_elem_of_filter in Hcall as [Hcall _].
Defined.

(** X3. The calls that take no unit cost or amount from the client keep
    the ledger consistent.  Through any sequence of calls other than the
    admin's add, bulk add and update and the inventory review (category
    creation, the submissions, the release review, Generate, the
    insufficient-stock notice, the dashboard), run one after the other: if
    every InventoryItem has amount = quantity * unitCost before, every one
    has after, whatever the calls answer.  Generate is the one among them
    that writes the ledger, and it recomputes the amount from the stored
    unit cost with every quantity it writes. *)
Theorem amounts_consistent_always calls s :
  Forall (λ call, takesMoneyFromClient call = false) calls →
  amountsConsistent s → amountsConsistent (storeAfterAll calls s).
Proof.
  intros Hcalls.
  apply (storeAfterAll_invariant amountsConsistent
           (λ call, takesMoneyFromClient call = false)); [|done].
  intros call s0. apply amounts_stay_consistent.
Qed.

Lemma amounts_consistent_always_witness :
  amountsConsistent (storeAfterAll sampleOthers sampleStore).
Proof.
  apply (amounts_consistent_always sampleOthers sampleStore).
  - unfold sampleOthers. apply Forall_forall. intros call Hcall.
    by apply list_elem_of_filter in Hcall as [Hcall _].
  - unfold amountsConsistent.
    change (inventoryItems sampleStore)
      with (<["i1" := paper]> (∅ : gmap string InventoryItem)).
    apply map_Forall_insert_2; [reflexivity | apply map_Forall_empty].
Defined.

(** X4. A release request that has been reviewed is never written again:
    once its status is no longer pending, no sequence of calls changes
    the row (status, item statuses, reviewer, review time), whatever the
    calls carry. *)
Theorem reviewed_release_request_frozen calls s id r :
  rreq_status r ≠ pending →
  releasedOrderRequests s !! id = Some r →
  releasedOrderRequests (storeAfterAll calls s) !! id = Some r.
Proof.
  intros Hreviewed.
  apply (storeAfterAll_invariant (releaseRequestIs id r) (λ _, True)).
  - intros call s0 _. by apply reviewed_release_request_kept.
  - by apply Forall_forall.
Qed.

Lemma reviewed_release_request_frozen_witness :
  releasedOrderRequests (storeAfterAll sampleCalls storeWithApprovedRelease) !! "q1"
  = Some approvedRelease.
Proof.
  apply (reviewed_release_request_frozen sampleCalls storeWithApprovedRelease "q1"
           approvedRelease); [discriminate | reflexivity].
Defined.

(** X5. An inventory request that has been reviewed never goes back to
    pending: the row stays in the store and its status stays other than
    pending through any sequence of calls (a later review may still
    replace one reviewed status by another). *)
Theorem reviewed_inventory_request_stays_reviewed calls s id r :
  inventoryRequests s !! id = Some r →
  ireq_status r ≠ pending →
  ∃ r', inventoryRequests (storeAfterAll calls s) !! id = Some r'
        ∧ ireq_status r' ≠ pending.
Proof.
  intros Hr Hstatus.
  apply (storeAfterAll_invariant (inventoryRequestReviewed id) (λ _, True)).
  - intros call s0 _. apply reviewed_inventory_request_kept.
  - by apply Forall_forall.
  - by exists r.
Qed.

Lemma reviewed_inventory_request_stays_reviewed_witness :
  ∃ r', inventoryRequests
          (storeAfterAll [PatchRequests sampleEnv adminSession "r1"
                            (mkReviewInput denied None)] afterFirstReview.1) !! "r1"
        = Some r'
        ∧ ireq_status r' ≠ pending.
Proof.
  apply (reviewed_inventory_request_stays_reviewed _ afterFirstReview.1 "r1"
           (mkInventoryRequest "u2" false [pens]
              (Some (<["0" := mkItemStatus item_approved None]> ∅)) approved
              (Some "u1") (Some 1000)));
    [vm_compute; reflexivity | discriminate].
Defined.

(** X6. The reports, the notifications, the audit trail and the category
    history are append-only for the calls: after any sequence of calls
    each of the four still begins with what it held before. *)
Theorem logs_are_append_only calls s :
  logsExtend s (storeAfterAll calls s).
Proof.
  apply (storeAfterAll_invariant (logsExtend s) (λ _, True)).
  - intros call s0 _. apply logs_only_grow.
  - by apply Forall_forall.
  - apply logsExtend_refl.
Qed.

(** ** Who may call what *)

(** X7. The admin routes write nothing for anyone else: a call of the
    direct add, the bulk add, the update, either review or the category
    creation whose session does not carry the admin role leaves the store
    as it was, and is answered 401 when the session has no user and 403
    when it has one. *)
Theorem admin_routes_refuse_others call s :
  adminOnly call = true →
  sess_role (sessionOf call) ≠ Some admin →
  storeAfter call s = s
  ∧ statusCode call s = match sess_userId (sessionOf call) with
                        | Some _ => 403
                        | None => 401
                        end.
Proof.
  intros Hcall Hrole.
  destruct call; try discriminate Hcall; cbn [sessionOf] in Hrole;
    cbn [storeAfter statusCode sessionOf];
    unfold postCategory, postInventory, postInventoryBulk, patchInventory,
      reviewInventoryRequest, reviewReleaseRequest, respond, requireAuth, requireRole,
      mbind, Handler_bind, reply;
    destruct (sess_userId sess) as [userId|]; [|done| |done| |done| |done| |done| |done];
    destruct (sess_role sess) as [[]|]; try done; cbn;
    try (rewrite bool_decide_eq_true_2 by done; done);
    rewrite bool_decide_eq_false_2 by set_solver; done.
Qed.

Lemma admin_routes_refuse_others_witness :
  storeAfter (PatchInventory employeeSession "i1" amountOnly) sampleStore = sampleStore
  ∧ statusCode (PatchInventory employeeSession "i1" amountOnly) sampleStore = 403.
Proof.
  apply (admin_routes_refuse_others (PatchInventory employeeSession "i1" amountOnly)
           sampleStore); [reflexivity | discriminate].
Defined.

(** ** The bulk add *)






Lemma foldM_app {A B} (body : B → A → Handler B) acc xs ys s :
  foldM body acc (xs ++ ys)%list s = (foldM body acc xs ≫= λ acc', foldM body acc' ys) s.
Proof.
  revert acc s. induction xs as [|x xs IH]; intros acc s; [done|].
  cbn [foldM app]. unfold mbind, Handler_bind.
  destruct (body acc x s) as [s1 [r|acc1]]; [done|]. apply IH.
Qed.







(** ** Notifying the admins *)










(** ** The employee's submissions *)

Lemma requireAuth_user sess s userId :
  sess_userId sess = Some userId → requireAuth sess s = (s, inr userId).
Proof. intros Hauth. unfold requireAuth. by rewrite Hauth. Qed.



(** X10. A bulk submission is all-or-nothing: when some item, after the
    shared supplier has been filled in where the item has none, does not
    pass the schema, the call answers 400 (validation error) and the
    store is as it was: no request, no notification. *)
Theorem bulk_request_refused_as_a_whole sess items supplier s userId :
  sess_userId sess = Some userId →
  Exists (λ item, itemPayloadValid (withSharedSupplier supplier item) = false) items →
  postRequestBulk sess (Some items) supplier s = (s, inl (json 400 ValidationErrors)).
Proof.
  intros Hauth Hbad. unfold postRequestBulk.
  erewrite bind_continue by by apply requireAuth_user.
  destruct items as [|item items]; [by apply Exists_nil in Hbad|].
  assert (forallb itemPayloadValid (withSharedSupplier supplier <$> item :: items) = false)
    as ->; [|done].
  apply not_true_iff_false. intros Hall. rewrite forallb_forall in Hall.
  apply Exists_exists in Hbad as (bad & Hin & Hbad).
  specialize (Hall (withSharedSupplier supplier bad)). rewrite Hbad in Hall.
  discriminate Hall. apply list_elem_of_In, list_elem_of_fmap. by exists bad.
Qed.

Lemma bulk_request_refused_as_a_whole_witness :
  postRequestBulk employeeSession (Some [pens; noPieces]) None sampleStore
  = (sampleStore, inl (json 400 ValidationErrors)).
Proof.
  apply (bulk_request_refused_as_a_whole employeeSession [pens; noPieces] None sampleStore
           "u2"); [reflexivity|].
  apply Exists_cons_tl, Exists_cons_hd. reflexivity.
Defined.





(** ** What a review adds to the ledger *)

(** A completed review has added to the ledger the rows it answers with,
    one per payload it approves. *)
Lemma review_ledger env sess id input s s' r request :
  inventoryRequests s !! id = Some request →
  respond (reviewInventoryRequest env sess id input) s = (s', r) →
  code r = 200 →
  ∃ nApproved nDenied created,
    body r = ReviewBody nApproved nDenied created
    ∧ Forall2 addedFrom (approvedPayloads request input) created
    ∧ ledgerGrewBy s s' created
    ∧ (is_Some (decisionsUsed request input) → nApproved = Z.of_nat (length created))
    ∧ (decisionsUsed request input = None → nApproved = 0 ∧ nDenied = 0).
Proof.
  intros Hreq Hrun Hcode.
  destruct (reviewInventoryRequest_200 env sess id input s s' r request)
    as (adminId & s1 & l & notification & _ & Hloop & Hledger & _ & _ & _ & _ & ->);
    [done..|].
  destruct (reviewLoop_done _ _ _ _ _ _ _ Hloop)
    as (_ & _ & _ & Hall & Hgrew & Hcount & Hblanket).
  exists (approvedCount l), (deniedCount l), (createdItems l).
  split; [done|]. split; [done|]. split; [by apply (ledgerGrewBy_to s s1)|]. done.
Qed.

(** X13. A completed inventory review adds to the ledger exactly what it
    approves.  When the call answers 200, its body lists the created rows,
    one per approved payload and in their order (the payloads the
    approving decisions point at; every item of the request under the
    blanket status approved; none under another blanket status); each row
    has the supplier, quantity, unit of measure, name and location of its
    payload and sits in the ledger under an id of its own that was free;
    the rows that were in the ledger are as they were.  With per-item
    decisions the approvedCount of the body is the number of created
    rows; under a blanket status both counts of the body are 0. *)
Theorem review_adds_what_it_approves env sess id input s s' r request :
  inventoryRequests s !! id = Some request →
  respond (reviewInventoryRequest env sess id input) s = (s', r) →
  code r = 200 →
  ∃ nApproved nDenied created,
    body r = ReviewBody nApproved nDenied created
    ∧ Forall2 addedFrom (approvedPayloads request input) created
    ∧ ledgerGrewBy s s' created
    ∧ (is_Some (decisionsUsed request input) → nApproved = Z.of_nat (length created))
    ∧ (decisionsUsed request input = None → nApproved = 0 ∧ nDenied = 0).
Proof. apply review_ledger. Qed.

Lemma review_adds_what_it_approves_witness :
  ∃ nApproved nDenied created,
    body afterFirstOnlyReview.2 = ReviewBody nApproved nDenied created
    ∧ Forall2 addedFrom [pens] created
    ∧ ledgerGrewBy storeWithBulkRequest afterFirstOnlyReview.1 created
    ∧ (is_Some (decisionsUsed bulkRequest decideFirstOnly)
       → nApproved = Z.of_nat (length created))
    ∧ (decisionsUsed bulkRequest decideFirstOnly = None → nApproved = 0 ∧ nDenied = 0).
Proof.
  apply (review_adds_what_it_approves sampleEnv adminSession "r2" decideFirstOnly
           storeWithBulkRequest afterFirstOnlyReview.1 afterFirstOnlyReview.2 bulkRequest);
    [reflexivity | vm_compute; reflexivity | reflexivity].
Defined.

(** X14. The inventory review is not all-or-nothing.  When the decisions
    of a per-item review by an admin who is a user of the store reach an
    approving decision whose index names no item of the request, the
    decisions before it having gone through (each approving one names an
    item whose quantity, unit cost and amount fit their columns), the call
    answers 500; the request is left as it was (not reviewed) and nobody
    is notified, but the rows created for the approving decisions before
    that one stay in the ledger. *)
Theorem review_failure_keeps_created_items env sess id input s adminId request
    before bad after :
  sess_userId sess = Some adminId →
  sess_role sess = Some admin →
  hasUser adminId s = true →
  reviewRequestValid input = true →
  inventoryRequests s !! id = Some request →
  ireq_bulk request = true →
  rv_itemDecisions input = Some (before ++ bad :: after)%list →
  Forall (λ d, dec_status d = item_approved
               → is_Some (itemAt (ireq_items request) (dec_index d))) before →
  Forall (λ itemData, payloadFits itemData = true)
    (approvedBy (ireq_items request) before) →
  dec_status bad = item_approved →
  itemAt (ireq_items request) (dec_index bad) = None →
  ∃ s' created,
    respond (reviewInventoryRequest env sess id input) s
    = (s', json 500 (Message "Internal server error"))
    ∧ inventoryRequests s' = inventoryRequests s
    ∧ notifications s' = notifications s
    ∧ Forall2 addedFrom (approvedBy (ireq_items request) before) created
    ∧ ledgerGrewBy s s' created.
Proof.
  intros Hauth Hrole Hadmin Hvalid Hreq Hbulk Hdecisions Hbefore Hfit Hbad Hnone.
  destruct (processDecisions_run env adminId (ireq_items request) before
              (mkReviewLocals [] 0 0 ∅) s Hbefore Hfit Hadmin) as (s1 & l1 & Hloop).
  destruct (processDecisions_done _ _ _ _ _ _ _ _ Hloop)
    as (_ & created & _ & _ & Hall & Hgrew).
  assert (Hframe : sameUsersAndRequests s s1).
  { eapply (preserves_foldM (sameUsersAndRequests s)); [|done|exact Hloop].
    intros. apply processDecision_frame. }
  destruct Hframe as (_ & Hreqs & Hntf).
  exists s1, created. split; [|done].
  apply respond_replied. unfold reviewInventoryRequest.
  erewrite bind_continue by by apply requireRole_admin.
  rewrite Hvalid. cbn [negb].
  erewrite bind_continue by (unfold getInventoryRequestById, gets; by rewrite Hreq).
  cbv beta iota zeta. rewrite Hbulk, Hdecisions.
  apply bind_replied, bind_replied. rewrite foldM_app.
  erewrite bind_continue by exact Hloop. cbn [foldM].
  apply bind_replied. unfold processDecision. by rewrite Hbad, Hnone.
Qed.

Lemma review_failure_keeps_created_items_witness :
  ∃ s' created,
    respond (reviewInventoryRequest sampleEnv adminSession "r2" approveFirstAndTenth)
      storeWithBulkRequest
    = (s', json 500 (Message "Internal server error"))
    ∧ inventoryRequests s' = inventoryRequests storeWithBulkRequest
    ∧ notifications s' = notifications storeWithBulkRequest
    ∧ Forall2 addedFrom [pens] created
    ∧ ledgerGrewBy storeWithBulkRequest s' created.
Proof.
  apply (review_failure_keeps_created_items sampleEnv adminSession "r2"
           approveFirstAndTenth storeWithBulkRequest "u1" bulkRequest
           [mkDecision 0 item_approved None] (mkDecision 9 item_approved None) []);
    [reflexivity | reflexivity | reflexivity | reflexivity | reflexivity | reflexivity
    | reflexivity | | | reflexivity | reflexivity].
  - apply Forall_cons_2; [|apply Forall_nil_2]. intros _. by exists pens.
  - change (approvedBy (ireq_items bulkRequest) [mkDecision 0 item_approved None])
      with [pens].
    apply Forall_cons_2; [reflexivity | apply Forall_nil_2].
Defined.



(** ** Generate *)


(** A Generate call answered 201 is one that passed every check and ran
    both loops. *)
Lemma generate_201 env sess data s s' r :
  respond (generateReleasedOrder env sess data) s = (s', r) →
  code r = 201 →
  ∃ userId resolved,
    sess_userId sess = Some userId
    ∧ resolveItems userId (sess_role sess) data s = (s, inr resolved)
    ∧ Forall (inStock s) (itemsToRelease resolved)
    ∧ s' = set_releasedOrderReports (push (reportOf env userId data resolved))
             (deductAll (itemsToRelease resolved) s)
    ∧ r = json 201 (ReportBody (reportOf env userId data resolved)).
Proof.
  intros Hrun Hcode.
  destruct (generate_cases env sess data s)
    as [(s0 & r0 & Hrun0 & Hne)
       | (userId & resolved & Hauth & Hschema & Hres & Hall & Hfit & Htotal & Huser)].
  { rewrite Hrun0 in Hrun. injection Hrun as <- <-. done. }
  rewrite (generate_succeeds env sess data s userId resolved Hauth Hschema Hres Hall
             Hfit Htotal Huser) in Hrun.
  injection Hrun as <- <-. by exists userId, resolved.
Qed.



(** X17. A Generate call that runs alone does not overdraw when its
    lines name distinct InventoryItems: if no quantity in the ledger is
    negative before a Generate call whose resolved lines name each
    InventoryItem at most once, and no other call writes the ledger
    between its validate loop and the end of its deduct loop, none is
    negative after it, whether the call is answered 201, refused, or
    stopped by a write that throws. *)
Theorem generate_distinct_lines_never_overdraw env sess data s userId resolved :
  sess_userId sess = Some userId →
  generateReleasedOrderIssue data = None →
  resolveItems userId (sess_role sess) data s = (s, inr resolved) →
  NoDup (rel_inventoryItemId <$> itemsToRelease resolved) →
  map_Forall (λ _ inv, 0 ≤ inv_quantity inv) (inventoryItems s) →
  map_Forall (λ _ inv, 0 ≤ inv_quantity inv)
    (inventoryItems (respond (generateReleasedOrder env sess data) s).1).
Proof. apply generate_distinct_items_nonneg. Qed.

Lemma generate_distinct_lines_never_overdraw_witness :
  map_Forall (λ _ inv, 0 ≤ inv_quantity inv)
    (inventoryItems (respond (generateReleasedOrder sampleEnv adminSession fourPieces)
                       sampleStore).1).
Proof.
  apply (generate_distinct_lines_never_overdraw sampleEnv adminSession fourPieces
           sampleStore "u1" (mkResolved [paperLine 4] "GSO" None false));
    [reflexivity | reflexivity | reflexivity | |].
  - cbn. apply NoDup_singleton.
  - change (inventoryItems sampleStore)
      with (<["i1" := paper]> (∅ : gmap string InventoryItem)).
    apply map_Forall_insert_2; [cbn; lia | apply map_Forall_empty].
Defined.

(** ** The dashboard *)

Lemma foldl_sum_permutation {A} (f : A → Z) (l l' : list A) a :
  l ≡ₚ l' → foldl (λ sum x, sum + f x) a l = foldl (λ sum x, sum + f x) a l'.
Proof.
  intros Hperm. revert a. induction Hperm as [|x l l' _ IH|x y l|l l' l'' _ IH1 _ IH2];
    intros a; cbn [foldl].
  - done.
  - apply IH.
  - f_equal. lia.
  - by rewrite IH1.
Qed.

Lemma foldl_sum_from {A} (f : A → Z) (l : list A) a :
  foldl (λ sum x, sum + f x) a l = a + foldl (λ sum x, sum + f x) 0 l.
Proof.
  revert a. induction l as [|x l IH]; intros a; cbn [foldl]; [lia|].
  rewrite (IH (a + f x)), (IH (0 + f x)). lia.
Qed.

Lemma sum_insert_fresh {V} (f : string * V → Z) (m : gmap string V) id v :
  m !! id = None →
  foldl (λ sum x, sum + f x) 0 (map_to_list (<[id := v]> m))
  = f (id, v) + foldl (λ sum x, sum + f x) 0 (map_to_list m).
Proof.
  intros Hm. rewrite (foldl_sum_permutation f _ _ 0 (map_to_list_insert m id v Hm)).
  cbn [foldl]. apply foldl_sum_from.
Qed.

Lemma sum_insert_over {V} (f : string * V → Z) (m : gmap string V) id v v' :
  m !! id = Some v →
  foldl (λ sum x, sum + f x) 0 (map_to_list (<[id := v']> m))
  = foldl (λ sum x, sum + f x) 0 (map_to_list m) - f (id, v) + f (id, v').
Proof.
  intros Hm. rewrite <- (insert_delete_id m id v Hm) at 2.
  rewrite <- (insert_delete_eq m id v').
  rewrite !sum_insert_fresh by apply lookup_delete_eq. lia.
Qed.

Lemma deductStore_totals item s :
  is_Some (inventoryItems s !! rel_inventoryItemId item) →
  totalQuantity (dashboardOf (deductStore item s))
  = totalQuantity (dashboardOf s) - rel_quantity item
  ∧ dom (inventoryItems (deductStore item s)) = dom (inventoryItems s)
  ∧ categories (deductStore item s) = categories s
  ∧ users (deductStore item s) = users s
  ∧ inventoryRequests (deductStore item s) = inventoryRequests s.
Proof.
  intros [inv Hinv]. unfold deductStore. rewrite Hinv. cbn.
  split; [|split; [|done]].
  - rewrite (sum_insert_over (λ item, inv_quantity item.2) _ _ inv) by done. cbn. lia.
  - apply dom_insert_lookup_L. by eexists.
Qed.

Lemma deductAll_totals items s :
  Forall (λ item, is_Some (inventoryItems s !! rel_inventoryItemId item)) items →
  totalQuantity (dashboardOf (deductAll items s))
  = totalQuantity (dashboardOf s) - totalRequested items
  ∧ dom (inventoryItems (deductAll items s)) = dom (inventoryItems s)
  ∧ categories (deductAll items s) = categories s
  ∧ users (deductAll items s) = users s
  ∧ inventoryRequests (deductAll items s) = inventoryRequests s.
Proof.
  revert s. induction items as [|item items IH]; intros s Hall.
  - cbn. split; [lia | done].
  - apply Forall_cons in Hall as [Hitem Hitems].
    change (deductAll (item :: items) s) with (deductAll items (deductStore item s)).
    destruct (deductStore_totals item s Hitem) as (Hq & Hdom & Hcat & Husers & Hreqs).
    destruct (IH (deductStore item s)) as (Hq' & Hdom' & Hcat' & Husers' & Hreqs').
    { eapply Forall_impl; [exact Hitems|]. intros item' Hsome. cbn in Hsome.
      apply elem_of_dom. rewrite Hdom. by apply elem_of_dom. }
    rewrite Hq', Hq, Hdom', Hdom, Hcat', Hcat, Husers', Husers, Hreqs', Hreqs.
    split; [|done]. cbn [totalRequested foldr]. fold (totalRequested items). lia.
Qed.

Lemma getDashboardStats_reads sess s userId :
  sess_userId sess = Some userId →
  getDashboardStats sess s = (s, inr (dashboardOf s)).
Proof.
  intros Hauth. unfold getDashboardStats.
  erewrite bind_continue by by apply requireAuth_user. done.
Qed.

(** X18. A release shows on the dashboard as it should.  When a Generate
    call is answered 201 with a report, the total quantity the dashboard
    shows after the call is the total it showed before minus the
    quantities of the lines of the report, summed over all lines (lines
    naming the same InventoryItem included); the numbers of items, of
    categories, of users and of pending requests are as before. *)
Theorem generate_shows_on_dashboard env sess data s s' r viewer viewerId :
  respond (generateReleasedOrder env sess data) s = (s', r) →
  code r = 201 →
  sess_userId viewer = Some viewerId →
  ∃ before after report,
    getDashboardStats viewer s = (s, inr before)
    ∧ getDashboardStats viewer s' = (s', inr after)
    ∧ body r = ReportBody report
    ∧ totalQuantity after = totalQuantity before - totalRequested (rep_items report)
    ∧ totalItems after = totalItems before
    ∧ totalCategories after = totalCategories before
    ∧ totalUsers after = totalUsers before
    ∧ pendingRequests after = pendingRequests before.
Proof.
  intros Hrun Hcode Hviewer.
  destruct (generate_201 env sess data s s' r Hrun Hcode)
    as (userId & resolved & _ & _ & Hall & -> & ->).
  exists (dashboardOf s), (dashboardOf (deductAll (itemsToRelease resolved) s)),
    (reportOf env userId data resolved).
  split; [by eapply getDashboardStats_reads|].
  split; [by erewrite getDashboardStats_reads|]. split; [reflexivity|].
  destruct (deductAll_totals (itemsToRelease resolved) s)
    as (Hq & Hdom & Hcat & Husers & Hreqs).
  { eapply Forall_impl; [exact Hall|]. intros item (inv & Hinv & _). by eexists. }
  split; [exact Hq|]. unfold dashboardOf, approvedUsers. cbn.
  rewrite !length_map_to_list, <- !size_dom, Hdom, Hcat, Husers, Hreqs. done.
Qed.

Lemma generate_shows_on_dashboard_witness :
  ∃ before after report,
    getDashboardStats employeeSession sampleStore = (sampleStore, inr before)
    ∧ getDashboardStats employeeSession
        (respond (generateReleasedOrder sampleEnv adminSession sixAndThree) sampleStore).1
      = ((respond (generateReleasedOrder sampleEnv adminSession sixAndThree) sampleStore).1,
         inr after)
    ∧ body (respond (generateReleasedOrder sampleEnv adminSession sixAndThree)
              sampleStore).2 = ReportBody report
    ∧ totalQuantity after = totalQuantity before - totalRequested (rep_items report)
    ∧ totalItems after = totalItems before
    ∧ totalCategories after = totalCategories before
    ∧ totalUsers after = totalUsers before
    ∧ pendingRequests after = pendingRequests before.
Proof.
  apply (generate_shows_on_dashboard sampleEnv adminSession sixAndThree sampleStore
           _ _ employeeSession "u2");
    [vm_compute; reflexivity | reflexivity | reflexivity].
Defined.

(** ** Categories *)

Lemma getCategoryByName_created name s :
  getCategoryByName name s = (s, inr None) →
  ∀ s1 c, createCategory name s = (s1, inr c) →
    cat_name c = name
    ∧ categories s1 = push c (categories s)
    ∧ getCategoryByName name s1 = (s1, inr (Some c)).
Proof.
  unfold getCategoryByName, gets. intros [= Hfind] s1 c. unfold createCategory.
  case_bool_decide; [done|]. intros [= <- <-].
  split; [done|]. split; [done|]. cbn. f_equal. f_equal.
  destruct (list_find _ (categories s)) as [found|] eqn:Hnone; [done|].
  unfold push. rewrite list_find_app_r by done. cbn. by rewrite decide_True.
Qed.

(** X19. Getting or creating a category twice is getting it the second
    time: after the get-or-create block has run for a category name, on
    any store, running it again for the same name gives the same category
    id and leaves the store as the first run left it; no second category
    of that name is created. *)
Theorem resolveCategory_twice categoryName s s1 categoryId :
  resolveCategory categoryName s = (s1, inr categoryId) →
  resolveCategory categoryName s1 = (s1, inr categoryId).
Proof.
  unfold resolveCategory. destruct (truthy categoryName) as [name|].
  - destruct (getCategoryByName name s) as [s0 [r|[found|]]] eqn:Hget.
    + by erewrite bind_replied by exact Hget.
    + erewrite bind_continue by exact Hget. intros [= <- <-].
      assert (s0 = s) as -> by (unfold getCategoryByName, gets in Hget; congruence).
      by erewrite bind_continue by exact Hget.
    + erewrite bind_continue by exact Hget.
      assert (s0 = s) as -> by (unfold getCategoryByName, gets in Hget; congruence).
      destruct (createCategory name s) as [s2 [r|c]] eqn:Hcreate;
        [by erewrite bind_replied by exact Hcreate|].
      erewrite bind_continue by exact Hcreate. intros [= <- <-].
      destruct (getCategoryByName_created name s Hget s2 c Hcreate) as (_ & _ & Hfound).
      by erewrite bind_continue by exact Hfound.
  - by intros [= <- <-].
Qed.

Lemma resolveCategory_twice_witness :
  resolveCategory (Some "Paper goods") (resolveCategory (Some "Paper goods") sampleStore).1
  = ((resolveCategory (Some "Paper goods") sampleStore).1, inr (Some "0")).
Proof.
  apply (resolveCategory_twice (Some "Paper goods") sampleStore). reflexivity.
Defined.

(** X20. A category an admin has created is there for everyone after.
    When the category route answers with a created category, the category
    has the name of the call and is the one row added to the categories,
    whose names did not hold it before; a second creation under that name
    by an admin is answered 400 (category already exists) and changes
    nothing; and the get-or-create block of the item routes finds that
    category for that name instead of creating one. *)
Theorem created_category_is_found sess name s s' c :
  postCategory sess name s = (s', inr c) →
  cat_name c = name
  ∧ categories s' = push c (categories s)
  ∧ (name ∉ cat_name <$> categories s)
  ∧ postCategory sess name s' = (s', inl (json 400 (Message "Category already exists")))
  ∧ (nonEmpty name = true → resolveCategory (Some name) s' = (s', inr (Some (cat_id c)))).
Proof.
  unfold postCategory.
  destruct (requireAuth sess s) as [s0 [r|userId]] eqn:Hauth.
  { by erewrite bind_replied by exact Hauth. }
  assert (s0 = s) as ->.
  { unfold requireAuth in Hauth. destruct (sess_userId sess); by injection Hauth. }
  erewrite bind_continue by exact Hauth.
  case_bool_decide as Hrole; [done|].
  destruct (getCategoryByName name s) as [s0 [r|[found|]]] eqn:Hget.
  { by erewrite bind_replied by exact Hget. }
  { erewrite bind_continue by exact Hget. cbv beta iota. unfold reply. by intros [=]. }
  assert (s0 = s) as -> by (unfold getCategoryByName, gets in Hget; congruence).
  erewrite bind_continue by exact Hget. intros Hcreate.
  destruct (getCategoryByName_created name s Hget s' c Hcreate) as (Hname & Hcats & Hfound).
  split; [done|]. split; [done|]. split; [|split].
  - apply list_find_name_None. unfold getCategoryByName, gets in Hget.
    injection Hget as Hget. by destruct (list_find _ (categories s)).
  - assert (Hauth' : requireAuth sess s' = (s', inr userId)).
    { unfold requireAuth in *. destruct (sess_userId sess) as [uid|]; [|done].
      unfold mret, Handler_ret in *. congruence. }
    erewrite bind_continue by exact Hauth'.
    by erewrite bind_continue by exact Hfound.
  - intros Hnonempty. unfold resolveCategory.
    assert (truthy (Some name) = Some name) as -> by by destruct name.
    by erewrite bind_continue by exact Hfound.
Qed.

Lemma created_category_is_found_witness :
  cat_name (mkCategory "0" "Paper goods") = "Paper goods"
  ∧ categories (postCategory adminSession "Paper goods" sampleStore).1
    = push (mkCategory "0" "Paper goods") (categories sampleStore)
  ∧ ("Paper goods" ∉ cat_name <$> categories sampleStore)
  ∧ postCategory adminSession "Paper goods"
      (postCategory adminSession "Paper goods" sampleStore).1
    = ((postCategory adminSession "Paper goods" sampleStore).1,
       inl (json 400 (Message "Category already exists")))
  ∧ (nonEmpty "Paper goods" = true
     → resolveCategory (Some "Paper goods")
         (postCategory adminSession "Paper goods" sampleStore).1
       = ((postCategory adminSession "Paper goods" sampleStore).1, inr (Some "0"))).
Proof.
  apply (created_category_is_found adminSession "Paper goods" sampleStore).
  reflexivity.
Defined.
(** ** Writes the database refuses *)

(** X21. Generate is not all-or-nothing once its validation has passed.
    When every resolved line is covered by the stock and every row the
    deduct loop writes fits its columns, but the insert of the report
    throws (the total of the amounts does not fit numeric(12,2), or the
    user of the session is no longer a user of the store), the call
    answers 500 and persists no report, yet the stock stays deducted: the
    quantity of every InventoryItem has gone down by what the lines ask of
    it. *)
Theorem generate_report_failure_keeps_deduction env sess data s userId resolved :
  sess_userId sess = Some userId →
  generateReleasedOrderIssue data = None →
  resolveItems userId (sess_role sess) data s = (s, inr resolved) →
  Forall (inStock s) (itemsToRelease resolved) →
  deductsFit (itemsToRelease resolved) s = true →
  numeric12_2 (totalAmountOf (itemsToRelease resolved)) && hasUser userId s = false →
  ∃ s',
    respond (generateReleasedOrder env sess data) s
    = (s', json 500 (Message "Internal server error"))
    ∧ releasedOrderReports s' = releasedOrderReports s
    ∧ ∀ id, inv_quantity <$> inventoryItems s' !! id
            = (λ q, q - requested id (itemsToRelease resolved))
                <$> (inv_quantity <$> inventoryItems s !! id).
Proof.
  intros Hauth Hschema Hres Hall Hfit Hreport.
  exists (deductAll (itemsToRelease resolved) s). split; [|split].
  - apply respond_replied. unfold generateReleasedOrder.
    erewrite bind_continue by by apply requireAuth_user.
    rewrite Hschema. erewrite bind_continue by exact Hres.
    erewrite bind_continue by by apply validate_all_inStock.
    erewrite bind_continue by by apply deduct_loop.
    cbv zeta. apply bind_replied.
    unfold createReleasedOrderReport. cbn [rep_totalAmount rep_releasedBy].
    unfold hasUser in *. by rewrite deductAll_users, Hreport.
  - by destruct (deductAll_frame (itemsToRelease resolved) s) as (_ & -> & _).
  - intros id. apply deductAll_quantity.
Qed.

Lemma generate_report_failure_keeps_deduction_witness :
  ∃ s',
    respond (generateReleasedOrder sampleEnv (mkSession (Some "u9") (Some admin)) fourPieces)
      sampleStore
    = (s', json 500 (Message "Internal server error"))
    ∧ releasedOrderReports s' = releasedOrderReports sampleStore
    ∧ ∀ id, inv_quantity <$> inventoryItems s' !! id
            = (λ q, q - requested id [paperLine 4])
                <$> (inv_quantity <$> inventoryItems sampleStore !! id).
Proof.
  apply (generate_report_failure_keeps_deduction sampleEnv
           (mkSession (Some "u9") (Some admin)) fourPieces sampleStore "u9"
           (mkResolved [paperLine 4] "GSO" None false));
    [reflexivity | reflexivity | reflexivity | | reflexivity | reflexivity].
  apply Forall_cons_2; [|apply Forall_nil_2]. exists paper.
  split; [reflexivity | vm_compute; discriminate].
Defined.



(** X23. A session whose user is no longer a user of the store cannot
    submit an item: the insert of the request throws, the call answers
    500 and the store is as it was (no request, no notification). *)
Theorem submission_without_user_refused sess itemData s userId :
  sess_userId sess = Some userId →
  hasUser userId s = false →
  itemPayloadValid itemData = true →
  postRequestSingle sess itemData s
  = (s, inl (json 500 (Message "Internal server error"))).
Proof.
  intros Hauth Huser Hvalid. unfold postRequestSingle.
  erewrite bind_continue by by apply requireAuth_user.
  rewrite Hvalid. cbn [negb]. apply bind_replied.
  unfold createInventoryRequest. by rewrite Huser.
Qed.

Lemma submission_without_user_refused_witness :
  postRequestSingle (mkSession (Some "u9") (Some employee)) pens sampleStore
  = (sampleStore, inl (json 500 (Message "Internal server error"))).
Proof.
  apply (submission_without_user_refused (mkSession (Some "u9") (Some employee)) pens
           sampleStore "u9"); reflexivity.
Defined.
